(** * Swarm agent: election FSM, task allocation and motion controller

    A shallow embedding of [agent.py] (class [SwarmAgent]).

    - Python floats are IEEE-754 binary64 values: they are modelled by
      Rocq's primitive floats, with the Python-level exceptions
      ([ZeroDivisionError], [OverflowError], [ValueError]) written out.
    - The agent object is one record; every method is a computation in a
      state-and-exception monad over that record, so that the mutations a
      method made before it raised are still visible.
    - [time.time()] and [random.uniform] are inputs: every reading a method
      takes is an argument of its model, named after the line that reads it.
    - [x ** 2] ends in the C library's [pow], whose result is not the
      correctly rounded square on every platform: [pow(x, 2.0)] is a
      parameter of the model, [libm_pow2], and the operands the interpreter
      settles before it calls the library are written out.
    - [_send_msg] builds the packet and hands it to a transport that the
      source stubs out; the packets handed over are recorded, in order, in
      the field [sent]. *)

From Stdlib Require Import ZArith List Bool String Strings.Byte Floats Lia.
From stdpp Require Import gmap.
Import ListNotations.

Set Warnings "-inexact-float".
Local Open Scope Z_scope.

Notation "x >? y" := (PrimFloat.ltb y x) (at level 70, no associativity) : float_scope.
Notation "x >=? y" := (PrimFloat.leb y x) (at level 70, no associativity) : float_scope.

(** ** Exceptions and the method monad *)

Inductive exn : Type :=
| StructError        (* struct.error *)
| OverflowError
| ZeroDivisionError
| ValueError.

Inductive outcome (A : Type) : Type :=
| Ret (a : A)
| Raise (e : exn).
Arguments Ret {A} a.
Arguments Raise {A} e.

Definition obind {A B} (o : outcome A) (k : A -> outcome B) : outcome B :=
  match o with
  | Ret a => k a
  | Raise e => Raise e
  end.

(** ** Bytes and the [struct] codec (network byte order, no padding) *)

Definition byte_of_Z (z : Z) : byte :=
  match Byte.of_N (Z.to_N (z mod 256)) with
  | Some b => b
  | None => x00
  end.

Definition Z_of_byte (b : byte) : Z := Z.of_N (Byte.to_N b).

Definition bytes := list byte.

(** format [B]: one unsigned byte *)
Definition pack_B (z : Z) : outcome bytes :=
  if (0 <=? z) && (z <? 256) then Ret [byte_of_Z z] else Raise StructError.

(** format [I]: unsigned 32-bit, most significant byte first *)
Definition pack_I (z : Z) : outcome bytes :=
  if (0 <=? z) && (z <? 4294967296) then
    Ret [byte_of_Z (z / 16777216); byte_of_Z (z / 65536); byte_of_Z (z / 256); byte_of_Z z]
  else Raise StructError.

Definition unpack_I (b3 b2 b1 b0 : byte) : Z :=
  Z_of_byte b3 * 16777216 + Z_of_byte b2 * 65536 + Z_of_byte b1 * 256 + Z_of_byte b0.

(** format [f]: the double is converted to binary32 (round to nearest even);
    a finite double that rounds to an infinity is an [OverflowError].
    Primitive floats have one NaN, without sign or payload, where
    [struct.pack] keeps the sign bit and the leading payload bits of the
    NaN it is given: the model packs the quiet NaN 0x7fc00000, which stands
    for any NaN word.  The properties that state packed bytes exclude NaN
    operands; those that only state what a receiver decodes do not need
    to, every NaN word decodes to NaN. *)
Definition f32_prec : Z := 24.
Definition f32_emax : Z := 128.

Definition f32_sign (s : bool) : Z := if s then 0x80000000 else 0.

Definition f32_bits (x : float) : option Z :=
  match Prim2SF x with
  | S754_nan => Some 0x7fc00000
  | S754_infinity s => Some (f32_sign s + 0x7f800000)
  | S754_zero s => Some (f32_sign s)
  | S754_finite s m e =>
      match binary_round f32_prec f32_emax s m e with
      | S754_finite s' m' e' =>
          Some (f32_sign s' +
                (if 0x800000 <=? Z.pos m'
                 then (e' + 150) * 0x800000 + (Z.pos m' - 0x800000)
                 else Z.pos m'))
      | S754_zero s' => Some (f32_sign s')
      | _ => None
      end
  end.

Definition f32_of_bits (w : Z) : float :=
  let s := Z.testbit w 31 in
  let ex := Z.land (Z.shiftr w 23) 0xff in
  let fr := Z.land w 0x7fffff in
  SF2Prim
    (if ex =? 255 then (if fr =? 0 then S754_infinity s else S754_nan)
     else if ex =? 0 then
       match fr with
       | Z.pos p => S754_finite s p (-149)
       | _ => S754_zero s
       end
     else
       match 0x800000 + fr with
       | Z.pos p => S754_finite s p (ex - 150)
       | _ => S754_nan
       end).

Definition pack_f (x : float) : outcome bytes :=
  match f32_bits x with
  | Some w =>
      Ret [byte_of_Z (w / 16777216); byte_of_Z (w / 65536); byte_of_Z (w / 256); byte_of_Z w]
  | None => Raise OverflowError
  end.

Definition unpack_f (b3 b2 b1 b0 : byte) : float :=
  f32_of_bits (unpack_I b3 b2 b1 b0).

(** [struct.pack('!BBI', a, b, c)] *)
Definition struct_pack_BBI (a b c : Z) : outcome bytes :=
  obind (pack_B a) (fun x =>
  obind (pack_B b) (fun y =>
  obind (pack_I c) (fun z => Ret (x ++ y ++ z)))).

(** [struct.unpack('!BBI', header)] *)
Definition struct_unpack_BBI (data : bytes) : outcome (Z * Z * Z) :=
  match data with
  | [t; s; k3; k2; k1; k0] => Ret (Z_of_byte t, Z_of_byte s, unpack_I k3 k2 k1 k0)
  | _ => Raise StructError
  end.

(** [struct.pack('!B', a)] *)
Definition struct_pack_B (a : Z) : outcome bytes := pack_B a.

(** [struct.pack('!ff', x, y)] *)
Definition struct_pack_ff (x y : float) : outcome bytes :=
  obind (pack_f x) (fun a => obind (pack_f y) (fun b => Ret (a ++ b))).

(** [struct.unpack('!ff', payload)] *)
Definition struct_unpack_ff (data : bytes) : outcome (float * float) :=
  match data with
  | [a3; a2; a1; a0; b3; b2; b1; b0] => Ret (unpack_f a3 a2 a1 a0, unpack_f b3 b2 b1 b0)
  | _ => Raise StructError
  end.

(** [struct.pack('!If', n, x)] *)
Definition struct_pack_If (n : Z) (x : float) : outcome bytes :=
  obind (pack_I n) (fun a => obind (pack_f x) (fun b => Ret (a ++ b))).

(** [struct.unpack('!If', payload)] *)
Definition struct_unpack_If (data : bytes) : outcome (Z * float) :=
  match data with
  | [a3; a2; a1; a0; b3; b2; b1; b0] => Ret (unpack_I a3 a2 a1 a0, unpack_f b3 b2 b1 b0)
  | _ => Raise StructError
  end.

(** [struct.pack('!IB', n, b)] *)
Definition struct_pack_IB (n b : Z) : outcome bytes :=
  obind (pack_I n) (fun a => obind (pack_B b) (fun c => Ret (a ++ c))).

(** [struct.unpack('!IB', payload)] *)
Definition struct_unpack_IB (data : bytes) : outcome (Z * Z) :=
  match data with
  | [a3; a2; a1; a0; b] => Ret (unpack_I a3 a2 a1 a0, Z_of_byte b)
  | _ => Raise StructError
  end.

(** ** Python float arithmetic that can raise *)

(** [float(n)] for a Python int, as the mixed products [-2.0 * rank] convert
    their int operand: the nearest double, ties to even; an int that rounds
    beyond the largest double is an [OverflowError]. *)
Definition float_of_int (n : Z) : outcome float :=
  match binary_normalize prec emax n 0 false with
  | S754_infinity _ => Raise OverflowError
  | v => Ret (SF2Prim v)
  end.

(** [errno] after a call into the C library: clear, [ERANGE], or any other
    value *)
Inductive errno : Type :=
| ENONE
| ERANGE
| EOTHER.

(** [_Py_ADJUST_ERANGE1]: with [errno] clear an infinite result is a range
    error all the same; an [ERANGE] that comes with a zero result (an
    underflow) is dropped. *)
Definition adjust_erange1 (x : float) (e : errno) : errno :=
  match e with
  | ENONE => if is_infinity x then ERANGE else ENONE
  | ERANGE => if (x =? 0)%float then ENONE else ERANGE
  | EOTHER => EOTHER
  end.

(** A C library whose [pow(x, 2.0)] is the correctly rounded square and
    which reports an overflow by [ERANGE].  The properties below hold of
    every C library; the sample runs are evaluated with this one. *)
Definition libm_nearest (x : float) : float * errno :=
  let r := (x * x)%float in (r, if is_infinity r then ERANGE else ENONE).

Section Platform.

(** [pow(x, 2.0)] of the platform's C library, with the [errno] it leaves
    behind.  The interpreter calls it for [x ** 2] with a finite positive
    [x] other than 1.0.  Its result need not be the correctly rounded
    square, so nothing is assumed of it: it is a parameter of the model. *)
Variable libm_pow2 : float -> float * errno.

(** [x ** 2], that is [float_pow] with the exponent 2.0.  NaN, the
    infinities, the zeros and 1.0 are settled by the interpreter; any other
    operand goes to the C library by its absolute value (the exponent is
    even, so the result is not negated).  A range error is an
    [OverflowError], any other [errno] a [ValueError]. *)
Definition py_pow2 (x : float) : outcome float :=
  if is_nan x then Ret x
  else if is_infinity x then Ret (abs x)
  else if (x =? 0)%float then Ret 0%float
  else
    let iv := if (x <? 0)%float then (- x)%float else x in
    if (iv =? 1)%float then Ret 1%float
    else
      let ix := fst (libm_pow2 iv) in
      match adjust_erange1 ix (snd (libm_pow2 iv)) with
      | ENONE => Ret ix
      | ERANGE => Raise OverflowError
      | EOTHER => Raise ValueError
      end.

(** [math.sqrt(x)]: a negative operand is a domain error. *)
Definition math_sqrt (x : float) : outcome float :=
  let r := PrimFloat.sqrt x in
  if is_nan r && negb (is_nan x) then Raise ValueError else Ret r.

(** [a / b] *)
Definition py_div (a b : float) : outcome float :=
  if (b =? 0)%float then Raise ZeroDivisionError else Ret (a / b)%float.

(** ** Data model *)

Inductive MsgType : Type :=
| HEARTBEAT
| ELECTION_ACCLAIM
| COORDINATOR
| TASK_CLAIM
| TASK_CONFLICT.

(** the [IntEnum] value *)
Definition MsgType_value (t : MsgType) : Z :=
  match t with
  | HEARTBEAT => 0x01
  | ELECTION_ACCLAIM => 0x02
  | COORDINATOR => 0x03
  | TASK_CLAIM => 0x04
  | TASK_CONFLICT => 0x05
  end.

Inductive AgentState : Type :=
| FOLLOWER
| ELECTION_WAIT
| LEADER.

Definition AgentState_eqb (a b : AgentState) : bool :=
  match a, b with
  | FOLLOWER, FOLLOWER | ELECTION_WAIT, ELECTION_WAIT | LEADER, LEADER => true
  | _, _ => false
  end.

Inductive TaskStatus : Type :=
| OPEN
| TENTATIVE
| ASSIGNED
| LOCKED.

(** a task dictionary: ['status'], ['pos'] and the optional key ['required_cap'] *)
Record Task : Type := mkTask {
  status : TaskStatus;
  pos : float * float;
  required_cap : option string
}.

(** a claim dictionary: ['winner'] and ['utility'] *)
Record Claim : Type := mkClaim {
  winner : Z;
  utility : float
}.

Record SwarmAgent : Type := mkAgent {
  agent_id : Z;
  total_agents : Z;
  state : AgentState;
  leader_id : option Z;
  leader_pos : option (float * float);
  last_heartbeat_time : float;
  tick : Z;
  election_wait_start : float;
  election_delay : float;
  tasks : list (Z * Task);                (* dict, in insertion order *)
  task_claims : gmap Z Claim;
  position : float * float;
  velocity : float * float;
  max_speed : float;
  obstacles : list (float * float * float);   (* sensors['obstacles'] *)
  neighbors : list (Z * float * float);       (* sensors['neighbors'] *)
  target : option (float * float);
  capabilities : list string;
  sent : list bytes                       (* packets handed to the transport *)
}.

(** [SwarmAgent.__init__], with the clock reading it stores *)
Definition init (now : float) (id total : Z) (caps : list string) : SwarmAgent :=
  {| agent_id := id; total_agents := total; state := FOLLOWER;
     leader_id := None; leader_pos := None; last_heartbeat_time := now;
     tick := 0; election_wait_start := 0; election_delay := 0;
     tasks := []; task_claims := ∅;
     position := (0, 0)%float; velocity := (0, 0)%float; max_speed := 5;
     obstacles := []; neighbors := []; target := None;
     capabilities := caps; sent := [] |}.

(** *** Attribute assignment *)

Definition with_state (v : AgentState) (a : SwarmAgent) : SwarmAgent :=
  mkAgent (agent_id a) (total_agents a) v (leader_id a) (leader_pos a)
    (last_heartbeat_time a) (tick a) (election_wait_start a) (election_delay a)
    (tasks a) (task_claims a) (position a) (velocity a) (max_speed a)
    (obstacles a) (neighbors a) (target a) (capabilities a) (sent a).

Definition with_leader_id (v : option Z) (a : SwarmAgent) : SwarmAgent :=
  mkAgent (agent_id a) (total_agents a) (state a) v (leader_pos a)
    (last_heartbeat_time a) (tick a) (election_wait_start a) (election_delay a)
    (tasks a) (task_claims a) (position a) (velocity a) (max_speed a)
    (obstacles a) (neighbors a) (target a) (capabilities a) (sent a).

Definition with_leader_pos (v : option (float * float)) (a : SwarmAgent) : SwarmAgent :=
  mkAgent (agent_id a) (total_agents a) (state a) (leader_id a) v
    (last_heartbeat_time a) (tick a) (election_wait_start a) (election_delay a)
    (tasks a) (task_claims a) (position a) (velocity a) (max_speed a)
    (obstacles a) (neighbors a) (target a) (capabilities a) (sent a).

Definition with_last_heartbeat_time (v : float) (a : SwarmAgent) : SwarmAgent :=
  mkAgent (agent_id a) (total_agents a) (state a) (leader_id a) (leader_pos a)
    v (tick a) (election_wait_start a) (election_delay a)
    (tasks a) (task_claims a) (position a) (velocity a) (max_speed a)
    (obstacles a) (neighbors a) (target a) (capabilities a) (sent a).

Definition with_election_wait_start (v : float) (a : SwarmAgent) : SwarmAgent :=
  mkAgent (agent_id a) (total_agents a) (state a) (leader_id a) (leader_pos a)
    (last_heartbeat_time a) (tick a) v (election_delay a)
    (tasks a) (task_claims a) (position a) (velocity a) (max_speed a)
    (obstacles a) (neighbors a) (target a) (capabilities a) (sent a).

Definition with_election_delay (v : float) (a : SwarmAgent) : SwarmAgent :=
  mkAgent (agent_id a) (total_agents a) (state a) (leader_id a) (leader_pos a)
    (last_heartbeat_time a) (tick a) (election_wait_start a) v
    (tasks a) (task_claims a) (position a) (velocity a) (max_speed a)
    (obstacles a) (neighbors a) (target a) (capabilities a) (sent a).

Definition with_tasks (v : list (Z * Task)) (a : SwarmAgent) : SwarmAgent :=
  mkAgent (agent_id a) (total_agents a) (state a) (leader_id a) (leader_pos a)
    (last_heartbeat_time a) (tick a) (election_wait_start a) (election_delay a)
    v (task_claims a) (position a) (velocity a) (max_speed a)
    (obstacles a) (neighbors a) (target a) (capabilities a) (sent a).

Definition with_task_claims (v : gmap Z Claim) (a : SwarmAgent) : SwarmAgent :=
  mkAgent (agent_id a) (total_agents a) (state a) (leader_id a) (leader_pos a)
    (last_heartbeat_time a) (tick a) (election_wait_start a) (election_delay a)
    (tasks a) v (position a) (velocity a) (max_speed a)
    (obstacles a) (neighbors a) (target a) (capabilities a) (sent a).

Definition with_position (v : float * float) (a : SwarmAgent) : SwarmAgent :=
  mkAgent (agent_id a) (total_agents a) (state a) (leader_id a) (leader_pos a)
    (last_heartbeat_time a) (tick a) (election_wait_start a) (election_delay a)
    (tasks a) (task_claims a) v (velocity a) (max_speed a)
    (obstacles a) (neighbors a) (target a) (capabilities a) (sent a).

Definition with_velocity (v : float * float) (a : SwarmAgent) : SwarmAgent :=
  mkAgent (agent_id a) (total_agents a) (state a) (leader_id a) (leader_pos a)
    (last_heartbeat_time a) (tick a) (election_wait_start a) (election_delay a)
    (tasks a) (task_claims a) (position a) v (max_speed a)
    (obstacles a) (neighbors a) (target a) (capabilities a) (sent a).

Definition with_target (v : option (float * float)) (a : SwarmAgent) : SwarmAgent :=
  mkAgent (agent_id a) (total_agents a) (state a) (leader_id a) (leader_pos a)
    (last_heartbeat_time a) (tick a) (election_wait_start a) (election_delay a)
    (tasks a) (task_claims a) (position a) (velocity a) (max_speed a)
    (obstacles a) (neighbors a) v (capabilities a) (sent a).

Definition with_sent (v : list bytes) (a : SwarmAgent) : SwarmAgent :=
  mkAgent (agent_id a) (total_agents a) (state a) (leader_id a) (leader_pos a)
    (last_heartbeat_time a) (tick a) (election_wait_start a) (election_delay a)
    (tasks a) (task_claims a) (position a) (velocity a) (max_speed a)
    (obstacles a) (neighbors a) (target a) (capabilities a) v.

(** [self.tick += 1], the first statement of an iteration of [update_loop] *)
Definition next_tick (a : SwarmAgent) : SwarmAgent :=
  mkAgent (agent_id a) (total_agents a) (state a) (leader_id a) (leader_pos a)
    (last_heartbeat_time a) (tick a + 1) (election_wait_start a) (election_delay a)
    (tasks a) (task_claims a) (position a) (velocity a) (max_speed a)
    (obstacles a) (neighbors a) (target a) (capabilities a) (sent a).

(** [update_sensors] *)
Definition update_sensors (obs : list (float * float * float))
    (nbs : list (Z * float * float)) (a : SwarmAgent) : SwarmAgent :=
  mkAgent (agent_id a) (total_agents a) (state a) (leader_id a) (leader_pos a)
    (last_heartbeat_time a) (tick a) (election_wait_start a) (election_delay a)
    (tasks a) (task_claims a) (position a) (velocity a) (max_speed a)
    obs nbs (target a) (capabilities a) (sent a).

(** [set_target] *)
Definition set_target (x y : float) (a : SwarmAgent) : SwarmAgent :=
  with_target (Some (x, y)) a.

(** *** Methods: state and exceptions *)

Definition M (A : Type) : Type := SwarmAgent -> outcome A * SwarmAgent.

Definition ret {A} (a : A) : M A := fun s => (Ret a, s).

Definition bind {A B} (m : M A) (k : A -> M B) : M B :=
  fun s =>
    match m s with
    | (Ret a, s') => k a s'
    | (Raise e, s') => (Raise e, s')
    end.

Definition get : M SwarmAgent := fun s => (Ret s, s).

Definition modify (f : SwarmAgent -> SwarmAgent) : M unit := fun s => (Ret tt, f s).

(** a pure computation that may raise *)
Definition lift {A} (o : outcome A) : M A := fun s => (o, s).

Notation "x <- m ;; k" := (bind m (fun x => k))
  (at level 100, m at next level, right associativity).
Notation "m ;; k" := (bind m (fun _ => k))
  (at level 100, right associativity).

(** the statement [pass], also the empty [else] branch *)
Definition pass : M unit := ret tt.

(** [if c: body] *)
Definition when (c : bool) (body : M unit) : M unit := if c then body else pass.

(** ** Communication layer (binary) *)

Definition _pack_header (msg_type : MsgType) : M bytes :=
  s <- get ;;
  lift (struct_pack_BBI (MsgType_value msg_type) (agent_id s) (tick s)).

Definition _send_msg (msg_type : MsgType) (payload : bytes) : M unit :=
  header <- _pack_header msg_type ;;
  let packet := header ++ payload in
  modify (fun s => with_sent (sent s ++ [packet]) s).

(** ** Leader election (quiet bully) *)

Definition _send_heartbeat : M unit :=
  s <- get ;;
  payload <- lift (struct_pack_ff (fst (position s)) (snd (position s))) ;;
  when (tick s mod 10 =? 0) (_send_msg HEARTBEAT payload).

(** The three clock readings of [_check_election_timeout] and the sampled
    jitter: [t_hb] is read for [time_since_hb], [t_enter] is stored in
    [election_wait_start], [t_wait] is read for the jitter test;
    [jitter] is the value of [random.uniform(0.0, 0.2)]. *)
Definition _check_election_timeout (t_hb t_enter t_wait jitter : float) : M unit :=
  s <- get ;;
  if AgentState_eqb (state s) LEADER then pass else
  let timeout := 3.0%float in
  let time_since_hb := (t_hb - last_heartbeat_time s)%float in
  when (AgentState_eqb (state s) FOLLOWER && (time_since_hb >? timeout)%float)
    (modify (with_state ELECTION_WAIT) ;;
     modify (with_election_wait_start t_enter) ;;
     modify (with_election_delay jitter) ;;
     modify (with_leader_id None) ;;
     modify (with_leader_pos None)) ;;
  s <- get ;;
  when (AgentState_eqb (state s) ELECTION_WAIT)
    (when (t_wait - election_wait_start s >? election_delay s)%float
       (modify (with_state LEADER) ;;
        modify (with_leader_id (Some (agent_id s))) ;;
        payload <- lift (struct_pack_B (agent_id s)) ;;
        _send_msg ELECTION_ACCLAIM payload ;;
        _send_msg COORDINATOR [])).

Definition _handle_heartbeat (now : float) (sender : Z) (payload : bytes) : M unit :=
  s <- get ;;
  if AgentState_eqb (state s) LEADER && (sender <? agent_id s) then
    _send_heartbeat
  else
    when (AgentState_eqb (state s) LEADER && (sender >? agent_id s))
      (modify (with_state FOLLOWER)) ;;
    modify (with_leader_id (Some sender)) ;;
    modify (with_last_heartbeat_time now) ;;
    when (Z.of_nat (length payload) =? 8)
      (l <- lift (struct_unpack_ff payload) ;;
       modify (with_leader_pos (Some (fst l, snd l)))) ;;
    s <- get ;;
    when (AgentState_eqb (state s) ELECTION_WAIT)
      (modify (with_state FOLLOWER)).

Definition _handle_election_acclaim (now : float) (sender : Z) : M unit :=
  s <- get ;;
  if sender >? agent_id s then
    modify (with_state FOLLOWER) ;;
    modify (with_leader_id (Some sender)) ;;
    modify (with_last_heartbeat_time now)
  else
    when ((sender <? agent_id s)
          && (AgentState_eqb (state s) LEADER || AgentState_eqb (state s) ELECTION_WAIT))
      (when (AgentState_eqb (state s) ELECTION_WAIT)
         (modify (with_state LEADER) ;;
          modify (with_leader_id (Some (agent_id s)))) ;;
       _send_heartbeat).

Definition _handle_coordinator (now : float) (sender : Z) : M unit :=
  modify (with_leader_id (Some sender)) ;;
  modify (with_state FOLLOWER) ;;
  modify (with_last_heartbeat_time now).

(** ** Task allocation (greedy claims, leader conflict resolution) *)

(** [c in self.capabilities] *)
Definition has_capability (caps : list string) (c : string) : bool :=
  existsb (String.eqb c) caps.

Definition _calculate_utility (task : Task) : M float :=
  s <- get ;;
  dx2 <- lift (py_pow2 (fst (position s) - fst (pos task))%float) ;;
  dy2 <- lift (py_pow2 (snd (position s) - snd (pos task))%float) ;;
  dist <- lift (math_sqrt (dx2 + dy2)%float) ;;
  let has_cap :=
    match required_cap task with
    | Some c => if negb (has_capability (capabilities s) c) then 0.0%float else 1.0%float
    | None => 1.0%float
    end in
  q <- lift (py_div 100.0 (1.0 + dist)%float) ;;
  ret (q * has_cap)%float.

Definition with_status (v : TaskStatus) (t : Task) : Task :=
  mkTask v (pos t) (required_cap t).

(** The loop of [_process_tasks]: [items] is what is left of
    [self.tasks.items()], [i] the position of its head in the dictionary.
    The body assigns to the task object it visits. *)
Fixpoint _process_tasks_loop (items : list (Z * Task)) (i : nat) : M unit :=
  match items with
  | [] => pass
  | (task_id, task) :: rest =>
      when (match status task with OPEN => true | _ => false end)
        (u <- _calculate_utility task ;;
         when (u >? 20.0)%float
           (modify (fun s => with_tasks (<[i := (task_id, with_status TENTATIVE task)]> (tasks s)) s) ;;
            payload <- lift (struct_pack_If task_id u) ;;
            _send_msg TASK_CLAIM payload)) ;;
      _process_tasks_loop rest (S i)
  end.

Definition _process_tasks : M unit :=
  s <- get ;;
  _process_tasks_loop (tasks s) 0.

Definition _handle_task_claim (sender : Z) (payload : bytes) : M unit :=
  tu <- lift (struct_unpack_If payload) ;;
  let task_id := fst tu in
  let u := snd tu in
  s <- get ;;
  when (AgentState_eqb (state s) LEADER)
    (let current_claim := task_claims s !! task_id in
     let is_new_better :=
       match current_claim with
       | None => true
       | Some c => (u >? utility c + 5.0)%float
       end in
     if is_new_better then
       modify (fun s => with_task_claims (<[task_id := mkClaim sender u]> (task_claims s)) s) ;;
       p <- lift (struct_pack_IB task_id sender) ;;
       _send_msg TASK_CONFLICT p
     else
       match current_claim with
       | Some c =>
           when (negb (winner c =? sender))
             (p <- lift (struct_pack_IB task_id (winner c)) ;;
              _send_msg TASK_CONFLICT p)
       | None => pass
       end).

(** [self.tasks[task_id]['status'] = v], guarded by [task_id in self.tasks] *)
Definition set_task_status (task_id : Z) (v : TaskStatus) (ts : list (Z * Task))
  : list (Z * Task) :=
  map (fun kt => if fst kt =? task_id then (fst kt, with_status v (snd kt)) else kt) ts.

Definition _handle_task_conflict (sender : Z) (payload : bytes) : M unit :=
  tw <- lift (struct_unpack_IB payload) ;;
  let task_id := fst tw in
  let winner_id := snd tw in
  s <- get ;;
  if winner_id =? agent_id s then
    modify (fun s => with_tasks (set_task_status task_id ASSIGNED (tasks s)) s)
  else
    modify (fun s => with_tasks (set_task_status task_id LOCKED (tasks s)) s).

(** ** Inbound frames *)

(** [now] is the clock reading the handler takes, if it takes one. *)
Definition on_message_received (now : float) (data : bytes) : M unit :=
  if Z.of_nat (length data) <? 6 then pass else
  h <- lift (struct_unpack_BBI (firstn 6 data)) ;;
  let msg_type := fst (fst h) in
  let sender := snd (fst h) in
  let payload := skipn 6 data in
  if msg_type =? MsgType_value HEARTBEAT then _handle_heartbeat now sender payload
  else if msg_type =? MsgType_value ELECTION_ACCLAIM then _handle_election_acclaim now sender
  else if msg_type =? MsgType_value COORDINATOR then _handle_coordinator now sender
  else if msg_type =? MsgType_value TASK_CLAIM then _handle_task_claim sender payload
  else if msg_type =? MsgType_value TASK_CONFLICT then _handle_task_conflict sender payload
  else pass.

(** ** Motion controller (artificial potential fields) *)

Definition vec : Type := float * float.

(** one iteration of the obstacle loop, accumulating into [f_rep] *)
Definition obstacle_force (p : vec) (f_rep : vec) (obs : float * float * float)
  : outcome vec :=
  let k_rep := 50.0%float in
  let rho_0 := 5.0%float in
  let ox := fst (fst obs) in
  let oy := snd (fst obs) in
  let r := snd obs in
  obind (py_pow2 (fst p - ox)%float) (fun a =>
  obind (py_pow2 (snd p - oy)%float) (fun b =>
  obind (math_sqrt (a + b)%float) (fun d =>
  let dist := (d - r)%float in
  let dist := if (dist <=? 0.001)%float then 0.001%float else dist in
  if (dist <? rho_0)%float then
    obind (py_div 1.0 dist) (fun inv_d =>
    obind (py_div 1.0 rho_0) (fun inv_rho =>
    obind (py_pow2 dist) (fun d2 =>
    obind (py_div (k_rep * (inv_d - inv_rho))%float d2) (fun mag =>
    let dx := (fst p - ox)%float in
    let dy := (snd p - oy)%float in
    obind (py_pow2 dx) (fun dx2 =>
    obind (py_pow2 dy) (fun dy2 =>
    obind (math_sqrt (dx2 + dy2)%float) (fun norm =>
    obind (py_div dx norm) (fun ux =>
    let f0 := (fst f_rep + ux * mag)%float in
    obind (py_div dy norm) (fun uy =>
    let f1 := (snd f_rep + uy * mag)%float in
    Ret (f0, f1))))))))))
  else Ret f_rep))).

(** one iteration of the neighbor loop, accumulating into [f_sep] *)
Definition neighbor_force (p : vec) (f_sep : vec) (nb : Z * float * float)
  : outcome vec :=
  let k_sep := 20.0%float in
  let nx := snd (fst nb) in
  let ny := snd nb in
  obind (py_pow2 (fst p - nx)%float) (fun a =>
  obind (py_pow2 (snd p - ny)%float) (fun b =>
  obind (math_sqrt (a + b)%float) (fun dist =>
  if (dist <? 2.0)%float then
    let dist := if (dist <=? 0.001)%float then 0.001%float else dist in
    obind (py_pow2 dist) (fun d2 =>
    obind (py_div k_sep d2) (fun mag =>
    let dx := (fst p - nx)%float in
    let dy := (snd p - ny)%float in
    obind (py_pow2 dx) (fun dx2 =>
    obind (py_pow2 dy) (fun dy2 =>
    obind (math_sqrt (dx2 + dy2)%float) (fun norm =>
    obind (py_div dx norm) (fun ux =>
    let f0 := (fst f_sep + ux * mag)%float in
    obind (py_div dy norm) (fun uy =>
    let f1 := (snd f_sep + uy * mag)%float in
    Ret (f0, f1))))))))
  else Ret f_sep))).

(** a [for] loop that accumulates and stops at the first exception *)
Fixpoint for_each {A B} (body : B -> A -> outcome B) (acc : B) (l : list A) : outcome B :=
  match l with
  | [] => Ret acc
  | x :: rest => obind (body acc x) (fun acc' => for_each body acc' rest)
  end.

Definition _update_physics (dt : float) : M unit :=
  s <- get ;;
  when (AgentState_eqb (state s) FOLLOWER
        && match leader_pos s with Some _ => true | None => false end)
    (match leader_pos s with
     | Some lp =>
         let rank := agent_id s in
         rx <- lift (float_of_int rank) ;;
         let x_offset := (-2.0 * rx)%float in
         ry <- lift (float_of_int rank) ;;
         let y_offset :=
           if rank mod 2 =? 0 then (2.0 * ry)%float else (-2.0 * ry)%float in
         let target_x := (fst lp + x_offset)%float in
         let target_y := (snd lp + y_offset)%float in
         modify (with_target (Some (target_x, target_y)))
     | None => pass
     end) ;;
  s <- get ;;
  match target s with
  | None => pass
  | Some tgt =>
      let p := position s in
      let k_att := 1.0%float in
      a <- lift (py_pow2 (fst tgt - fst p)%float) ;;
      b <- lift (py_pow2 (snd tgt - snd p)%float) ;;
      dist_to_target <- lift (math_sqrt (a + b)%float) ;;
      let f_att :=
        if (dist_to_target >? 0.5)%float
        then ((k_att * (fst tgt - fst p))%float, (k_att * (snd tgt - snd p))%float)
        else (0.0%float, 0.0%float) in
      f_rep <- lift (for_each (obstacle_force p) (0.0%float, 0.0%float) (obstacles s)) ;;
      f_sep <- lift (for_each (neighbor_force p) (0.0%float, 0.0%float) (neighbors s)) ;;
      let f_total := ((fst f_att + fst f_rep + fst f_sep)%float,
                      (snd f_att + snd f_rep + snd f_sep)%float) in
      vx2 <- lift (py_pow2 (fst f_total)) ;;
      vy2 <- lift (py_pow2 (snd f_total)) ;;
      v_mag <- lift (math_sqrt (vx2 + vy2)%float) ;;
      (if (v_mag >? max_speed s)%float then
         scale <- lift (py_div (max_speed s) v_mag) ;;
         modify (with_velocity ((fst f_total * scale)%float, (snd f_total * scale)%float))
       else
         modify (with_velocity f_total)) ;;
      modify (fun s => with_position
                ((fst (position s) + fst (velocity s) * dt)%float, snd (position s)) s) ;;
      modify (fun s => with_position
                (fst (position s), (snd (position s) + snd (velocity s) * dt)%float) s)
  end.

(** [_process_logic], with the clock readings and jitter of the election check *)
Definition _process_logic (t_hb t_enter t_wait jitter : float) : M unit :=
  _check_election_timeout t_hb t_enter t_wait jitter ;;
  s <- get ;;
  when (AgentState_eqb (state s) LEADER) _send_heartbeat ;;
  _process_tasks.

(** running a method on an agent *)
Definition run {A} (m : M A) (s : SwarmAgent) : outcome A * SwarmAgent := m s.


(** ** Vocabulary of the properties *)

(** big-endian bytes of an unsigned 32-bit value *)
Definition u32_be (z : Z) : bytes :=
  [byte_of_Z (z / 16777216); byte_of_Z (z / 65536); byte_of_Z (z / 256); byte_of_Z z].

(** a frame on the wire: the 6-byte header (type, sender, tick), then the payload *)
Definition frame (t : MsgType) (sender tk : Z) (payload : bytes) : bytes :=
  [byte_of_Z (MsgType_value t); byte_of_Z sender] ++ u32_be tk ++ payload.

(** the identity fits the [u8] of the header and the tick its [u32] *)
Definition header_ok (s : SwarmAgent) : Prop :=
  0 <= agent_id s < 256 /\ 0 <= tick s < 4294967296.

(** Leader implies [leader_id] is the node's own id *)
Definition leader_knows_itself (s : SwarmAgent) : Prop :=
  state s = LEADER -> leader_id s = Some (agent_id s).

(** the state a follower is left in by the failure-detection block *)
Definition entered_election_wait (t_enter jitter : float) (s : SwarmAgent) : SwarmAgent :=
  with_leader_pos None
    (with_leader_id None
       (with_election_delay jitter
          (with_election_wait_start t_enter (with_state ELECTION_WAIT s)))).

(** the state and the two announcements of an acclamation *)
Definition acclaimed (s : SwarmAgent) : SwarmAgent :=
  with_sent
    (sent s ++ [frame ELECTION_ACCLAIM (agent_id s) (tick s) [byte_of_Z (agent_id s)];
                frame COORDINATOR (agent_id s) (tick s) []])
    (with_leader_id (Some (agent_id s)) (with_state LEADER s)).

(** The follower transition read on the whole election check: a timed-out
    follower ends the check in ELECTION_WAIT with the leader view cleared. *)
Definition follower_timeout_ends_in_wait
    (t_hb t_enter t_wait jitter : float) (s : SwarmAgent) : Prop :=
  let s' := snd (run (_check_election_timeout t_hb t_enter t_wait jitter) s) in
  state s = FOLLOWER ->
  (t_hb - last_heartbeat_time s >? 3.0)%float = true ->
  state s' = ELECTION_WAIT /\ election_wait_start s' = t_enter
  /\ leader_id s' = None /\ leader_pos s' = None.

(** the arbitration rule in the spec's words: accept when there is no
    previous entry or the new utility beats the incumbent's by more than 5.0 *)
Definition claim_accepted (cur : option Claim) (u : float) : bool :=
  match cur with
  | None => true
  | Some c => (u >? utility c + 5.0)%float
  end.

(** TASK_CONFLICT(task_id, w) as sent by [s] *)
Definition conflict_frame (s : SwarmAgent) (task_id w : Z) : bytes :=
  frame TASK_CONFLICT (agent_id s) (tick s) (u32_be task_id ++ [byte_of_Z w]).

(** the claim table after the entry for [task_id] is replaced by (sender, u),
    and the TASK_CONFLICT naming the sender *)
Definition claim_awarded (task_id sender : Z) (u : float) (s : SwarmAgent) : SwarmAgent :=
  with_sent (sent s ++ [conflict_frame s task_id sender])
    (with_task_claims (<[task_id := mkClaim sender u]> (task_claims s)) s).

(** the incumbent re-affirmed *)
Definition claim_reaffirmed (task_id w : Z) (s : SwarmAgent) : SwarmAgent :=
  with_sent (sent s ++ [conflict_frame s task_id w]) s.

(** the declared payload size of each message type (wire format table) *)
Definition payload_size (code : Z) : option nat :=
  if code =? 1 then Some 8%nat
  else if code =? 2 then Some 1%nat
  else if code =? 3 then Some 0%nat
  else if code =? 4 then Some 8%nat
  else if code =? 5 then Some 5%nat
  else None.

(** a frame is well formed when it has a header, a known type code and a
    payload of the declared size *)
Definition well_formed_frame (data : bytes) : bool :=
  match data with
  | t :: _ :: _ :: _ :: _ :: _ :: payload =>
      match payload_size (Z_of_byte t) with
      | Some n => Nat.eqb (length payload) n
      | None => false
      end
  | _ => false
  end.

(** the frame is dropped: no state change, nothing sent, nothing raised *)
Definition silently_dropped (now : float) (data : bytes) (s : SwarmAgent) : Prop :=
  run (on_message_received now data) s = (Ret tt, s).

(** a LEADER answers an acclamation from a lower id with a HEARTBEAT
    carrying its packed position, whatever the tick *)
Definition suppresses_with_heartbeat (now : float) (sender : Z) (s : SwarmAgent) : Prop :=
  let s' := snd (run (_handle_election_acclaim now sender) s) in
  state s = LEADER -> sender < agent_id s ->
  state s' = LEADER
  /\ exists payload,
      struct_pack_ff (fst (position s)) (snd (position s)) = Ret payload
      /\ sent s' = sent s ++ [frame HEARTBEAT (agent_id s) (tick s) payload].

(** the claim that every malformed frame is dropped *)
Definition malformed_frame_dropped (now : float) (data : bytes) (s : SwarmAgent) : Prop :=
  well_formed_frame data = false -> silently_dropped now data s.

(** [math.sqrt(dx**2 + dy**2)], the length every distance of the agent is
    computed as *)
Definition norm2 (dx dy : float) : outcome float :=
  obind (py_pow2 dx) (fun a => obind (py_pow2 dy) (fun b => math_sqrt (a + b)%float)).

(** the distance from [p] to [q] as [_calculate_utility] computes it *)
Definition distance_to (p q : vec) : outcome float :=
  norm2 (fst p - fst q) (snd p - snd q).

(** the task requires a capability that the node's list does not contain *)
Definition capability_missing (caps : list string) (t : Task) : bool :=
  match required_cap t with
  | Some c => negb (has_capability caps c)
  | None => false
  end.

(** the capability match factor in the spec's words: 1 if the task has no
    required capability or the node's capabilities contain it, otherwise 0 *)
Definition capability_match (caps : list string) (t : Task) : float :=
  if capability_missing caps t then 0%float else 1%float.

(** what [_calculate_utility] returns, as a function of what it reads *)
Definition utility_of (p : vec) (caps : list string) (t : Task) : outcome float :=
  obind (py_pow2 (fst p - fst (pos t))%float) (fun dx2 =>
  obind (py_pow2 (snd p - snd (pos t))%float) (fun dy2 =>
  obind (math_sqrt (dx2 + dy2)%float) (fun dist =>
  obind (py_div 100.0 (1.0 + dist)%float) (fun q =>
  Ret (q * capability_match caps t)%float)))).

(** the claim that the utility is zero exactly when the capability is missing *)
Definition utility_zero_iff_capability_missing (s : SwarmAgent) (t : Task) : Prop :=
  forall u, fst (run (_calculate_utility t) s) = Ret u ->
            ((u =? 0)%float = true <-> capability_missing (capabilities s) t = true).

(** not negative: a NaN, or a value whose sign bit is clear *)
Definition sf_nonneg (x : spec_float) : bool :=
  match x with
  | S754_nan => true
  | S754_zero s | S754_infinity s | S754_finite s _ _ => negb s
  end.

Definition nonneg (x : float) : Prop := sf_nonneg (Prim2SF x) = true.

(** not below zero: a NaN, a zero of either sign, or a value above zero *)
Definition sf_not_below_zero (x : spec_float) : bool :=
  match x with
  | S754_zero _ => true
  | _ => sf_nonneg x
  end.

(** a number within binary32 range: the format [f] packs it, and its bytes
    are those of [f32_bits] (of a NaN the model keeps neither sign nor
    payload, so its bytes are not determined) *)
Definition packs_as_f32 (x : float) : Prop :=
  is_nan x = false /\ f32_bits x <> None.

(** big-endian bytes of the binary32 value of a float *)
Definition f32_be (u : float) : bytes :=
  match f32_bits u with
  | Some w => u32_be w
  | None => []
  end.

(** TASK_CLAIM(task_id as u32, u as f32) as sent by [s] *)
Definition claim_frame (s : SwarmAgent) (task_id : Z) (u : float) : bytes :=
  frame TASK_CLAIM (agent_id s) (tick s) (u32_be task_id ++ f32_be u).

(** the entry [kt'] is the entry [kt] under the status [v]: the same key,
    position and required capability, and the status is [v] *)
Definition restatused (v : TaskStatus) (kt kt' : Z * Task) : Prop :=
  fst kt' = fst kt
  /\ pos (snd kt') = pos (snd kt)
  /\ required_cap (snd kt') = required_cap (snd kt)
  /\ status (snd kt') = v.

(** the claim scan in the spec's words: a task is claimed, with utility
    [u], when its local status is Open and its utility [u] is greater than
    20.0 *)
Definition claimed_utility (s : SwarmAgent) (t : Task) : option float :=
  match status t with
  | OPEN =>
      match utility_of (position s) (capabilities s) t with
      | Ret u => if (u >? 20.0)%float then Some u else None
      | Raise _ => None
      end
  | _ => None
  end.

(** a claimed task becomes Tentative, any other task is left as it is *)
Definition scan_task (s : SwarmAgent) (kt : Z * Task) : Z * Task :=
  match claimed_utility s (snd kt) with
  | Some _ => (fst kt, with_status TENTATIVE (snd kt))
  | None => kt
  end.

(** a claimed task is broadcast, any other task produces no message *)
Definition scan_frames (s : SwarmAgent) (kt : Z * Task) : list bytes :=
  match claimed_utility s (snd kt) with
  | Some u => [claim_frame s (fst kt) u]
  | None => []
  end.

(** the claim scan as the claim states it, for any task map: afterwards a
    task is Tentative if it was Open with a utility above 20.0 and is
    otherwise as it was, and what was handed over is one TASK_CLAIM for each
    of the tasks that were claimed, in the order of the map *)
Definition scan_claims_as_stated (s : SwarmAgent) : Prop :=
  let s' := snd (run _process_tasks s) in
  Forall2 (fun kt kt' =>
             match claimed_utility s (snd kt) with
             | Some _ => restatused TENTATIVE kt kt'
             | None => kt' = kt
             end) (tasks s) (tasks s')
  /\ sent s' = sent s ++ concat (map (scan_frames s) (tasks s)).

(** the scan raises nothing on this entry: the utility of an Open task is
    computed (the C library reports no error for the squared offsets), and
    the id of a task that is claimed fits the 32-bit field of the payload *)
Definition claimable (s : SwarmAgent) (kt : Z * Task) : Prop :=
  status (snd kt) = OPEN ->
  exists u, utility_of (position s) (capabilities s) (snd kt) = Ret u
            /\ ((u >? 20.0)%float = true -> 0 <= fst kt < 4294967296).

(** what the claim scan can do to an entry: leave it as it is, or make an
    Open task whose utility is above 20.0 Tentative *)
Definition scanned (s : SwarmAgent) (kt kt' : Z * Task) : Prop :=
  kt' = kt
  \/ (claimed_utility s (snd kt) <> None
      /\ fst kt' = fst kt /\ status (snd kt') = TENTATIVE
      /\ pos (snd kt') = pos (snd kt) /\ required_cap (snd kt') = required_cap (snd kt)).

(** a TASK_CLAIM of node [s] for one of its tasks that is Open with a utility
    above 20.0 *)
Definition claim_of (s : SwarmAgent) (pkt : bytes) : Prop :=
  exists task_id t u p,
    In (task_id, t) (tasks s) /\ claimed_utility s t = Some u
    /\ struct_pack_If task_id u = Ret p
    /\ pkt = frame TASK_CLAIM (agent_id s) (tick s) p.

(** sample states *)
Definition sample_follower : SwarmAgent := init 1000 1 3 [].

Definition sample_waiting : SwarmAgent :=
  entered_election_wait 1005 0.125 sample_follower.

Definition sample_leader : SwarmAgent :=
  with_leader_id (Some 2) (with_state LEADER (init 1000 2 3 [])).

(** the leader of scenario 5: task 101 held by node 2 at utility 50.0 *)
Definition sample_arbiter : SwarmAgent :=
  with_task_claims (<[101 := mkClaim 2 50]> ∅) sample_leader.

(** the node and the task of scenario 4 *)
Definition sample_worker : SwarmAgent := init 1000 1 3 ["extinguisher"%string].

Definition task_101 : Task := mkTask OPEN (1, 0)%float (Some "extinguisher"%string).

(** the node of scenario 4 holding task 101 *)
Definition sample_holder : SwarmAgent := with_tasks [(101, task_101)] sample_worker.

(** a node heading for (10, 0) with a neighbor reported at its own position *)
Definition sample_crowded : SwarmAgent :=
  update_sensors [] [(2, 0%float, 0%float)] (set_target 10 0 sample_follower).

(** a node at the origin heading for a target 8.203125 m away (the square
    of that distance, 67.291259765625, is a double), nothing around *)
Definition sample_runner : SwarmAgent :=
  set_target 8.203125 0 sample_follower.

(** a task the node is equipped for, so far away that the sum of the
    squared coordinate differences is no longer finite *)
Definition far_task : Task :=
  mkTask OPEN (0x1.8p+511, 0x1.8p+511)%float (Some "extinguisher"%string).

(** a task a long way out: the square of its x offset from the origin is
    beyond the largest double *)
Definition remote_task : Task := mkTask OPEN (1e200, 0)%float None.

(** the node of scenario 4 with the remote task ahead of task 101 in its map *)
Definition sample_far_sighted : SwarmAgent :=
  with_tasks [(7, remote_task); (101, task_101)] sample_worker.

(** the node of scenario 4 holding its task under an id that does not fit
    32 bits *)
Definition sample_wide_task : SwarmAgent :=
  with_tasks [(4294967296, task_101)] sample_worker.

(** node 300, whose id does not fit the header, holding task 101 *)
Definition sample_wide_holder : SwarmAgent :=
  with_tasks [(101, task_101)] (init 1000 300 3 ["extinguisher"%string]).

(** the payload of TASK_CLAIM(101, 60.0) *)
Definition claim_101_60 : bytes := [x00; x00; x00; x65; x42; x70; x00; x00].

(** a HEARTBEAT from node 2 that carries no position *)
Definition bare_heartbeat : bytes := [x01; x02; x00; x00; x00; x07].

(** ** The control loop *)

(** what one iteration of [update_loop] takes from outside: the three clock
    readings of the election check and the jitter sample *)
Record Readings : Type := mkReadings {
  read_hb : float;
  read_enter : float;
  read_wait : float;
  read_jitter : float
}.

(** one iteration of the [while True] of [update_loop]; [start_time],
    [elapsed] and the sleep that ends the iteration do not touch the agent *)
Definition update_loop_iteration (period : float) (r : Readings) : M unit :=
  modify next_tick ;;
  _process_logic (read_hb r) (read_enter r) (read_wait r) (read_jitter r) ;;
  _update_physics period.

(** the iterations of the loop, one for each element of [rs] *)
Fixpoint update_loop_iterations (period : float) (rs : list Readings) : M unit :=
  match rs with
  | [] => pass
  | r :: rest => update_loop_iteration period r ;; update_loop_iterations period rest
  end.

(** [update_loop] never returns: [update_loop rs] is the loop up to the end
    of iteration [length rs], fed with the readings [rs] *)
Definition update_loop (rs : list Readings) : M unit :=
  let frequency := 10.0%float in
  period <- lift (py_div 1.0 frequency) ;;
  update_loop_iterations period rs.

(** ** Vocabulary of the properties between nodes and over the loop *)

(** the handler [on_message_received] selects for a type code *)
Definition handler (t : MsgType) (now : float) (sender : Z) (payload : bytes) : M unit :=
  match t with
  | HEARTBEAT => _handle_heartbeat now sender payload
  | ELECTION_ACCLAIM => _handle_election_acclaim now sender
  | COORDINATOR => _handle_coordinator now sender
  | TASK_CLAIM => _handle_task_claim sender payload
  | TASK_CONFLICT => _handle_task_conflict sender payload
  end.

(** what a TASK_CONFLICT for [task_id] does to an entry of a node: the task
    with that id is Assigned if the node is the winner and Locked if it is
    not, any other entry is as it was *)
Definition adjudicated (task_id : Z) (won : Prop) (kt kt' : Z * Task) : Prop :=
  (fst kt = task_id -> won -> restatused ASSIGNED kt kt')
  /\ (fst kt = task_id -> ~ won -> restatused LOCKED kt kt')
  /\ (fst kt <> task_id -> kt' = kt).

(** the status a TASK_CONFLICT naming [winner_id] gives a task of node [s] *)
Definition verdict (winner_id : Z) (s : SwarmAgent) : TaskStatus :=
  if winner_id =? agent_id s then ASSIGNED else LOCKED.

(** node 3, which has claimed task 101 *)
Definition sample_peer : SwarmAgent :=
  with_tasks [(101, with_status TENTATIVE task_101)] (init 1000 3 3 []).

(** a frame was answered: at most one frame went out, and only from a node
    that is LEADER afterwards and was not FOLLOWER before *)
Definition at_most_one_answer (s s' : SwarmAgent) : Prop :=
  sent s' = sent s
  \/ (exists p, sent s' = sent s ++ [frame HEARTBEAT (agent_id s) (tick s) p]
                \/ sent s' = sent s ++ [frame TASK_CONFLICT (agent_id s) (tick s) p])
     /\ state s' = LEADER /\ state s <> FOLLOWER.

(** ** Frame conditions *)

(** [m] relates every state to the state it leaves behind, also when it raises *)
Definition preserves {A} (R : SwarmAgent -> SwarmAgent -> Prop) (m : M A) : Prop :=
  forall s, R s (snd (m s)).

(** the value of [f] is the same before and after *)
Definition unchanged {X} (f : SwarmAgent -> X) : SwarmAgent -> SwarmAgent -> Prop :=
  fun s s' => f s' = f s.

(** identity, clock tick, equipment, sensor readings and motion state *)
Definition body (s : SwarmAgent) :=
  (agent_id s, total_agents s, tick s, capabilities s, max_speed s,
   obstacles s, neighbors s, position s, velocity s, target s).

(** what the election FSM keeps *)
Definition election_view (s : SwarmAgent) :=
  (state s, leader_id s, leader_pos s, last_heartbeat_time s,
   election_wait_start s, election_delay s).

(** what the task allocation keeps *)
Definition allocation (s : SwarmAgent) := (tasks s, task_claims s).

(** [m] keeps the invariant [P], also when it raises *)
Definition keeps {A} (P : SwarmAgent -> Prop) (m : M A) : Prop :=
  forall s, P s -> P (snd (m s)).

(** a node in ELECTION_WAIT has dropped its leader *)
Definition waiting_knows_no_leader (s : SwarmAgent) : Prop :=
  state s = ELECTION_WAIT -> leader_id s = None /\ leader_pos s = None.

(** the election invariant: a leader names itself, a waiting node names nobody *)
Definition election_view_consistent (s : SwarmAgent) : Prop :=
  leader_knows_itself s /\ waiting_knows_no_leader s.

(** what the election invariant reads *)
Definition election_core (s : SwarmAgent) := (agent_id s, election_view s).

(** what only the caller of the agent sets: nothing in the loop or in the
    handlers assigns these, the tick apart *)
Definition fixed (s : SwarmAgent) :=
  (agent_id s, total_agents s, capabilities s, max_speed s, obstacles s, neighbors s).

(** the HEARTBEAT of node [s] at tick [tk] *)
Definition heartbeat_frame (s : SwarmAgent) (tk : Z) : bytes :=
  frame HEARTBEAT (agent_id s) tk (f32_be (fst (position s)) ++ f32_be (snd (position s))).

(** the heartbeats of the [n] iterations that follow tick [tk]: one on
    every tick that is a multiple of 10 *)
Fixpoint heartbeats_due (s : SwarmAgent) (tk : Z) (n : nat) : list bytes :=
  match n with
  | O => []
  | S n' =>
      (if (tk + 1) mod 10 =? 0 then [heartbeat_frame s (tk + 1)] else [])
      ++ heartbeats_due s (tk + 1) n'
  end.

(** a leader with nothing to do: no target to go to, no task left open *)
Definition idle_leader (s : SwarmAgent) : Prop :=
  state s = LEADER /\ target s = None
  /\ Forall (fun kt => status (snd kt) <> OPEN) (tasks s).

(** node 300 waiting out its jitter: its id does not fit the header *)
Definition sample_wide : SwarmAgent :=
  entered_election_wait 1005 0.125 (init 1000 300 3 []).

(** leader 2 at 1e39 m on the x axis, beyond binary32 range *)
Definition sample_astray : SwarmAgent := with_position (1e39, 0)%float sample_leader.

(** the agent [n] ticks later, everything else as it is *)
Definition later (n : Z) (a : SwarmAgent) : SwarmAgent :=
  mkAgent (agent_id a) (total_agents a) (state a) (leader_id a) (leader_pos a)
    (last_heartbeat_time a) (tick a + n) (election_wait_start a) (election_delay a)
    (tasks a) (task_claims a) (position a) (velocity a) (max_speed a)
    (obstacles a) (neighbors a) (target a) (capabilities a) (sent a).

(** the readings of an iteration in which no time passes after second 1001 *)
Definition sample_readings : Readings := mkReadings 1001 1001 1001 0.125.

(** a leader whose entry for task 101 carries a NaN utility *)
Definition sample_stuck : SwarmAgent :=
  with_task_claims (<[101 := mkClaim 2 nan]> ∅) sample_leader.

(** the entry [c'] either is the entry [c] or beat it by more than 5.0 *)
Definition same_or_better (c c' : Claim) : Prop :=
  c' = c \/ (utility c' >? utility c + 5.0)%float = true.

(** a task entry later in the life of the node: same key, same position and
    required capability, and Open only if it was Open *)
Definition task_evolves (kt kt' : Z * Task) : Prop :=
  fst kt' = fst kt
  /\ pos (snd kt') = pos (snd kt)
  /\ required_cap (snd kt') = required_cap (snd kt)
  /\ (status (snd kt') = OPEN -> status (snd kt) = OPEN).

(** the same tasks in the same order, each one evolved *)
Definition tasks_evolve (s s' : SwarmAgent) : Prop :=
  Forall2 task_evolves (tasks s) (tasks s').

(** a task the node is not equipped for *)
Definition task_sonar : Task := mkTask OPEN (1, 0)%float (Some "sonar"%string).

(** a node demoted to FOLLOWER under [sender], its liveness credited at [now] *)
Definition following (now : float) (sender : Z) (s : SwarmAgent) : SwarmAgent :=
  with_last_heartbeat_time now (with_leader_id (Some sender) (with_state FOLLOWER s)).

(** leader 5, to be compared with leader 2 *)
Definition sample_rival : SwarmAgent :=
  with_leader_id (Some 5) (with_state LEADER (init 1000 5 3 [])).

(** the V-formation slot of node [rank] behind a leader at [lp], [r] being
    the rank as a float: two metres back per rank, even ranks to one side
    and odd ranks to the other *)
Definition formation_slot (rank : Z) (r : float) (lp : vec) : vec :=
  let x_offset := (-2.0 * r)%float in
  let y_offset := if rank mod 2 =? 0 then (2.0 * r)%float else (-2.0 * r)%float in
  ((fst lp + x_offset)%float, (snd lp + y_offset)%float).

(** a node heading for (10, 0) that stands in the centre of an obstacle of radius 1 *)
Definition sample_stuck_in_obstacle : SwarmAgent :=
  update_sensors [(0, 0, 1)%float] [] (set_target 10 0 sample_follower).

(** follower 1 of a leader last seen at (20, 0), sent to (10, 0) by its operator *)
Definition sample_wingman : SwarmAgent :=
  set_target 10 0 (with_leader_pos (Some (20, 0)%float) sample_follower).


(** the surface of the obstacle is not within the influence radius 5.0 *)
Definition obstacle_out_of_reach (p : vec) (obs : float * float * float) : Prop :=
  exists d, norm2 (fst p - fst (fst obs)) (snd p - snd (fst obs)) = Ret d
            /\ (d - snd obs <? 5.0)%float = false.

(** the neighbor is not within the personal space of 2.0 *)
Definition neighbor_out_of_reach (p : vec) (nb : Z * float * float) : Prop :=
  exists d, norm2 (fst p - snd (fst nb)) (snd p - snd nb) = Ret d
            /\ (d <? 2.0)%float = false.

(** a node heading for (10, 0) with an obstacle and a neighbor far off *)
Definition sample_clear : SwarmAgent :=
  update_sensors [(0, 20, 1)%float] [(2, 0%float, 3%float)] (set_target 10 0 sample_follower).

(** what was handed over between [s] and [s'] is well formed: every new
    packet has a known type code and a payload of the declared size *)
Definition emits_well_formed (s s' : SwarmAgent) : Prop :=
  exists new, sent s' = sent s ++ new
              /\ Forall (fun pkt => well_formed_frame pkt = true) new.

(** the binary32 value nearest to a double (ties to even), as a double;
    what a float is after a trip through the format [f] *)
Definition as_f32 (x : float) : float :=
  SF2Prim match Prim2SF x with
          | S754_finite s m e => binary_round f32_prec f32_emax s m e
          | v => v
          end.

(** * Properties *)

(** ** Float comparisons *)

Lemma SFcompare_antisym x y c :
  SFcompare x y = Some c -> SFcompare y x = Some (CompOpp c).
Proof.
  destruct x as [sx|sx| |sx mx ex], y as [sy|sy| |sy my ey]; simpl;
    try discriminate; intros H; injection H as <-;
    try (destruct sx; reflexivity); try (destruct sy; reflexivity);
    try (destruct sx, sy; reflexivity).
  destruct sx, sy; try reflexivity;
    rewrite (Z.compare_antisym ex ey);
    destruct (ex ?= ey) eqn:E; simpl; try reflexivity;
    rewrite (Pos.compare_cont_antisym _ _ Eq); simpl;
    destruct (Pos.compare_cont Eq mx my); reflexivity.
Qed.

Lemma gtb_irrefl (x : float) : (x >? x)%float = false.
Proof.
  rewrite ltb_spec. unfold SFltb.
  destruct (Prim2SF x) eqn:E; simpl; try reflexivity.
  - destruct s; reflexivity.
  - destruct s; rewrite Z.compare_refl, Pos.compare_cont_refl; reflexivity.
Qed.

Lemma leb_not_gtb (x y : float) : (x <=? y)%float = true -> (x >? y)%float = false.
Proof.
  rewrite leb_spec, ltb_spec. unfold SFleb, SFltb.
  destruct (SFcompare (Prim2SF x) (Prim2SF y)) as [c|] eqn:E; try discriminate.
  rewrite (SFcompare_antisym _ _ _ E). destruct c; simpl; congruence.
Qed.

(** ** Sending *)

Lemma pack_B_ok z : 0 <= z < 256 -> pack_B z = Ret [byte_of_Z z].
Proof.
  intros H. unfold pack_B.
  destruct (Z.leb_spec 0 z), (Z.ltb_spec z 256); try lia. reflexivity.
Qed.

Lemma pack_I_ok z : 0 <= z < 4294967296 -> pack_I z = Ret (u32_be z).
Proof.
  intros H. unfold pack_I.
  destruct (Z.leb_spec 0 z), (Z.ltb_spec z 4294967296); try lia. reflexivity.
Qed.

Lemma _send_msg_cases t p s :
  _send_msg t p s = (Ret tt, with_sent (sent s ++ [frame t (agent_id s) (tick s) p]) s)
  \/ _send_msg t p s = (Raise StructError, s).
Proof.
  unfold _send_msg, _pack_header, bind, get, lift, modify.
  destruct (struct_pack_BBI _ _ _) as [h|e] eqn:E; revert E;
    unfold struct_pack_BBI;
    replace (pack_B (MsgType_value t)) with (Ret (A:=bytes) [byte_of_Z (MsgType_value t)])
      by (destruct t; reflexivity);
    unfold pack_B, pack_I;
    (destruct (_ && _); cbn [obind]; [destruct (_ && _); cbn [obind]|]);
    intros [= <-]; [left|right|right]; reflexivity.
Qed.

Lemma _send_msg_ok t p s :
  header_ok s ->
  _send_msg t p s = (Ret tt, with_sent (sent s ++ [frame t (agent_id s) (tick s) p]) s).
Proof.
  intros [Hi Ht].
  unfold _send_msg, _pack_header, bind, get, lift, modify, struct_pack_BBI.
  rewrite (pack_B_ok (agent_id s)), (pack_I_ok (tick s)) by assumption.
  destruct t; reflexivity.
Qed.

Lemma _send_heartbeat_cases s :
  (exists p, struct_pack_ff (fst (position s)) (snd (position s)) = Ret p /\
      _send_heartbeat s = when (tick s mod 10 =? 0) (_send_msg HEARTBEAT p) s)
  \/ _send_heartbeat s = (Raise OverflowError, s).
Proof.
  unfold _send_heartbeat, bind, get, lift.
  destruct (struct_pack_ff _ _) as [p|e] eqn:E.
  - left. exists p. split; reflexivity.
  - right. revert E. unfold struct_pack_ff, pack_f.
    destruct (f32_bits _); cbn; [destruct (f32_bits _); cbn|]; congruence.
Qed.

Lemma _send_heartbeat_ok s p :
  struct_pack_ff (fst (position s)) (snd (position s)) = Ret p ->
  _send_heartbeat s = when (tick s mod 10 =? 0) (_send_msg HEARTBEAT p) s.
Proof.
  intros E. unfold _send_heartbeat, bind, get, lift. rewrite E. reflexivity.
Qed.

Local Opaque _send_msg _send_heartbeat.

Ltac mstep :=
  unfold run, bind, get, lift, modify, when, pass, ret in *; cbn [fst snd] in *.

Ltac send_cases :=
  repeat match goal with
    | |- context [_send_msg ?t ?p ?s] =>
        let H := fresh "Hs" in
        destruct (_send_msg_cases t p s) as [H|H]; rewrite H; clear H
    end.

Ltac heartbeat_cases :=
  match goal with
  | |- context [_send_heartbeat ?s] =>
      let H := fresh "Hh" in let p := fresh "p" in
      destruct (_send_heartbeat_cases s) as [(p & _ & H)|H]; rewrite H; clear H;
      [unfold when, pass, ret; destruct (_ =? 0); send_cases|]
  end.

(** ** The election invariant *)

Lemma inv_check s t_hb t_enter t_wait jitter o s' :
  leader_knows_itself s ->
  run (_check_election_timeout t_hb t_enter t_wait jitter) s = (o, s') ->
  leader_knows_itself s'.
Proof.
  unfold leader_knows_itself, _check_election_timeout. intros I. mstep.
  destruct (state s) eqn:Es; cbn [AgentState_eqb andb].
  - destruct (_ >? _)%float; cbn.
    + destruct (_ >? _)%float; cbn; [|intros [= <- <-]; discriminate].
      destruct (struct_pack_B _); cbn; [|intros [= <- <-]; reflexivity].
      send_cases; intros [= <- <-]; reflexivity.
    + rewrite Es. cbn. intros [= <- <-]. congruence.
  - rewrite Es. cbn. destruct (_ >? _)%float; cbn; [|intros [= <- <-]; congruence].
    destruct (struct_pack_B _); cbn; [|intros [= <- <-]; reflexivity].
    send_cases; intros [= <- <-]; reflexivity.
  - intros [= <- <-]. auto.
Qed.

Lemma inv_heartbeat s now sender payload o s' :
  leader_knows_itself s ->
  run (_handle_heartbeat now sender payload) s = (o, s') ->
  leader_knows_itself s'.
Proof.
  unfold leader_knows_itself, _handle_heartbeat. intros I. mstep.
  destruct (state s) eqn:Es; cbn [AgentState_eqb andb].
  - destruct (_ =? 8); [destruct (struct_unpack_ff _)|]; cbn; rewrite ?Es; cbn;
      intros [= <- <-]; cbn; congruence.
  - destruct (_ =? 8); [destruct (struct_unpack_ff _)|]; cbn; rewrite ?Es; cbn;
      intros [= <- <-]; cbn; congruence.
  - destruct (Z.ltb_spec sender (agent_id s)).
    + heartbeat_cases; intros [= <- <-]; auto.
    + destruct (Z.gtb_spec sender (agent_id s)); cbn.
      * destruct (_ =? 8); [destruct (struct_unpack_ff _)|]; cbn;
          intros [= <- <-]; discriminate.
      * assert (sender = agent_id s) as -> by lia.
        destruct (_ =? 8); [destruct (struct_unpack_ff _)|]; cbn; rewrite ?Es; cbn;
          intros [= <- <-]; reflexivity.
Qed.

Lemma inv_acclaim s now sender o s' :
  leader_knows_itself s ->
  run (_handle_election_acclaim now sender) s = (o, s') ->
  leader_knows_itself s'.
Proof.
  unfold leader_knows_itself, _handle_election_acclaim. intros I. mstep.
  destruct (sender >? agent_id s); cbn; [intros [= <- <-]; discriminate|].
  destruct (sender <? agent_id s); cbn [andb]; [|intros [= <- <-]; auto].
  destruct (state s) eqn:Es; cbn; try (intros [= <- <-]; congruence).
  - heartbeat_cases; intros [= <- <-]; reflexivity.
  - heartbeat_cases; intros [= <- <-]; auto.
Qed.

Lemma inv_coordinator s now sender o s' :
  run (_handle_coordinator now sender) s = (o, s') ->
  leader_knows_itself s'.
Proof. unfold leader_knows_itself. cbn. intros [= <- <-]. discriminate. Qed.

Lemma init_leader_knows_itself now id total caps :
  leader_knows_itself (init now id total caps).
Proof. unfold leader_knows_itself. cbn. discriminate. Qed.

(** C1. "Leader implies leader_id = own id" is preserved by every
    state-changing operation of the election FSM: the election timeout check
    and the handlers of HEARTBEAT, ELECTION_ACCLAIM and COORDINATOR, for any
    clock readings, jitter, sender and payload; it also holds of the state
    left behind when the operation raises. *)
Theorem leader_invariant_preserved (s : SwarmAgent) :
  leader_knows_itself s ->
  (forall t_hb t_enter t_wait jitter,
      leader_knows_itself (snd (run (_check_election_timeout t_hb t_enter t_wait jitter) s)))
  /\ (forall now sender payload,
      leader_knows_itself (snd (run (_handle_heartbeat now sender payload) s)))
  /\ (forall now sender,
      leader_knows_itself (snd (run (_handle_election_acclaim now sender) s)))
  /\ (forall now sender,
      leader_knows_itself (snd (run (_handle_coordinator now sender) s))).
Proof.
  intros I. repeat split; intros.
  - destruct (run (_check_election_timeout _ _ _ _) s) as [o s'] eqn:E.
    exact (inv_check _ _ _ _ _ _ _ I E).
  - destruct (run (_handle_heartbeat _ _ _) s) as [o s'] eqn:E.
    exact (inv_heartbeat _ _ _ _ _ _ I E).
  - destruct (run (_handle_election_acclaim _ _) s) as [o s'] eqn:E.
    exact (inv_acclaim _ _ _ _ _ I E).
  - destruct (run (_handle_coordinator _ _) s) as [o s'] eqn:E.
    exact (inv_coordinator _ _ _ _ _ E).
Qed.

Lemma leader_invariant_preserved_witness :
  leader_knows_itself sample_leader
  /\ leader_knows_itself (snd (run (_handle_heartbeat 1005 3 []) sample_leader)).
Proof.
  assert (H : leader_knows_itself sample_leader) by (intros _; reflexivity).
  split; [exact H|].
  exact (proj1 (proj2 (leader_invariant_preserved sample_leader H)) 1005%float 3 []).
Defined.

(** ** The election check *)

Lemma check_in_wait s t_hb t_enter t_wait jitter :
  state s = ELECTION_WAIT -> header_ok s ->
  run (_check_election_timeout t_hb t_enter t_wait jitter) s =
  if (t_wait - election_wait_start s >? election_delay s)%float
  then (Ret tt, acclaimed s) else (Ret tt, s).
Proof.
  intros Es Hh. unfold _check_election_timeout. mstep.
  rewrite Es. cbn. rewrite Es. cbn.
  destruct (_ >? _)%float; cbn; [|reflexivity].
  unfold struct_pack_B. rewrite pack_B_ok by apply Hh.
  rewrite _send_msg_ok by exact Hh. cbn.
  rewrite _send_msg_ok by exact Hh.
  unfold acclaimed, with_sent. cbn. rewrite <- app_assoc. reflexivity.
Qed.

(** C2. In ELECTION_WAIT, once (now - election_wait_start) > delay at the
    clock reading of the jitter test, the check makes the node LEADER with
    leader_id its own id and hands over exactly two frames, ELECTION_ACCLAIM
    carrying the own id and then COORDINATOR; while
    (now - election_wait_start) <= delay the state is unchanged and nothing
    is sent.  The identity and the tick fit the header. *)
Theorem election_wait_expiry (s : SwarmAgent) (t_hb t_enter t_wait jitter : float) :
  state s = ELECTION_WAIT -> header_ok s ->
  ((t_wait - election_wait_start s >? election_delay s)%float = true ->
   run (_check_election_timeout t_hb t_enter t_wait jitter) s = (Ret tt, acclaimed s)
   /\ state (acclaimed s) = LEADER
   /\ leader_id (acclaimed s) = Some (agent_id s)
   /\ sent (acclaimed s) =
        sent s ++ [frame ELECTION_ACCLAIM (agent_id s) (tick s) [byte_of_Z (agent_id s)];
                   frame COORDINATOR (agent_id s) (tick s) []])
  /\ ((t_wait - election_wait_start s <=? election_delay s)%float = true ->
      run (_check_election_timeout t_hb t_enter t_wait jitter) s = (Ret tt, s)).
Proof.
  intros Es Hh. rewrite (check_in_wait _ _ _ _ _ Es Hh). split.
  - intros ->. repeat split.
  - intros H. rewrite (leb_not_gtb _ _ H). reflexivity.
Qed.

Lemma election_wait_expiry_witness :
  state sample_waiting = ELECTION_WAIT /\ header_ok sample_waiting
  /\ (1005.5 - election_wait_start sample_waiting >? election_delay sample_waiting)%float = true
  /\ run (_check_election_timeout 1005.5 1005.5 1005.5 0.0625) sample_waiting
     = (Ret tt, acclaimed sample_waiting).
Proof.
  assert (Hh : header_ok sample_waiting) by (unfold header_ok; cbn; lia).
  assert (Hg : (1005.5 - election_wait_start sample_waiting
                >? election_delay sample_waiting)%float = true) by reflexivity.
  refine (conj eq_refl (conj Hh (conj Hg _))).
  exact (proj1 (proj1 (election_wait_expiry sample_waiting 1005.5 1005.5 1005.5 0.0625
                         eq_refl Hh) Hg)).
Defined.

Lemma check_as_follower s t_hb t_enter t_wait jitter :
  state s = FOLLOWER ->
  run (_check_election_timeout t_hb t_enter t_wait jitter) s =
  if (t_hb - last_heartbeat_time s >? 3.0)%float
  then run (_check_election_timeout t_hb t_enter t_wait jitter)
         (entered_election_wait t_enter jitter s)
  else (Ret tt, s).
Proof.
  intros Es. unfold _check_election_timeout. mstep.
  rewrite Es. cbn.
  destruct (_ >? _)%float; cbn; [reflexivity|].
  rewrite Es. reflexivity.
Qed.

Lemma check_in_wait_fields s t_hb t_enter t_wait jitter :
  state s = ELECTION_WAIT ->
  let s' := snd (run (_check_election_timeout t_hb t_enter t_wait jitter) s) in
  election_wait_start s' = election_wait_start s
  /\ election_delay s' = election_delay s
  /\ leader_pos s' = leader_pos s
  /\ ((t_wait - election_wait_start s >? election_delay s)%float = false ->
      run (_check_election_timeout t_hb t_enter t_wait jitter) s = (Ret tt, s))
  /\ ((t_wait - election_wait_start s >? election_delay s)%float = true ->
      state s' = LEADER /\ leader_id s' = Some (agent_id s)).
Proof.
  intros Es. unfold _check_election_timeout. mstep.
  rewrite Es. cbn. rewrite Es. cbn.
  destruct (_ >? _)%float; cbn.
  - destruct (struct_pack_B _); cbn; [send_cases; cbn|]; repeat split; discriminate.
  - repeat split; discriminate.
Qed.

(** The election check on a follower.  A follower leaves FOLLOWER in the
    election check exactly when (now - last_heartbeat) > 3.0 at the first
    clock reading; at exactly 3.0 nothing changes.  When it leaves, it
    records election_wait_start = the next clock reading and delay = the
    jitter sample, and clears leader_pos.  It ends the check in
    ELECTION_WAIT with leader_id absent as long as the elapsed time at the
    third clock reading is not greater than the delay; otherwise the second
    block of the same check runs on, and the node is LEADER when the check
    returns, with leader_id its own id and the two announcements. *)
Lemma follower_timeout (s : SwarmAgent) (t_hb t_enter t_wait jitter : float) :
  state s = FOLLOWER ->
  let r := run (_check_election_timeout t_hb t_enter t_wait jitter) s in
  let w := entered_election_wait t_enter jitter s in
  ((t_hb - last_heartbeat_time s >? 3.0)%float = false -> r = (Ret tt, s))
  /\ ((t_hb - last_heartbeat_time s)%float = 3.0%float -> r = (Ret tt, s))
  /\ ((t_hb - last_heartbeat_time s >? 3.0)%float = true ->
      election_wait_start (snd r) = t_enter
      /\ election_delay (snd r) = jitter
      /\ leader_pos (snd r) = None
      /\ ((t_wait - t_enter >? jitter)%float = false ->
          r = (Ret tt, w) /\ state w = ELECTION_WAIT /\ leader_id w = None)
      /\ ((t_wait - t_enter >? jitter)%float = true ->
          state (snd r) = LEADER /\ leader_id (snd r) = Some (agent_id s)
          /\ (header_ok s -> r = (Ret tt, acclaimed w))))
  /\ (state (snd r) <> FOLLOWER <-> (t_hb - last_heartbeat_time s >? 3.0)%float = true).
Proof.
  intros Es r w. subst r.
  rewrite (check_as_follower _ _ _ _ _ Es).
  assert (Ew : state w = ELECTION_WAIT) by reflexivity.
  pose proof (check_in_wait_fields w t_hb t_enter t_wait jitter Ew) as (F1 & F2 & F3 & F4 & F5).
  change (election_wait_start w) with t_enter in *.
  change (election_delay w) with jitter in *.
  change (leader_pos w) with (@None (float * float)) in *.
  change (agent_id w) with (agent_id s) in *.
  fold w.
  split; [|split; [|split]].
  - intros ->. reflexivity.
  - intros ->. reflexivity.
  - intros ->. split; [exact F1|]. split; [exact F2|].
    split; [exact F3|]. split.
    + intros G. split; [exact (F4 G)|]. split; reflexivity.
    + intros G. destruct (F5 G) as [L1 L2]. split; [exact L1|]. split; [exact L2|].
      intros Hh. rewrite (check_in_wait w _ _ _ _ Ew Hh).
      change (election_wait_start w) with t_enter.
      change (election_delay w) with jitter.
      rewrite G. reflexivity.
  - destruct (t_hb - last_heartbeat_time s >? 3)%float.
    + split; [reflexivity|]. intros _.
      destruct (t_wait - t_enter >? jitter)%float eqn:G.
      * destruct (F5 eq_refl) as [L1 _]. rewrite L1. discriminate.
      * rewrite (F4 eq_refl). discriminate.
    + split; [|discriminate]. cbn. intros H. now rewrite Es in H.
Qed.

(** C3 at a failing input.  Follower 1 last heard its leader at second
    1000.  The election check reads the clock at 1005 for the timeout test
    and at 1005 again for election_wait_start, samples the delay 0.125, and
    reads the clock a third time, for the jitter test, at 1005.5.  The
    follower is not in ELECTION_WAIT when the check returns: the second
    block of the same check has made it LEADER, with its own id as leader
    id and the ELECTION_ACCLAIM and COORDINATOR frames handed over. *)
Theorem follower_timeout_skips_election_wait :
  let r := run (_check_election_timeout 1005 1005 1005.5 0.125) sample_follower in
  state sample_follower = FOLLOWER
  /\ (1005 - last_heartbeat_time sample_follower >? 3.0)%float = true
  /\ fst r = Ret tt
  /\ state (snd r) = LEADER
  /\ leader_id (snd r) = Some 1
  /\ sent (snd r) = [frame ELECTION_ACCLAIM 1 0 [x01]; frame COORDINATOR 1 0 []].
Proof. vm_compute. repeat split. Qed.

(** The transition of the claim, a timed-out follower ending the check in
    ELECTION_WAIT as test_election_timeout_trigger asserts, does not hold
    at that input. *)
Lemma follower_timeout_can_end_as_leader :
  ~ follower_timeout_ends_in_wait 1005 1005 1005.5 0.125 sample_follower.
Proof.
  unfold follower_timeout_ends_in_wait. intros H.
  destruct (H eq_refl eq_refl) as [E _].
  vm_compute in E. discriminate E.
Qed.

(** ** Bytes *)

Lemma Z_of_byte_range b : 0 <= Z_of_byte b < 256.
Proof.
  unfold Z_of_byte. pose proof (Byte.to_N_bounded b). lia.
Qed.

Lemma byte_of_Z_of_byte b : byte_of_Z (Z_of_byte b) = b.
Proof.
  unfold byte_of_Z, Z_of_byte.
  rewrite Z.mod_small by (pose proof (Byte.to_N_bounded b); lia).
  rewrite N2Z.id, Byte.of_to_N. reflexivity.
Qed.

Lemma Z_of_byte_of_Z z : 0 <= z < 256 -> Z_of_byte (byte_of_Z z) = z.
Proof.
  intros H. unfold byte_of_Z, Z_of_byte.
  rewrite Z.mod_small by lia.
  destruct (Byte.of_N (Z.to_N z)) as [b|] eqn:E.
  - apply Byte.to_of_N in E. rewrite E. lia.
  - apply Byte.of_N_None_iff in E. lia.
Qed.

Lemma unpack_I_range a b c d : 0 <= unpack_I a b c d < 4294967296.
Proof.
  unfold unpack_I.
  pose proof (Z_of_byte_range a). pose proof (Z_of_byte_range b).
  pose proof (Z_of_byte_range c). pose proof (Z_of_byte_range d). lia.
Qed.

Lemma struct_unpack_If_range payload n x :
  struct_unpack_If payload = Ret (n, x) -> 0 <= n < 4294967296.
Proof.
  unfold struct_unpack_If.
  do 9 (destruct payload as [|? payload]; try discriminate).
  intros [= <- _]. apply unpack_I_range.
Qed.

Lemma struct_pack_IB_ok n b :
  0 <= n < 4294967296 -> 0 <= b < 256 ->
  struct_pack_IB n b = Ret (u32_be n ++ [byte_of_Z b]).
Proof.
  intros Hn Hb. unfold struct_pack_IB. rewrite pack_I_ok, pack_B_ok by assumption.
  reflexivity.
Qed.

Lemma conflict_frame_inj s task_id a b :
  0 <= a < 256 -> 0 <= b < 256 ->
  conflict_frame s task_id a = conflict_frame s task_id b -> a = b.
Proof.
  intros Ha Hb. unfold conflict_frame, frame, u32_be. cbn. intros [= E].
  rewrite <- (Z_of_byte_of_Z a Ha), <- (Z_of_byte_of_Z b Hb), E. reflexivity.
Qed.

(** ** Leader arbitration *)

Lemma task_claim_result s sender payload task_id u :
  struct_unpack_If payload = Ret (task_id, u) ->
  header_ok s -> 0 <= sender < 256 ->
  (forall c, task_claims s !! task_id = Some c -> 0 <= winner c < 256) ->
  run (_handle_task_claim sender payload) s =
  if AgentState_eqb (state s) LEADER then
    if claim_accepted (task_claims s !! task_id) u then
      (Ret tt, claim_awarded task_id sender u s)
    else
      match task_claims s !! task_id with
      | Some c => if winner c =? sender then (Ret tt, s)
                  else (Ret tt, claim_reaffirmed task_id (winner c) s)
      | None => (Ret tt, s)
      end
  else (Ret tt, s).
Proof.
  intros Hp Hh Hs Hw. pose proof (struct_unpack_If_range _ _ _ Hp) as Ht.
  unfold _handle_task_claim. mstep. rewrite Hp. cbn.
  destruct (AgentState_eqb _ _); [|reflexivity].
  destruct (task_claims s !! task_id) as [c|] eqn:Ec; cbn.
  - destruct (_ >? _)%float; cbn.
    + rewrite struct_pack_IB_ok by assumption. rewrite _send_msg_ok by exact Hh. reflexivity.
    + destruct (winner c =? sender); cbn; [reflexivity|].
      rewrite struct_pack_IB_ok by auto. rewrite _send_msg_ok by exact Hh. reflexivity.
  - rewrite struct_pack_IB_ok by assumption. rewrite _send_msg_ok by exact Hh. reflexivity.
Qed.

(** C4. For an inbound TASK_CLAIM(task_id, u) from [sender]: a LEADER
    replaces the entry for task_id by (sender, u) and broadcasts
    TASK_CONFLICT(task_id, sender) if and only if there was no entry or u is
    strictly greater than the incumbent utility plus 5.0 (at exactly +5.0
    the entry stays); when the entry stays and the incumbent winner is
    another node, TASK_CONFLICT naming the incumbent is rebroadcast;
    otherwise nothing happens.  Outside LEADER the table is unchanged and
    nothing is sent.  Identities in the header, the sender and the recorded
    winner fit a byte. *)
Theorem leader_arbitration (s : SwarmAgent) (sender : Z) (payload : bytes)
    (task_id : Z) (u : float) :
  struct_unpack_If payload = Ret (task_id, u) ->
  header_ok s -> 0 <= sender < 256 ->
  (forall c, task_claims s !! task_id = Some c -> 0 <= winner c < 256) ->
  let r := run (_handle_task_claim sender payload) s in
  let cur := task_claims s !! task_id in
  (state s = LEADER ->
     (claim_accepted cur u = true -> r = (Ret tt, claim_awarded task_id sender u s))
     /\ (claim_accepted cur u = false ->
         fst r = Ret tt /\ task_claims (snd r) = task_claims s
         /\ forall c, cur = Some c ->
              (winner c <> sender -> r = (Ret tt, claim_reaffirmed task_id (winner c) s))
              /\ (winner c = sender -> r = (Ret tt, s)))
     /\ (task_claims (snd r) = <[task_id := mkClaim sender u]> (task_claims s)
          /\ sent (snd r) = sent s ++ [conflict_frame s task_id sender]
         <-> claim_accepted cur u = true)
     /\ (forall c, cur = Some c -> u = (utility c + 5.0)%float ->
         claim_accepted cur u = false))
  /\ (state s <> LEADER -> r = (Ret tt, s)).
Proof.
  intros Hp Hh Hs Hw r cur. subst r cur.
  rewrite (task_claim_result _ _ _ _ _ Hp Hh Hs Hw). split.
  - intros ->. cbn [AgentState_eqb].
    destruct (task_claims s !! task_id) as [c|] eqn:Ec; cbn [claim_accepted].
    2:{ split; [reflexivity|]. split; [discriminate|]. split; [|intros; discriminate].
        split; [reflexivity|]. intros _. split; reflexivity. }
    specialize (Hw c eq_refl).
    destruct (u >? utility c + 5)%float eqn:A.
    + split; [reflexivity|]. split; [discriminate|]. split.
      * split; [reflexivity|]. intros _. split; reflexivity.
      * intros c' [= <-] ->. now rewrite gtb_irrefl in A.
    + split; [discriminate|]. split; [|split].
      * intros _. destruct (Z.eqb_spec (winner c) sender) as [E|E];
          (split; [reflexivity|]); (split; [reflexivity|]);
          intros c' [= <-]; split; intros; (reflexivity || contradiction).
      * split; [|discriminate]. intros [_ S]. exfalso.
        destruct (Z.eqb_spec (winner c) sender) as [E|E]; cbn in S.
        -- apply (f_equal (@length bytes)) in S. rewrite length_app in S. cbn in S. lia.
        -- apply app_inv_head in S. apply (f_equal (hd [])) in S. cbn [hd] in S.
           apply conflict_frame_inj in S; auto.
      * reflexivity.
  - intros Hl. destruct (state s); try reflexivity. contradiction.
Qed.

Lemma leader_arbitration_witness :
  struct_unpack_If claim_101_60 = Ret (101, 60%float)
  /\ header_ok sample_arbiter
  /\ run (_handle_task_claim 3 claim_101_60) sample_arbiter
     = (Ret tt, claim_awarded 101 3 60 sample_arbiter).
Proof.
  assert (Hp : struct_unpack_If claim_101_60 = Ret (101, 60%float)) by reflexivity.
  assert (Hh : header_ok sample_arbiter) by (unfold header_ok; cbn; lia).
  assert (Hs : 0 <= 3 < 256) by lia.
  assert (Hw : forall c, task_claims sample_arbiter !! 101 = Some c -> 0 <= winner c < 256).
  { intros c H. vm_compute in H. injection H as <-. cbn. lia. }
  refine (conj Hp (conj Hh _)).
  exact (proj1 (proj1 (leader_arbitration sample_arbiter 3 claim_101_60 101 60 Hp Hh Hs Hw)
                  eq_refl) eq_refl).
Defined.

(** ** Suppression of a lower acclamation *)

Lemma struct_pack_ff_ok x y :
  f32_bits x <> None -> f32_bits y <> None ->
  struct_pack_ff x y = Ret (f32_be x ++ f32_be y).
Proof.
  intros Hx Hy. unfold struct_pack_ff, pack_f, f32_be.
  destruct (f32_bits x); [|contradiction]. destruct (f32_bits y); [|contradiction].
  reflexivity.
Qed.

(** The ELECTION_ACCLAIM handler on a LEADER that hears a strictly lower
    id: the node stays LEADER, and the HEARTBEAT it sends to suppress the
    sender, with (position.x, position.y) as two big-endian 32-bit floats,
    only goes out on the ticks that are multiples of 10; on any other tick
    the tick gate of _send_heartbeat drops it and nothing is sent.  Both
    coordinates are numbers within binary32 range and the identity and tick
    fit the header. *)
Lemma acclaim_from_lower_id (s : SwarmAgent) (now : float) (sender : Z) :
  state s = LEADER -> sender < agent_id s -> header_ok s ->
  packs_as_f32 (fst (position s)) -> packs_as_f32 (snd (position s)) ->
  let r := run (_handle_election_acclaim now sender) s in
  let payload := f32_be (fst (position s)) ++ f32_be (snd (position s)) in
  state (snd r) = LEADER
  /\ (tick s mod 10 = 0 ->
      r = (Ret tt, with_sent (sent s ++ [frame HEARTBEAT (agent_id s) (tick s) payload]) s))
  /\ (tick s mod 10 <> 0 -> r = (Ret tt, s)).
Proof.
  intros Es Hlt Hh [_ Hx] [_ Hy] r payload. subst r payload.
  unfold _handle_election_acclaim. mstep.
  destruct (Z.gtb_spec sender (agent_id s)); [lia|].
  destruct (Z.ltb_spec sender (agent_id s)); [|lia].
  rewrite Es. cbn. rewrite (_send_heartbeat_ok _ _ (struct_pack_ff_ok _ _ Hx Hy)).
  unfold when, pass, ret.
  destruct (Z.eqb_spec (tick s mod 10) 0) as [E|E].
  - rewrite _send_msg_ok by exact Hh. cbn. repeat split; [exact Es|contradiction].
  - cbn. repeat split; [exact Es|contradiction].
Qed.

(** C5 at a failing input.  Leader 2, one tick into its loop, receives an
    ELECTION_ACCLAIM from node 1.  It stays LEADER, but nothing is handed
    over: the HEARTBEAT the handler sends to suppress the lower node is
    dropped by the tick gate of _send_heartbeat. *)
Theorem lower_acclaim_goes_unanswered :
  let s := next_tick sample_leader in
  let r := run (_handle_election_acclaim 1005 1) s in
  state s = LEADER /\ agent_id s = 2 /\ tick s = 1 /\ sent s = []
  /\ fst r = Ret tt
  /\ state (snd r) = LEADER
  /\ sent (snd r) = []
  /\ snd r = s.
Proof. vm_compute. repeat split. Qed.

(** The suppression of the claim, a HEARTBEAT with the packed position
    whatever the tick, does not hold at that input. *)
Lemma no_heartbeat_off_the_tenth_tick :
  ~ suppresses_with_heartbeat 1005 1 (next_tick sample_leader).
Proof.
  unfold suppresses_with_heartbeat. intros H.
  destruct (H eq_refl ltac:(cbn; lia)) as (_ & payload & _ & S).
  vm_compute in S. discriminate S.
Qed.

(** ** Inbound frames *)

Lemma on_message_received_short now data s :
  (length data < 6)%nat -> run (on_message_received now data) s = (Ret tt, s).
Proof.
  intros H. unfold on_message_received, run.
  destruct (Z.ltb_spec (Z.of_nat (length data)) 6); [reflexivity|lia].
Qed.

Lemma on_message_received_dispatch now t sd k3 k2 k1 k0 payload s :
  run (on_message_received now (t :: sd :: k3 :: k2 :: k1 :: k0 :: payload)) s =
  let sender := Z_of_byte sd in
  if Z_of_byte t =? 1 then run (_handle_heartbeat now sender payload) s
  else if Z_of_byte t =? 2 then run (_handle_election_acclaim now sender) s
  else if Z_of_byte t =? 3 then run (_handle_coordinator now sender) s
  else if Z_of_byte t =? 4 then run (_handle_task_claim sender payload) s
  else if Z_of_byte t =? 5 then run (_handle_task_conflict sender payload) s
  else (Ret tt, s).
Proof.
  unfold on_message_received, run.
  destruct (Z.ltb_spec (Z.of_nat (length (t :: sd :: k3 :: k2 :: k1 :: k0 :: payload))) 6)
    as [H|H]; [cbn [length] in H; lia|].
  unfold bind, lift.
  cbn -[_handle_heartbeat _handle_election_acclaim _handle_coordinator
        _handle_task_claim _handle_task_conflict Z.eqb Z_of_byte unpack_I].
  rewrite firstn_O, skipn_O. cbn [fst snd].
  repeat (destruct (Z_of_byte t =? _); [reflexivity|]). reflexivity.
Qed.

Lemma heartbeat_no_position now sender payload s :
  length payload <> 8%nat ->
  ~ (state s = LEADER /\ sender < agent_id s) ->
  run (_handle_heartbeat now sender payload) s =
  (Ret tt,
   with_state (match state s with
               | LEADER => if sender >? agent_id s then FOLLOWER else LEADER
               | _ => FOLLOWER
               end)
     (with_last_heartbeat_time now (with_leader_id (Some sender) s))).
Proof.
  intros Hl Hn. unfold _handle_heartbeat. mstep.
  destruct (Z.eqb_spec (Z.of_nat (length payload)) 8) as [E|_]; [lia|].
  destruct (state s) eqn:Es; cbn [AgentState_eqb andb].
  - cbn. rewrite Es. cbn. destruct s; cbn in *; subst; reflexivity.
  - cbn. rewrite Es. cbn. reflexivity.
  - destruct (Z.ltb_spec sender (agent_id s)); [exfalso; apply Hn; now split|].
    destruct (sender >? agent_id s); cbn; [reflexivity|].
    rewrite Es. cbn. destruct s; cbn in *; subst; reflexivity.
Qed.

(** C10. A HEARTBEAT frame of at least 6 bytes whose payload is not exactly
    8 bytes long, received by a node that does not take the Leader
    suppression branch: leader_id becomes the sender, last_heartbeat becomes
    now, a node in ELECTION_WAIT drops back to FOLLOWER, and leader_pos keeps
    its previous value; nothing is raised and nothing is sent. *)
Theorem heartbeat_without_position (s : SwarmAgent) (now : float)
    (t sd k3 k2 k1 k0 : byte) (payload : bytes) :
  Z_of_byte t = MsgType_value HEARTBEAT ->
  length payload <> 8%nat ->
  ~ (state s = LEADER /\ Z_of_byte sd < agent_id s) ->
  let r := run (on_message_received now (t :: sd :: k3 :: k2 :: k1 :: k0 :: payload)) s in
  fst r = Ret tt
  /\ leader_id (snd r) = Some (Z_of_byte sd)
  /\ last_heartbeat_time (snd r) = now
  /\ leader_pos (snd r) = leader_pos s
  /\ (state s = ELECTION_WAIT -> state (snd r) = FOLLOWER)
  /\ (state s = FOLLOWER -> state (snd r) = FOLLOWER)
  /\ sent (snd r) = sent s.
Proof.
  intros Ht Hl Hn r. subst r.
  rewrite on_message_received_dispatch. cbn zeta. rewrite Ht. cbn [MsgType_value Z.eqb Pos.eqb].
  rewrite (heartbeat_no_position _ _ _ _ Hl Hn). cbn.
  repeat split; intros ->; reflexivity.
Qed.

Lemma heartbeat_without_position_witness :
  Z_of_byte x01 = MsgType_value HEARTBEAT
  /\ length (@nil byte) <> 8%nat
  /\ ~ (state sample_waiting = LEADER /\ Z_of_byte x02 < agent_id sample_waiting)
  /\ (state sample_waiting = ELECTION_WAIT ->
      state (snd (run (on_message_received 1006 bare_heartbeat) sample_waiting)) = FOLLOWER).
Proof.
  assert (Hl : length (@nil byte) <> 8%nat) by discriminate.
  assert (Hn : ~ (state sample_waiting = LEADER /\ Z_of_byte x02 < agent_id sample_waiting))
    by (intros [H _]; discriminate H).
  refine (conj eq_refl (conj Hl (conj Hn _))).
  exact (proj1 (proj2 (proj2 (proj2 (proj2
           (heartbeat_without_position sample_waiting 1006 x01 x02 x00 x00 x00 x07 []
              eq_refl Hl Hn)))))).
Defined.

Lemma heartbeat_payload_ignored now sender payload s :
  length payload <> 8%nat ->
  run (_handle_heartbeat now sender payload) s = run (_handle_heartbeat now sender []) s.
Proof.
  intros Hl. unfold _handle_heartbeat, run, bind, when.
  destruct (Z.eqb_spec (Z.of_nat (length payload)) 8) as [E|_]; [lia|]. reflexivity.
Qed.

Lemma task_claim_bad_payload_raises sender payload s :
  length payload <> 8%nat ->
  run (_handle_task_claim sender payload) s = (Raise StructError, s).
Proof.
  intros Hl. unfold _handle_task_claim, run, bind, lift, struct_unpack_If.
  do 9 (destruct payload as [|? payload]; try reflexivity). contradiction.
Qed.

Lemma task_conflict_bad_payload_raises sender payload s :
  length payload <> 5%nat ->
  run (_handle_task_conflict sender payload) s = (Raise StructError, s).
Proof.
  intros Hl. unfold _handle_task_conflict, run, bind, lift, struct_unpack_IB.
  do 6 (destruct payload as [|? payload]; try reflexivity). contradiction.
Qed.

(** C6, as the code has it.  A frame shorter than 6 bytes and a frame with
    an unknown type code are silently dropped: the state is unchanged,
    nothing is sent and nothing is raised.  A frame of an election type is
    not dropped when its payload has the wrong length: ELECTION_ACCLAIM and
    COORDINATOR are handled the same whatever the payload, and a HEARTBEAT
    whose payload is not 8 bytes long is handled as a HEARTBEAT without
    payload. *)
Theorem malformed_frame_handling (s : SwarmAgent) (now : float) :
  (forall data, (length data < 6)%nat -> silently_dropped now data s)
  /\ (forall t sd k3 k2 k1 k0 payload,
        payload_size (Z_of_byte t) = None ->
        silently_dropped now (t :: sd :: k3 :: k2 :: k1 :: k0 :: payload) s)
  /\ (forall t sd k3 k2 k1 k0 payload payload',
        Z_of_byte t = MsgType_value ELECTION_ACCLAIM
        \/ Z_of_byte t = MsgType_value COORDINATOR ->
        run (on_message_received now (t :: sd :: k3 :: k2 :: k1 :: k0 :: payload)) s
        = run (on_message_received now (t :: sd :: k3 :: k2 :: k1 :: k0 :: payload')) s)
  /\ (forall t sd k3 k2 k1 k0 payload,
        Z_of_byte t = MsgType_value HEARTBEAT -> length payload <> 8%nat ->
        run (on_message_received now (t :: sd :: k3 :: k2 :: k1 :: k0 :: payload)) s
        = run (on_message_received now [t; sd; k3; k2; k1; k0]) s).
Proof.
  split; [|split; [|split]].
  - intros data H. apply on_message_received_short, H.
  - intros t sd k3 k2 k1 k0 payload H. unfold silently_dropped.
    rewrite on_message_received_dispatch. cbn zeta.
    unfold payload_size in H.
    repeat (destruct (Z_of_byte t =? _); [discriminate H|]). reflexivity.
  - intros t sd k3 k2 k1 k0 payload payload' [H|H];
      rewrite !on_message_received_dispatch; cbn zeta; rewrite H; reflexivity.
  - intros t sd k3 k2 k1 k0 payload H Hl.
    rewrite !on_message_received_dispatch. cbn zeta. rewrite H.
    cbn [MsgType_value Z.eqb Pos.eqb]. apply heartbeat_payload_ignored, Hl.
Qed.

Lemma malformed_frame_handling_witness :
  (length [x01; x02] < 6)%nat
  /\ silently_dropped 1006 [x01; x02] sample_follower.
Proof.
  assert (H : (length [x01; x02] < 6)%nat) by (cbn; lia).
  exact (conj H (proj1 (malformed_frame_handling sample_follower 1006) [x01; x02] H)).
Defined.

(** C6, as stated, fails: a HEARTBEAT whose payload is missing is malformed,
    yet it is handled and changes the state (leader_id, last_heartbeat). *)
Lemma heartbeat_without_payload_is_handled :
  ~ malformed_frame_dropped 1006 bare_heartbeat sample_follower.
Proof.
  unfold malformed_frame_dropped, silently_dropped. intros H.
  specialize (H eq_refl).
  apply (f_equal (fun r => leader_id (snd r))) in H.
  vm_compute in H. discriminate H.
Qed.

(** ** Signs of binary64 results *)

Section Signs.
Variables prec emax : Z.

Lemma binary_round_aux_nonneg m e l :
  sf_nonneg (binary_round_aux prec emax false m e l) = true.
Proof.
  unfold binary_round_aux.
  destruct (shr_fexp prec emax m e l) as [mrs' e'].
  destruct (shr_fexp prec emax _ e' loc_Exact) as [mrs'' e''].
  destruct (shr_m mrs''); try reflexivity.
  destruct (_ <=? _); reflexivity.
Qed.

Lemma binary_round_nonneg m e :
  sf_nonneg (binary_round prec emax false m e) = true.
Proof.
  unfold binary_round. destruct (shl_align _ _ _). apply binary_round_aux_nonneg.
Qed.

Lemma SFmul_nonneg x y :
  sf_nonneg x = true -> sf_nonneg y = true -> sf_nonneg (SFmul prec emax x y) = true.
Proof.
  destruct x as [[]|[]| |[] mx ex], y as [[]|[]| |[] my ey]; cbn; try congruence;
    intros _ _; apply binary_round_aux_nonneg.
Qed.

Lemma SFmul_square_nonneg x : sf_nonneg (SFmul prec emax x x) = true.
Proof.
  destruct x as [[]|[]| |[] mx ex]; cbn; try reflexivity;
    apply binary_round_aux_nonneg.
Qed.

Lemma SFadd_nonneg x y :
  sf_nonneg x = true -> sf_nonneg y = true -> sf_nonneg (SFadd prec emax x y) = true.
Proof.
  destruct x as [[]|[]| |[] mx ex], y as [[]|[]| |[] my ey]; cbn; try congruence.
  intros _ _. apply binary_round_nonneg.
Qed.

Lemma SFsqrt_nonneg x : sf_nonneg x = true -> sf_nonneg (SFsqrt prec emax x) = true.
Proof.
  destruct x as [[]|[]| |[] mx ex]; cbn; try congruence.
  intros _. destruct (SFsqrt_core_binary _ _ _ _) as [[mz ez] lz].
  apply binary_round_aux_nonneg.
Qed.

Lemma SFdiv_nonneg x y :
  sf_nonneg x = true -> sf_nonneg y = true -> sf_nonneg (SFdiv prec emax x y) = true.
Proof.
  destruct x as [[]|[]| |[] mx ex], y as [[]|[]| |[] my ey]; cbn; try congruence.
  intros _ _. destruct (SFdiv_core_binary _ _ _ _ _ _) as [[mz ez] lz].
  apply binary_round_aux_nonneg.
Qed.

Lemma sf_nonneg_not_below_zero x : sf_nonneg x = true -> sf_not_below_zero x = true.
Proof. destruct x as [[]|[]| |[] m e]; cbn; congruence. Qed.

(** a square root is never below zero, whatever its operand *)
Lemma SFsqrt_not_below_zero x : sf_not_below_zero (SFsqrt prec emax x) = true.
Proof.
  destruct x as [[]|[]| |[] mx ex]; cbn [SFsqrt]; try reflexivity.
  destruct (SFsqrt_core_binary _ _ _ _) as [[mz ez] lz].
  apply sf_nonneg_not_below_zero, binary_round_aux_nonneg.
Qed.

Lemma SFadd_pos_not_below_zero m e y :
  sf_not_below_zero y = true ->
  sf_nonneg (SFadd prec emax (S754_finite false m e) y) = true.
Proof.
  destruct y as [[]|[]| |[] my ey]; cbn [sf_not_below_zero sf_nonneg negb SFadd];
    try congruence; try reflexivity.
  intros _. apply binary_round_nonneg.
Qed.
End Signs.

Lemma mul_nonneg x y : nonneg x -> nonneg y -> nonneg (x * y).
Proof. unfold nonneg. rewrite mul_spec. apply SFmul_nonneg. Qed.

Lemma square_nonneg x : nonneg (x * x).
Proof. unfold nonneg. rewrite mul_spec. apply SFmul_square_nonneg. Qed.

Lemma add_nonneg x y : nonneg x -> nonneg y -> nonneg (x + y).
Proof. unfold nonneg. rewrite add_spec. apply SFadd_nonneg. Qed.

Lemma sqrt_nonneg x : nonneg x -> nonneg (sqrt x).
Proof. unfold nonneg. rewrite sqrt_spec. apply SFsqrt_nonneg. Qed.

Lemma sqrt_not_below_zero x : sf_not_below_zero (Prim2SF (sqrt x)) = true.
Proof. rewrite sqrt_spec. apply SFsqrt_not_below_zero. Qed.

Lemma one_plus_nonneg d : sf_not_below_zero (Prim2SF d) = true -> nonneg (1 + d).
Proof.
  unfold nonneg. rewrite add_spec.
  change (Prim2SF 1) with (S754_finite false 4503599627370496 (-52)).
  apply SFadd_pos_not_below_zero.
Qed.

(** what [math.sqrt] returns, when it returns, is the square root *)
Lemma math_sqrt_value x d : math_sqrt x = Ret d -> d = sqrt x.
Proof. unfold math_sqrt. destruct (_ && _); [discriminate|]. now intros [= <-]. Qed.

Lemma div_nonneg x y : nonneg x -> nonneg y -> nonneg (x / y).
Proof. unfold nonneg. rewrite div_spec. apply SFdiv_nonneg. Qed.

Lemma nonneg_not_negative x : nonneg x -> (x <? 0)%float = false.
Proof.
  unfold nonneg. rewrite ltb_spec. change (Prim2SF 0) with (S754_zero false).
  destruct (Prim2SF x) as [[]|[]| |[] m e]; cbn; congruence.
Qed.

Lemma is_nan_spec x : is_nan x = match Prim2SF x with S754_nan => true | _ => false end.
Proof.
  unfold is_nan. rewrite FloatAxioms.eqb_spec. unfold SFeqb.
  destruct (Prim2SF x) as [s|s| |s m e]; cbn; try reflexivity.
  - destruct s; reflexivity.
  - destruct s; rewrite Z.compare_refl, Pos.compare_cont_refl; reflexivity.
Qed.

Lemma nonneg_number_ge_0 x : nonneg x -> is_nan x = false -> (x >=? 0)%float = true.
Proof.
  unfold nonneg. rewrite is_nan_spec, leb_spec. change (Prim2SF 0) with (S754_zero false).
  destruct (Prim2SF x) as [[]|[]| |[] m e]; cbn; congruence.
Qed.

(** a product with zero is zero, unless it is NaN *)
Lemma mul_zero_r x : is_nan (x * 0) = false -> (x * 0 =? 0)%float = true.
Proof.
  rewrite is_nan_spec, FloatAxioms.eqb_spec, mul_spec.
  change (Prim2SF 0) with (S754_zero false).
  destruct (Prim2SF x) as [s|s| |s m e]; cbn; try congruence; destruct s; reflexivity.
Qed.

(** ** Rounding never loses a mantissa above the underflow threshold *)

Lemma digits2_pos_bounds p :
  2 ^ (Z.pos (digits2_pos p) - 1) <= Z.pos p < 2 ^ Z.pos (digits2_pos p).
Proof.
  induction p as [p IH|p IH|]; cbn [digits2_pos].
  - rewrite Pos2Z.inj_succ. replace (Z.succ (Z.pos (digits2_pos p)) - 1)
      with (Z.succ (Z.pos (digits2_pos p) - 1)) by lia.
    rewrite !Z.pow_succ_r by lia. lia.
  - rewrite Pos2Z.inj_succ. replace (Z.succ (Z.pos (digits2_pos p)) - 1)
      with (Z.succ (Z.pos (digits2_pos p) - 1)) by lia.
    rewrite !Z.pow_succ_r by lia. lia.
  - cbn. lia.
Qed.

Lemma shr_1_m mrs :
  0 <= shr_m mrs -> shr_m (shr_1 mrs) = Z.shiftr (shr_m mrs) 1.
Proof.
  destruct mrs as [m r s]. cbn [shr_m shr_1]. intros H.
  rewrite Z.shiftr_div_pow2 by lia. change (2 ^ 1) with 2.
  destruct m as [|[p|p|]|p]; cbn [shr_m]; try lia; try reflexivity.
  - apply Z.div_unique with (r := 1); lia.
  - apply Z.div_unique with (r := 0); lia.
Qed.

Lemma iter_shr_1_m n : forall mrs,
  0 <= shr_m mrs ->
  shr_m (SpecFloat.iter_pos shr_1 n mrs) = Z.shiftr (shr_m mrs) (Z.pos n).
Proof.
  induction n as [n IH|n IH|]; intros mrs H; cbn [SpecFloat.iter_pos].
  - assert (0 <= shr_m (shr_1 mrs))
      by (rewrite shr_1_m by assumption; apply Z.shiftr_nonneg; assumption).
    assert (0 <= shr_m (SpecFloat.iter_pos shr_1 n (shr_1 mrs)))
      by (rewrite IH by assumption; apply Z.shiftr_nonneg; assumption).
    rewrite !IH, shr_1_m by assumption.
    rewrite !Z.shiftr_shiftr by lia. f_equal. lia.
  - assert (0 <= shr_m (SpecFloat.iter_pos shr_1 n mrs))
      by (rewrite IH by assumption; apply Z.shiftr_nonneg; assumption).
    rewrite !IH by assumption.
    rewrite !Z.shiftr_shiftr by lia. f_equal. lia.
  - apply shr_1_m, H.
Qed.

Section RoundNonzero.
Variables prec emax : Z.
Hypothesis prec_pos : 0 < prec.

(** shifting a positive mantissa to its format exponent keeps it positive
    when the exponent is not below [emin] *)
Lemma shr_fexp_pos m e l :
  0 < m -> SpecFloat.emin prec emax <= e ->
  0 < shr_m (fst (shr_fexp prec emax m e l))
  /\ SpecFloat.emin prec emax <= snd (shr_fexp prec emax m e l).
Proof.
  intros Hm He. unfold shr_fexp, shr.
  assert (Hr : shr_m (shr_record_of_loc m l) = m) by (destruct l as [|[]]; reflexivity).
  destruct (fexp prec emax (Zdigits2 m + e) - e) as [|n|n] eqn:En; cbn [fst snd];
    rewrite ?Hr; try (split; assumption).
  destruct m as [|p|p]; try lia. cbn [Zdigits2] in En.
  unfold fexp in En.
  pose proof (digits2_pos_bounds p) as [Hlo Hhi].
  rewrite iter_shr_1_m by (rewrite Hr; lia). rewrite Hr.
  split; [|lia].
  rewrite Z.shiftr_div_pow2 by lia.
  apply Z.div_str_pos. split; [apply Z.pow_pos_nonneg; lia|].
  apply Z.le_trans with (2 ^ (Z.pos (digits2_pos p) - 1)); [|exact Hlo].
  apply Z.pow_le_mono_r; lia.
Qed.

Lemma binary_round_aux_nonzero s m e l :
  0 < m -> SpecFloat.emin prec emax <= e ->
  forall s', binary_round_aux prec emax s m e l <> S754_zero s'.
Proof.
  intros Hm He s'. unfold binary_round_aux.
  pose proof (shr_fexp_pos m e l Hm He) as [H1 H2].
  destruct (shr_fexp prec emax m e l) as [mrs' e']. cbn [fst snd] in H1, H2.
  assert (Hr : 0 < round_nearest_even (shr_m mrs') (loc_of_shr_record mrs')).
  { unfold round_nearest_even. destruct (loc_of_shr_record mrs') as [|[]]; try lia.
    destruct (Z.even _); lia. }
  pose proof (shr_fexp_pos _ e' loc_Exact Hr H2) as [H3 _].
  destruct (shr_fexp prec emax _ e' loc_Exact) as [mrs'' e'']. cbn [fst] in H3.
  destruct (shr_m mrs''); try lia.
  destruct (_ <=? _); discriminate.
Qed.
End RoundNonzero.

(** 100 / z does not underflow: z is at most the largest binary64 value *)
Lemma SFdiv_100_nonzero s2 m2 e2 :
  bounded prec emax m2 e2 = true ->
  forall s', SFdiv prec emax (Prim2SF 100) (S754_finite s2 m2 e2) <> S754_zero s'.
Proof.
  intros Hb s'. change (Prim2SF 100) with (S754_finite false 7036874417766400 (-46)).
  cbn [SFdiv]. unfold SFdiv_core_binary.
  change (Zdigits2 (Z.pos 7036874417766400)) with 53. cbn [Zdigits2].
  unfold bounded, canonical_mantissa in Hb. apply andb_prop in Hb as [Hc He].
  apply Z.eqb_eq in Hc. apply Z.leb_le in He.
  unfold fexp, SpecFloat.emin in *. cbv [prec emax] in *.
  pose proof (digits2_pos_bounds m2) as [Hlo Hhi].
  set (d2 := Z.pos (digits2_pos m2)) in *.
  assert (Hd : 1 <= d2 <= 53) by lia.
  replace (Z.min (Z.max (53 + -46 - (d2 + e2) - 53) (3 - 1024 - 53)) (-46 - e2))
    with (-46 - d2 - e2) by lia.
  replace (-46 - e2 - (-46 - d2 - e2)) with d2 by lia.
  unfold d2 at 1. cbv beta iota.
  destruct (Z.div_eucl _ _) as [q r] eqn:Eq.
  apply binary_round_aux_nonzero; [lia| |unfold SpecFloat.emin; lia].
  assert (Hq : q = Z.shiftl 7036874417766400 d2 / Z.pos m2)
    by (unfold Z.div; fold d2 in Eq; rewrite Eq; reflexivity).
  rewrite Hq, Z.shiftl_mul_pow2 by lia.
  apply Z.lt_le_trans with 1; [lia|].
  apply Z.div_le_lower_bound; [lia|]. nia.
Qed.

(** multiplying by 1.0 is exact *)
Lemma SFmul_one_r x :
  valid_binary x = true -> SFmul prec emax x (Prim2SF 1) = x.
Proof.
  change (Prim2SF 1) with (S754_finite false 4503599627370496 (-52)).
  destruct x as [s|s| |s m e]; cbn [SFmul SpecFloat.valid_binary]; intros Hb;
    rewrite ?xorb_false_r; try reflexivity.
  unfold bounded, canonical_mantissa in Hb. apply andb_prop in Hb as [Hc He].
  apply Z.eqb_eq in Hc.
  rewrite Pos.mul_comm. cbv [Pos.mul].
  unfold binary_round_aux, shr_fexp. cbn [Zdigits2 digits2_pos].
  rewrite !Pos2Z.inj_succ.
  match goal with
  | |- context [fexp prec emax (?d + (e + -52))] =>
      replace (d + (e + -52)) with (Z.pos (digits2_pos m) + e) by lia
  end.
  rewrite Hc. replace (e - (e + -52)) with 52 by lia.
  cbn [shr shr_record_of_loc SpecFloat.iter_pos shr_1 shr_m loc_of_shr_record
       round_nearest_even orb].
  replace (e + -52 + 52) with e by lia. cbn [Zdigits2]. rewrite Hc, Z.sub_diag.
  cbn [shr shr_record_of_loc shr_m]. rewrite He. reflexivity.
Qed.

Lemma mul_one_r (x : float) : (x * 1)%float = x.
Proof.
  apply Prim2SF_inj. rewrite mul_spec. apply SFmul_one_r, Prim2SF_valid.
Qed.

Lemma eqb_zero_spec x :
  (x =? 0)%float = match Prim2SF x with S754_zero _ => true | _ => false end.
Proof.
  rewrite FloatAxioms.eqb_spec. change (Prim2SF 0) with (S754_zero false).
  destruct (Prim2SF x) as [s|s| |s m e]; try reflexivity; destruct s; reflexivity.
Qed.

Lemma is_finite_spec x :
  is_finite x = true ->
  exists s, Prim2SF x = S754_zero s \/ exists m e, Prim2SF x = S754_finite s m e.
Proof.
  unfold is_finite, is_infinity. rewrite is_nan_spec, FloatAxioms.eqb_spec, abs_spec.
  change (Prim2SF infinity) with (S754_infinity false).
  destruct (Prim2SF x) as [s|s| |s m e]; cbn; try discriminate; intros _; exists s.
  - now left.
  - right. now exists m, e.
Qed.

Lemma div_100_nonzero (z : float) :
  is_finite z = true -> (z =? 0)%float = false -> (100 / z =? 0)%float = false.
Proof.
  intros Hf Hz. rewrite eqb_zero_spec in *. rewrite div_spec.
  pose proof (Prim2SF_valid z) as Hv.
  destruct (is_finite_spec z Hf) as (s & [E|(m & e & E)]); rewrite E in *; [discriminate|].
  cbn [SpecFloat.valid_binary] in Hv.
  pose proof (SFdiv_100_nonzero s m e Hv) as N.
  unfold SF64div. destruct (SFdiv prec emax (Prim2SF 100) (S754_finite s m e)); try reflexivity.
  now specialize (N s0).
Qed.

(** ** Utility *)

Lemma _calculate_utility_reads t s :
  run (_calculate_utility t) s = (utility_of (position s) (capabilities s) t, s).
Proof.
  unfold _calculate_utility, utility_of, run, bind, get, lift, ret.
  destruct (py_pow2 _); cbn [obind]; [|reflexivity].
  destruct (py_pow2 _); cbn [obind]; [|reflexivity].
  destruct (math_sqrt _); cbn [obind]; [|reflexivity].
  destruct (py_div _ _); cbn [obind]; [|reflexivity].
  unfold capability_match, capability_missing.
  destruct (required_cap t); reflexivity.
Qed.

(** a returned utility is 100 / (1 + d) times the capability factor, for the
    distance [d] the node computed; [d] is a square root, so never below
    zero, and 1 + d is not zero *)
Lemma utility_of_value p caps t u :
  utility_of p caps t = Ret u ->
  exists d, distance_to p (pos t) = Ret d
    /\ u = (100 / (1 + d) * capability_match caps t)%float
    /\ (1 + d =? 0)%float = false
    /\ sf_not_below_zero (Prim2SF d) = true.
Proof.
  unfold utility_of, distance_to, norm2.
  destruct (py_pow2 _) as [a|]; cbn [obind]; [|discriminate].
  destruct (py_pow2 _) as [b|]; cbn [obind]; [|discriminate].
  destruct (math_sqrt _) as [d|] eqn:Ed; cbn [obind]; [|discriminate].
  unfold py_div. destruct (_ =? _)%float eqn:E; [discriminate|].
  intros [= <-]. exists d. split; [reflexivity|]. split; [reflexivity|].
  split; [exact E|]. rewrite (math_sqrt_value _ _ Ed). apply sqrt_not_below_zero.
Qed.

Lemma utility_of_nonneg p caps t u : utility_of p caps t = Ret u -> nonneg u.
Proof.
  intros H. destruct (utility_of_value _ _ _ _ H) as (d & _ & -> & _ & Hd).
  apply mul_nonneg.
  - apply div_nonneg; [reflexivity|]. apply one_plus_nonneg, Hd.
  - unfold capability_match. destruct (capability_missing _ _); reflexivity.
Qed.

(** ** Range of a utility

    A utility is 100 divided by a value that is at least 1, so it never
    exceeds 100: it always fits the binary32 field of a TASK_CLAIM. *)

Lemma Zdigits2_nonneg x : 0 <= Zdigits2 x.
Proof. destruct x; cbn; lia. Qed.

Lemma Zdigits2_upper x : 0 <= x -> x < 2 ^ Zdigits2 x.
Proof.
  destruct x as [|p|p]; cbn [Zdigits2]; intros H; try lia.
  apply digits2_pos_bounds.
Qed.

Lemma Zdigits2_le x k : 0 <= x < 2 ^ k -> 0 <= k -> Zdigits2 x <= k.
Proof.
  destruct x as [|p|p]; cbn [Zdigits2]; intros H Hk; try lia.
  pose proof (digits2_pos_bounds p) as [Hlo _].
  destruct (Z.le_gt_cases (Z.pos (digits2_pos p)) k) as [|G]; [assumption|exfalso].
  assert (2 ^ k <= 2 ^ (Z.pos (digits2_pos p) - 1)) by (apply Z.pow_le_mono_r; lia).
  lia.
Qed.

Lemma Zdigits2_succ x : 0 <= x -> Zdigits2 (x + 1) <= Zdigits2 x + 1.
Proof.
  intros H. pose proof (Zdigits2_upper x H). pose proof (Zdigits2_nonneg x).
  apply Zdigits2_le; [|lia]. rewrite Z.pow_add_r by lia. lia.
Qed.

Lemma Zdigits2_shiftr x n :
  0 <= x -> 0 < n -> Zdigits2 (Z.shiftr x n) <= Z.max (Zdigits2 x - n) 0.
Proof.
  intros H Hn. pose proof (Zdigits2_upper x H) as U. pose proof (Zdigits2_nonneg x).
  rewrite Z.shiftr_div_pow2 by lia.
  assert (P : 0 < 2 ^ n) by (apply Z.pow_pos_nonneg; lia).
  apply Zdigits2_le; [|lia]. split; [apply Z.div_pos; lia|].
  apply Z.div_lt_upper_bound; [lia|].
  destruct (Z.le_gt_cases n (Zdigits2 x)).
  - rewrite Z.max_l by lia. rewrite <- Z.pow_add_r by lia.
    replace (n + (Zdigits2 x - n)) with (Zdigits2 x) by lia. exact U.
  - rewrite Z.max_r by lia. change (2 ^ 0) with 1.
    assert (2 ^ Zdigits2 x <= 2 ^ n) by (apply Z.pow_le_mono_r; lia). lia.
Qed.

Section RoundShape.
Variables prec emax : Z.
Hypothesis prec_pos : 0 < prec.


Lemma shr_fexp_shape m e l :
  0 <= m ->
  let r := shr_fexp prec emax m e l in
  0 <= shr_m (fst r)
  /\ snd r = Z.max e (fexp prec emax (Zdigits2 m + e))
  /\ Zdigits2 (shr_m (fst r)) + snd r <= Z.max (Zdigits2 m + e) (snd r).
Proof.
  intros Hm. unfold shr_fexp, shr.
  assert (Hr : shr_m (shr_record_of_loc m l) = m) by (destruct l as [|[]]; reflexivity).
  destruct (fexp prec emax (Zdigits2 m + e) - e) as [|n|n] eqn:En; cbn [fst snd]; rewrite ?Hr.
  - repeat split; lia.
  - rewrite iter_shr_1_m by (rewrite Hr; exact Hm). rewrite Hr.
    pose proof (Zdigits2_shiftr m (Z.pos n) Hm ltac:(lia)).
    repeat split; [apply Z.shiftr_nonneg; exact Hm|lia|lia].
  - repeat split; lia.
Qed.

Lemma binary_round_aux_shape s m e l :
  0 <= m ->
  let lo := Z.max e (fexp prec emax (Zdigits2 m + e)) in
  let hi := Z.max e (fexp prec emax (Zdigits2 m + e + 1)) in
  (exists s', binary_round_aux prec emax s m e l = S754_zero s')
  \/ (exists m' e', binary_round_aux prec emax s m e l = S754_finite s m' e'
        /\ lo <= e' <= hi)
  \/ (binary_round_aux prec emax s m e l = S754_infinity s /\ emax - prec < hi).
Proof.
  intros Hm lo hi. unfold binary_round_aux.
  pose proof (shr_fexp_shape m e l Hm) as (A1 & A2 & A3). cbn zeta in *.
  destruct (shr_fexp prec emax m e l) as [mrs' e']. cbn [fst snd] in *.
  set (mr := round_nearest_even (shr_m mrs') (loc_of_shr_record mrs')).
  assert (Hr : 0 <= mr /\ Zdigits2 mr <= Zdigits2 (shr_m mrs') + 1).
  { unfold mr, round_nearest_even.
    pose proof (Zdigits2_succ _ A1).
    destruct (loc_of_shr_record mrs') as [|[]]; try (split; lia).
    destruct (Z.even _); split; lia. }
  destruct Hr as [R1 R2].
  pose proof (shr_fexp_shape mr e' loc_Exact R1) as (B1 & B2 & B3). cbn zeta in *.
  destruct (shr_fexp prec emax mr e' loc_Exact) as [mrs'' e'']. cbn [fst snd] in *.
  assert (E : lo <= e'' <= hi) by (unfold lo, hi, fexp in *; lia).
  destruct (shr_m mrs'') as [|p|p]; [left; now exists s| |lia].
  right. destruct (Z.leb_spec e'' (emax - prec)).
  - left. exists p, e''. split; [reflexivity|exact E].
  - right. split; [reflexivity|lia].
Qed.

Lemma digits2_pos_iter_xO m d :
  Z.pos (digits2_pos (Pos.iter xO m d)) = Z.pos (digits2_pos m) + Z.pos d.
Proof.
  induction d as [|d IH] using Pos.peano_ind.
  - cbn. lia.
  - rewrite Pos.iter_succ. cbn [digits2_pos]. lia.
Qed.

Lemma binary_round_shape s m e :
  let D := Z.pos (digits2_pos m) + e in
  (exists s', binary_round prec emax s m e = S754_zero s')
  \/ (exists m' e', binary_round prec emax s m e = S754_finite s m' e'
        /\ fexp prec emax D <= e' <= fexp prec emax (D + 1))
  \/ (binary_round prec emax s m e = S754_infinity s
      /\ emax - prec < fexp prec emax (D + 1)).
Proof.
  intros D. unfold binary_round, shl_align.
  destruct (fexp prec emax (Z.pos (digits2_pos m) + e) - e) as [|d|d] eqn:Ed.
  - pose proof (binary_round_aux_shape s (Z.pos m) e loc_Exact ltac:(lia)) as H.
    cbn zeta in H. cbn [Zdigits2] in H. fold D in H, Ed.
    unfold fexp in *.
    destruct H as [H|[(m' & e' & H & B)|[H B]]]; [now left|right; left|right; right].
    + exists m', e'. split; [exact H|lia].
    + split; [exact H|lia].
  - pose proof (binary_round_aux_shape s (Z.pos m) e loc_Exact ltac:(lia)) as H.
    cbn zeta in H. cbn [Zdigits2] in H. fold D in H, Ed.
    unfold fexp in *.
    destruct H as [H|[(m' & e' & H & B)|[H B]]]; [now left|right; left|right; right].
    + exists m', e'. split; [exact H|lia].
    + split; [exact H|lia].
  - pose proof (binary_round_aux_shape s (Z.pos (Pos.iter xO m d))
                  (fexp prec emax (Z.pos (digits2_pos m) + e)) loc_Exact ltac:(lia)) as H.
    cbn zeta in H. cbn [Zdigits2] in H. rewrite digits2_pos_iter_xO in H.
    fold D in H, Ed |- *.
    replace (Z.pos (digits2_pos m) + Z.pos d + fexp prec emax D) with D in H by lia.
    unfold fexp in *.
    destruct H as [H|[(m' & e' & H & B)|[H B]]]; [now left|right; left|right; right].
    + exists m', e'. split; [exact H|lia].
    + split; [exact H|lia].
Qed.
End RoundShape.

Lemma binary_round_nonzero s m e :
  SpecFloat.emin prec emax <= e ->
  forall s', binary_round prec emax s m e <> S754_zero s'.
Proof.
  intros He s'. unfold binary_round, shl_align.
  destruct (fexp prec emax (Z.pos (digits2_pos m) + e) - e) as [|d|d] eqn:Ed;
    apply binary_round_aux_nonzero; try reflexivity; try lia.
  unfold fexp, SpecFloat.emin in *. lia.
Qed.

Lemma valid_exponent s m e :
  valid_binary (S754_finite s m e) = true ->
  SpecFloat.emin prec emax <= e <= emax - prec
  /\ Z.pos (digits2_pos m) <= prec
  /\ (SpecFloat.emin prec emax < e -> Z.pos (digits2_pos m) = prec).
Proof.
  cbn [SpecFloat.valid_binary]. unfold bounded, canonical_mantissa.
  intros H. apply andb_prop in H as [Hc He].
  apply Z.eqb_eq in Hc. apply Z.leb_le in He.
  unfold fexp, SpecFloat.emin in *. cbv [prec emax] in *. lia.
Qed.

(** 1 + y for y not below zero: a NaN, +infinity, or a value of at least 1 *)
Lemma SFadd_one_shape y :
  valid_binary y = true -> sf_not_below_zero y = true ->
  let z := SFadd prec emax (Prim2SF 1) y in
  z = S754_nan \/ z = S754_infinity false
  \/ exists m e, z = S754_finite false m e /\ -52 <= e.
Proof.
  change (Prim2SF 1) with (S754_finite false 4503599627370496 (-52)).
  destruct y as [[]|[]| |[] my ey]; cbn [sf_not_below_zero sf_nonneg negb SFadd];
    intros Hv Hs; try discriminate; auto.
  - right. right. exists 4503599627370496%positive, (-52). split; [reflexivity|lia].
  - right. right. exists 4503599627370496%positive, (-52). split; [reflexivity|lia].
  - right. pose proof (valid_exponent _ _ _ Hv) as ((He1 & He2) & Hd & _).
    cbn [cond_Zopp]. set (ez := Z.min (-52) ey).
    set (a := fst (shl_align 4503599627370496 (-52) ez)).
    set (b := fst (shl_align my ey ez)).
    change (Z.pos a + Z.pos b) with (Z.pos (a + b)). cbn [binary_normalize].
    assert (Ha : 2 ^ (- ez) <= Z.pos a).
    { unfold a, shl_align. destruct (ez - -52) as [|d|d] eqn:Ed; cbn [fst]; try lia.
      - replace ez with (-52) by lia. cbn. lia.
      - pose proof (digits2_pos_bounds (Pos.iter xO 4503599627370496%positive d)) as [Hlo _].
        rewrite digits2_pos_iter_xO in Hlo. cbn [digits2_pos Pos.succ] in Hlo.
        replace (- ez) with (Z.pos 53 + Z.pos d - 1) by lia. exact Hlo. }
    assert (HD : 1 <= Z.pos (digits2_pos (a + b)) + ez).
    { pose proof (digits2_pos_bounds (a + b)) as [_ Hhi].
      assert (2 ^ (- ez) < 2 ^ Z.pos (digits2_pos (a + b))) by lia.
      apply Z.pow_lt_mono_r_iff in H; lia. }
    pose proof (binary_round_shape prec emax ltac:(reflexivity) false (a + b) ez) as H.
    cbn zeta in H.
    pose proof (binary_round_nonzero false (a + b) ez) as NZ.
    destruct H as [[s' H]|[(m' & e' & H & B)|[H B]]].
    + exfalso. refine (NZ _ s' H). unfold ez, SpecFloat.emin in *. cbv [prec emax] in *. lia.
    + right. exists m', e'. split; [exact H|]. unfold fexp in B. cbv [prec emax] in B. lia.
    + left. exact H.
Qed.

Lemma SFdiv_100_core m2 e2 :
  bounded prec emax m2 e2 = true ->
  let d2 := Z.pos (digits2_pos m2) in
  exists l,
    SFdiv_core_binary prec emax (Z.pos 7036874417766400) (-46) (Z.pos m2) e2
    = (7036874417766400 * 2 ^ d2 / Z.pos m2, -46 - d2 - e2, l).
Proof.
  intros Hb d2. unfold SFdiv_core_binary.
  change (Zdigits2 (Z.pos 7036874417766400)) with 53. cbn [Zdigits2].
  pose proof (valid_exponent false m2 e2 Hb) as ((He1 & He2) & Hd & _).
  unfold fexp, SpecFloat.emin in *. cbv [prec emax] in *. fold d2 in Hd |- *.
  assert (1 <= d2) by (unfold d2; lia).
  replace (Z.min (Z.max (53 + -46 - (d2 + e2) - 53) (3 - 1024 - 53)) (-46 - e2))
    with (-46 - d2 - e2) by lia.
  replace (-46 - e2 - (-46 - d2 - e2)) with d2 by lia.
  unfold d2 at 1. cbv beta iota. fold d2.
  rewrite Z.shiftl_mul_pow2 by lia.
  destruct (Z.div_eucl _ _) as [q r] eqn:Eq.
  exists (new_location (Z.pos m2) r). f_equal. f_equal.
  unfold Z.div. rewrite Eq. reflexivity.
Qed.

(** 100 / z for z at least 1: a positive value below 2^8 *)
Lemma SFdiv_100_shape m2 e2 :
  bounded prec emax m2 e2 = true -> -52 <= e2 ->
  exists m e,
    SFdiv prec emax (Prim2SF 100) (S754_finite false m2 e2) = S754_finite false m e
    /\ e <= -45.
Proof.
  intros Hb He. change (Prim2SF 100) with (S754_finite false 7036874417766400 (-46)).
  pose proof (SFdiv_100_nonzero false m2 e2 Hb) as NZ.
  change (Prim2SF 100) with (S754_finite false 7036874417766400 (-46)) in NZ.
  cbn [SFdiv] in *.
  destruct (SFdiv_100_core m2 e2 Hb) as [l El]. cbv zeta in El.
  rewrite El in NZ |- *. clear El.
  pose proof (valid_exponent false m2 e2 Hb) as ((He1 & He2) & Hd & Hn).
  unfold SpecFloat.emin in *. cbv [prec emax] in *.
  rewrite Hn in * by lia.
  pose proof (digits2_pos_bounds m2) as [Hlo Hhi]. rewrite Hn in Hlo, Hhi by lia.
  set (q := 7036874417766400 * 2 ^ 53 / Z.pos m2) in *.
  assert (Hq : 0 <= q < 2 ^ 54).
  { unfold q. split; [apply Z.div_pos; lia|].
    apply Z.div_lt_upper_bound; [lia|]. change (2 ^ (53 - 1)) with 4503599627370496 in Hlo.
    change (2 ^ 53) with 9007199254740992. change (2 ^ 54) with 18014398509481984. nia. }
  pose proof (Zdigits2_le q 54 Hq ltac:(lia)) as Dq.
  pose proof (Zdigits2_nonneg q) as Dq0.
  pose proof (binary_round_aux_shape 53 1024 ltac:(lia) (xorb false false) q (-46 - 53 - e2) l
                ltac:(lia)) as H.
  cbn zeta in H. unfold fexp, SpecFloat.emin in H. cbn [xorb] in *.
  destruct H as [[s' H]|[(m' & e' & H & B)|[H B]]].
  - exfalso. exact (NZ s' H).
  - exists m', e'. split; [exact H|lia].
  - exfalso. lia.
Qed.

(** the value of a utility: a NaN, a zero, or a positive value below 2^8 *)
Lemma utility_of_shape p caps t u :
  utility_of p caps t = Ret u ->
  Prim2SF u = S754_nan \/ (exists s, Prim2SF u = S754_zero s)
  \/ exists m e, Prim2SF u = S754_finite false m e /\ e <= -45.
Proof.
  intros H. destruct (utility_of_value _ _ _ _ H) as (d & _ & -> & _ & Hd).
  pose proof (SFadd_one_shape (Prim2SF d) (Prim2SF_valid d) Hd) as Z.
  cbn zeta in Z. rewrite <- add_spec in Z.
  assert (Q : Prim2SF (100 / (1 + d)) = S754_nan
              \/ Prim2SF (100 / (1 + d)) = S754_zero false
              \/ exists m e, Prim2SF (100 / (1 + d)) = S754_finite false m e /\ e <= -45).
  { rewrite div_spec. unfold SF64div.
    pose proof (Prim2SF_valid (1 + d)) as V.
    destruct Z as [->|[->|(m & e & E & B)]].
    - left. reflexivity.
    - right. left. reflexivity.
    - right. right. rewrite E in *. cbn [SpecFloat.valid_binary] in V.
      apply SFdiv_100_shape; assumption. }
  unfold capability_match. destruct (capability_missing caps t).
  - rewrite mul_spec. change (Prim2SF 0) with (S754_zero false). unfold SF64mul.
    destruct Q as [->|[->|(m & e & -> & _)]]; cbn; eauto.
  - rewrite mul_one_r. destruct Q as [Q|[Q|Q]]; eauto.
Qed.

Lemma f32_bits_small u m e s :
  Prim2SF u = S754_finite s m e -> e <= -45 -> f32_bits u <> None.
Proof.
  intros E He. unfold f32_bits. rewrite E.
  pose proof (Prim2SF_valid u) as V. rewrite E in V.
  pose proof (valid_exponent s m e V) as (_ & Hd & _). cbv [prec] in Hd.
  pose proof (binary_round_shape f32_prec f32_emax ltac:(reflexivity) s m e) as H.
  cbn zeta in H. unfold fexp, SpecFloat.emin, f32_prec, f32_emax in H.
  destruct H as [[s' H]|[(m' & e' & H & B)|[H B]]].
  - unfold f32_prec, f32_emax. rewrite H. discriminate.
  - unfold f32_prec, f32_emax. rewrite H. discriminate.
  - exfalso. lia.
Qed.

Lemma utility_fits_f32 p caps t u :
  utility_of p caps t = Ret u -> f32_bits u <> None.
Proof.
  intros H. destruct (utility_of_shape _ _ _ _ H) as [E|[[s E]|(m & e & E & B)]].
  - unfold f32_bits. rewrite E. discriminate.
  - unfold f32_bits. rewrite E. discriminate.
  - exact (f32_bits_small _ _ _ _ E B).
Qed.

Lemma sub_diag_finite x : is_finite x = true -> (x - x)%float = 0%float.
Proof.
  intros H. apply Prim2SF_inj. rewrite sub_spec.
  change (Prim2SF 0) with (S754_zero false).
  destruct (is_finite_spec x H) as (sg & [E|(m & e & E)]); rewrite E; cbn.
  - destruct sg; reflexivity.
  - rewrite Z.sub_diag. reflexivity.
Qed.

Lemma distance_to_self p :
  is_finite (fst p) = true -> is_finite (snd p) = true -> distance_to p p = Ret 0%float.
Proof.
  intros Hx Hy. unfold distance_to, norm2.
  rewrite (sub_diag_finite _ Hx), (sub_diag_finite _ Hy). reflexivity.
Qed.

(** C7, as the code has it.  When the utility computation returns, the
    distance math.sqrt(dx**2 + dy**2) from the node to the task was computed,
    and the value is (100 / (1 + distance)) times the capability factor, 1
    when the task has no required capability or the node's list contains it
    and 0 otherwise, all in binary64 arithmetic.  The value is never
    negative, and it is >= 0 whenever it is a number.  When the required
    capability is missing the value, if a number, is 0; when it is matched
    the value is 100 / (1 + distance), which is not 0 as long as
    1 + distance is finite.  So, as long as 1 + distance is finite and the
    value is a number, it is 0 if and only if the required capability is
    missing.  At distance 0 with the capability matched, in particular at
    the task's own finite position, it is exactly 100.0. *)
Theorem utility_value (s : SwarmAgent) (t : Task) (u : float) :
  fst (run (_calculate_utility t) s) = Ret u ->
  let missing := capability_missing (capabilities s) t in
  exists d,
    distance_to (position s) (pos t) = Ret d
    /\ u = (100 / (1 + d) * capability_match (capabilities s) t)%float
    /\ (u <? 0)%float = false
    /\ (is_nan u = false -> (u >=? 0)%float = true)
    /\ (missing = true -> is_nan u = false -> (u =? 0)%float = true)
    /\ (missing = false -> u = (100 / (1 + d))%float)
    /\ (missing = false -> is_finite (1 + d) = true -> (u =? 0)%float = false)
    /\ (is_finite (1 + d) = true -> is_nan u = false ->
        ((u =? 0)%float = true <-> missing = true))
    /\ (missing = false -> d = 0%float -> u = 100%float)
    /\ (missing = false -> position s = pos t ->
        is_finite (fst (pos t)) = true -> is_finite (snd (pos t)) = true ->
        u = 100%float).
Proof.
  intros H missing. rewrite _calculate_utility_reads in H. cbn [fst] in H.
  pose proof (utility_of_value _ _ _ _ H) as (d & Hd & E & Hz & _).
  pose proof (utility_of_nonneg _ _ _ _ H) as N.
  assert (Hmiss : missing = true -> is_nan u = false -> (u =? 0)%float = true).
  { intros M. rewrite E. unfold capability_match. fold missing. rewrite M.
    apply mul_zero_r. }
  assert (Hq : missing = false -> u = (100 / (1 + d))%float).
  { intros M. rewrite E. unfold capability_match. fold missing. rewrite M.
    apply mul_one_r. }
  assert (Hpos : missing = false -> is_finite (1 + d) = true -> (u =? 0)%float = false).
  { intros M F. rewrite (Hq M). apply div_100_nonzero; assumption. }
  assert (Hzero : missing = false -> d = 0%float -> u = 100%float).
  { intros M D. rewrite (Hq M), D. reflexivity. }
  exists d. split; [exact Hd|].
  split; [exact E|]. split; [exact (nonneg_not_negative _ N)|].
  split; [exact (nonneg_number_ge_0 _ N)|]. split; [exact Hmiss|].
  split; [exact Hq|]. split; [exact Hpos|]. split; [|split; [exact Hzero|]].
  - intros F Nn. destruct missing eqn:M.
    + split; [reflexivity|]. intros _. apply Hmiss; [reflexivity|exact Nn].
    + rewrite (Hpos eq_refl F). split; discriminate.
  - intros M P Hx Hy. apply (Hzero M).
    rewrite P, (distance_to_self _ Hx Hy) in Hd. now injection Hd.
Qed.

(** ** Claim scan *)

Lemma struct_pack_If_ok n u :
  0 <= n < 4294967296 -> f32_bits u <> None ->
  struct_pack_If n u = Ret (u32_be n ++ f32_be u).
Proof.
  intros Hn Hu. unfold struct_pack_If, pack_f, f32_be. rewrite pack_I_ok by assumption.
  destruct (f32_bits u); [reflexivity|contradiction].
Qed.

Lemma insert_at_length {A} (pre : list A) x y rest :
  <[length pre := y]> (pre ++ x :: rest) = pre ++ y :: rest.
Proof. induction pre as [|a pre IH]; [reflexivity|]. cbn. f_equal. exact IH. Qed.

Lemma _process_tasks_loop_result s items :
  header_ok s -> Forall (claimable s) items ->
  forall pre out,
    _process_tasks_loop items (length pre) (with_sent out (with_tasks (pre ++ items) s))
    = (Ret tt, with_sent (out ++ concat (map (scan_frames s) items))
                 (with_tasks (pre ++ map (scan_task s) items) s)).
Proof.
  intros Hh. induction 1 as [|[task_id task] rest Hc _ IH]; intros pre out.
  - cbn. rewrite !app_nil_r. reflexivity.
  - assert (Next : forall x out',
      _process_tasks_loop rest (S (length pre))
        (with_sent out' (with_tasks (pre ++ x :: rest) s))
      = (Ret tt, with_sent (out' ++ concat (map (scan_frames s) rest))
                   (with_tasks (pre ++ x :: map (scan_task s) rest) s))).
    { intros x out'. specialize (IH (pre ++ [x]) out').
      rewrite length_app, Nat.add_1_r, <- !app_assoc in IH. exact IH. }
    cbn [_process_tasks_loop map concat].
    unfold scan_task at 1, scan_frames at 1, claimed_utility. cbn [fst snd].
    unfold claimable in Hc. cbn [fst snd] in Hc.
    unfold bind, when, pass, ret.
    destruct (status task) eqn:Est; try apply Next.
    destruct (Hc eq_refl) as (u & Hu & Hpack).
    change (_calculate_utility task ?x) with (run (_calculate_utility task) x).
    rewrite _calculate_utility_reads.
    replace (position (with_sent out (with_tasks (pre ++ (task_id, task) :: rest) s)))
      with (position s) by (destruct s; reflexivity).
    replace (capabilities (with_sent out (with_tasks (pre ++ (task_id, task) :: rest) s)))
      with (capabilities s) by (destruct s; reflexivity).
    rewrite Hu.
    destruct (u >? 20)%float eqn:G; [|apply Next].
    pose proof (Hpack eq_refl) as Hid.
    pose proof (utility_fits_f32 _ _ _ _ Hu) as Hf.
    unfold modify, lift. rewrite struct_pack_If_ok by assumption.
    rewrite _send_msg_ok by (destruct s; exact Hh).
    rewrite (app_assoc out [_] _).
    rewrite <- (Next (task_id, with_status TENTATIVE task) (out ++ [claim_frame s task_id u])).
    f_equal. destruct s; cbn. rewrite insert_at_length. reflexivity.
Qed.

Lemma Forall2_map_self {A B} (P : A -> B -> Prop) (f : A -> B) l :
  (forall x, P x (f x)) -> Forall2 P l (map f l).
Proof. intros H. induction l; cbn; constructor; auto. Qed.

Lemma scan_task_as_stated s kt :
  match claimed_utility s (snd kt) with
  | Some _ => restatused TENTATIVE kt (scan_task s kt)
  | None => scan_task s kt = kt
  end.
Proof.
  unfold scan_task. destruct (claimed_utility s (snd kt)); [|reflexivity].
  repeat split.
Qed.

(** C8, as the code has it.  On a task map on which the scan raises nothing
    (the utility of every Open task is computed without an arithmetic
    error, the id of every task it claims fits the u32 field, and the
    node's id and tick fit the header) the claim scan returns, having
    visited the task map in order.  A task is Tentative afterwards, with
    its position and required capability as they were, and a TASK_CLAIM
    carrying (task_id as u32, utility as f32) was broadcast for it, if and
    only if its status was Open and its utility strictly greater than 20.0
    (at exactly 20.0 it is not claimed); every other task is left unchanged
    and produces no message, and nothing else of the node changes. *)
Theorem claim_scan (s : SwarmAgent) :
  header_ok s -> Forall (claimable s) (tasks s) ->
  let r := run _process_tasks s in
  fst r = Ret tt
  /\ scan_claims_as_stated s
  /\ snd r = with_sent (sent (snd r)) (with_tasks (tasks (snd r)) s)
  /\ r = (Ret tt, with_sent (sent s ++ concat (map (scan_frames s) (tasks s)))
                    (with_tasks (map (scan_task s) (tasks s)) s))
  /\ (forall t u,
        claimed_utility s t = Some u
        <-> status t = OPEN
            /\ utility_of (position s) (capabilities s) t = Ret u
            /\ (u >? 20.0)%float = true)
  /\ (forall task_id t u,
        claimed_utility s t = Some u ->
        restatused TENTATIVE (task_id, t) (scan_task s (task_id, t))
        /\ scan_frames s (task_id, t) = [claim_frame s task_id u])
  /\ (forall task_id t,
        claimed_utility s t = None ->
        scan_task s (task_id, t) = (task_id, t) /\ scan_frames s (task_id, t) = [])
  /\ (forall t,
        utility_of (position s) (capabilities s) t = Ret 20%float ->
        claimed_utility s t = None).
Proof.
  intros Hh Hc r.
  assert (R : r = (Ret tt, with_sent (sent s ++ concat (map (scan_frames s) (tasks s)))
                             (with_tasks (map (scan_task s) (tasks s)) s))).
  { subst r. unfold _process_tasks, run, bind, get.
    pose proof (_process_tasks_loop_result s (tasks s) Hh Hc [] (sent s)) as L.
    cbn [length app] in L. rewrite <- L. f_equal. destruct s; reflexivity. }
  split; [rewrite R; reflexivity|].
  split.
  { unfold scan_claims_as_stated. fold r. rewrite R. cbn [snd tasks sent with_sent with_tasks].
    split; [|reflexivity]. apply Forall2_map_self. intros kt. apply scan_task_as_stated. }
  split; [rewrite R; reflexivity|]. split; [exact R|].
  split; [|split; [|split]].
  - intros t u. unfold claimed_utility. split.
    + destruct (status t); try discriminate.
      destruct (utility_of _ _ t) as [v|]; [|discriminate].
      destruct (v >? 20)%float eqn:G; [|discriminate].
      intros [= <-]. repeat split; assumption.
    + intros (-> & -> & ->). reflexivity.
  - intros task_id t u H. split.
    + pose proof (scan_task_as_stated s (task_id, t)) as T. cbn [snd] in T.
      rewrite H in T. exact T.
    + unfold scan_frames. cbn [fst snd]. rewrite H. reflexivity.
  - intros task_id t H. unfold scan_task, scan_frames. cbn [fst snd]. rewrite H.
    split; reflexivity.
  - intros t H. unfold claimed_utility. rewrite H. destruct (status t); reflexivity.
Qed.

(** ** Motion step *)

(** A neighbor at the node's own position: the distance 0.0 is clamped to
    0.001, and once 0.001 ** 2 is computed the force divides by zero, by the
    square itself if it is 0.0 and by the norm 0.0 otherwise. *)
Lemma neighbor_force_coincident p f n_id v :
  is_finite (fst p) = true -> is_finite (snd p) = true ->
  py_pow2 0.001 = Ret v ->
  neighbor_force p f (n_id, fst p, snd p) = Raise ZeroDivisionError.
Proof.
  intros Hx Hy Hv. unfold neighbor_force. cbn [fst snd].
  rewrite (sub_diag_finite _ Hx), (sub_diag_finite _ Hy).
  change (py_pow2 0) with (Ret 0%float). cbn [obind].
  change (math_sqrt (0 + 0)) with (Ret 0%float). cbn [obind].
  change (0 <? 2)%float with true. change (0 <=? 0.001)%float with true. cbv iota.
  rewrite Hv. cbn [obind]. unfold py_div at 1.
  destruct (v =? 0)%float; [reflexivity|]. cbn [obind]. reflexivity.
Qed.

Lemma neighbor_force_coincident_raises p n_id :
  is_finite (fst p) = true -> is_finite (snd p) = true ->
  exists e, forall f, neighbor_force p f (n_id, fst p, snd p) = Raise e.
Proof.
  intros Hx Hy. destruct (py_pow2 0.001) as [v|e] eqn:E.
  - exists ZeroDivisionError. intros f. exact (neighbor_force_coincident p f n_id v Hx Hy E).
  - exists e. intros f. unfold neighbor_force. cbn [fst snd].
    rewrite (sub_diag_finite _ Hx), (sub_diag_finite _ Hy).
    change (py_pow2 0) with (Ret 0%float). cbn [obind].
    change (math_sqrt (0 + 0)) with (Ret 0%float). cbn [obind].
    change (0 <? 2)%float with true. change (0 <=? 0.001)%float with true. cbv iota.
    rewrite E. reflexivity.
Qed.

(** C9 at a failing input: a neighbor reported exactly at the node's own
    position makes the motion step divide by a zero norm.  Whatever the C
    library returns for the squares, the step raises: no velocity is stored
    and the position is not advanced.  The two squares that reach the C
    library at this input are those of 10.0 and of the clamped distance
    0.001; when the first is 100.0 and the second returns, the exception is
    ZeroDivisionError. *)
Theorem motion_step_coincident_neighbor :
  (exists e, run (_update_physics 0.1) sample_crowded = (Raise e, sample_crowded))
  /\ forall v : float,
       py_pow2 10 = Ret 100%float -> py_pow2 0.001 = Ret v ->
       run (_update_physics 0.1) sample_crowded = (Raise ZeroDivisionError, sample_crowded).
Proof.
  split.
  - unfold run. cbv -[py_pow2]. change (py_pow2 0) with (Ret 0%float).
    destruct (py_pow2 10) as [a|e]; [|eexists; reflexivity].
    cbv -[py_pow2].
    destruct (if PrimFloat.eqb (sqrt (a + 0)) (sqrt (a + 0)) then false else true);
      [destruct (if PrimFloat.eqb (a + 0) (a + 0) then false else true);
         [|eexists; reflexivity]|].
    all: destruct (py_pow2 0.001) as [v|e]; [|eexists; reflexivity].
    all: destruct (PrimFloat.eqb v 0); eexists; reflexivity.
  - intros v H10 Hv. unfold run. cbv -[py_pow2].
    rewrite H10. change (py_pow2 0) with (Ret 0%float). cbv -[py_pow2].
    rewrite Hv. cbv -[py_pow2].
    destruct (PrimFloat.eqb v _); reflexivity.
Qed.

Lemma for_each_raises {A B} (body : B -> A -> outcome B) x e l :
  In x l -> (forall acc, body acc x = Raise e) ->
  forall acc, exists e', for_each body acc l = Raise e'.
Proof.
  intros Hin Hx. induction l as [|y l IH]; [contradiction|].
  intros acc. cbn [for_each]. destruct Hin as [->|Hin].
  - rewrite Hx. exists e. reflexivity.
  - destruct (body acc y) as [acc'|e']; cbn [obind]; [apply IH, Hin|now exists e'].
Qed.

Ltac until_neighbor_loop :=
  repeat match goal with
    | |- context [match ?o with Ret _ => _ | Raise _ => _ end] =>
        lazymatch o with
        | for_each (neighbor_force _) _ _ => fail
        | _ => destruct o; [|eexists; reflexivity]
        end
    end.

(** The failing input is one of a family: with a target set, any neighbor
    reported at the node's own (finite) position makes the motion step
    raise, whatever else the sensors report. *)
Lemma motion_step_raises_on_coincident_neighbor s dt tgt n_id :
  target s = Some tgt ->
  In (n_id, fst (position s), snd (position s)) (neighbors s) ->
  is_finite (fst (position s)) = true -> is_finite (snd (position s)) = true ->
  exists e, fst (run (_update_physics dt) s) = Raise e.
Proof.
  intros Ht Hin Hx Hy.
  assert (Hn : forall acc, exists e,
             for_each (neighbor_force (position s)) acc (neighbors s) = Raise e).
  { destruct (neighbor_force_coincident_raises (position s) n_id Hx Hy) as [e0 He0].
    intros acc. eapply for_each_raises; [exact Hin|]. exact He0. }
  unfold _update_physics, run, bind, get, when, pass, ret, lift, modify.
  destruct (AgentState_eqb (state s) FOLLOWER &&
            match leader_pos s with Some _ => true | None => false end) eqn:C.
  - destruct (leader_pos s) as [lp|]; [|now rewrite andb_false_r in C].
    destruct (float_of_int (agent_id s)) as [r|e0]; [|eexists; reflexivity].
    cbn [target with_target position obstacles neighbors].
    until_neighbor_loop.
    destruct (Hn (0%float, 0%float)) as [e ->]. eexists; reflexivity.
  - rewrite Ht. until_neighbor_loop.
    destruct (Hn (0%float, 0%float)) as [e ->]. eexists; reflexivity.
Qed.

(** The clamp multiplies by the rounded quotient max_speed / v_mag: the
    stored speed can land one unit in the last place above max_speed.  Here
    the force is (8.203125, 0), its square is computed exactly, and
    8.203125 * (5.0 / 8.203125) is 5.000000000000001. *)
Lemma clamp_rounds_above_max_speed :
  py_pow2 8.203125 = Ret 67.291259765625%float ->
  let s' := snd (run (_update_physics 0.1) sample_runner) in
  velocity s' = (5.0000000000000009, 0)%float
  /\ (fst (velocity s') >? max_speed s')%float = true.
Proof.
  intros H. cbv zeta.
  assert (E : run (_update_physics 0.1) sample_runner
              = (Ret tt, with_position (0.50000000000000011, 0)%float
                           (with_velocity (5.0000000000000009, 0)%float sample_runner))).
  { unfold run. cbv -[py_pow2].
    rewrite H. change (py_pow2 0) with (Ret 0%float). cbv -[py_pow2].
    rewrite H. change (py_pow2 0) with (Ret 0%float). cbv -[py_pow2].
    reflexivity. }
  rewrite E. split; reflexivity.
Qed.

(** * Further properties *)

Lemma Z_of_byte_of_Z_mod z : Z_of_byte (byte_of_Z z) = z mod 256.
Proof.
  pose proof (Z.mod_pos_bound z 256 ltac:(lia)) as B.
  rewrite <- (Z_of_byte_of_Z (z mod 256) B). unfold byte_of_Z.
  rewrite Z.mod_mod by lia. reflexivity.
Qed.

Lemma unpack_I_u32_be z :
  0 <= z < 4294967296 ->
  unpack_I (byte_of_Z (z / 16777216)) (byte_of_Z (z / 65536)) (byte_of_Z (z / 256)) (byte_of_Z z)
  = z.
Proof.
  intros H. unfold unpack_I. rewrite !Z_of_byte_of_Z_mod.
  Z.div_mod_to_equations. lia.
Qed.

Lemma frame_parses t id tk p :
  0 <= id < 256 -> 0 <= tk < 4294967296 ->
  struct_unpack_BBI (firstn 6 (frame t id tk p)) = Ret (MsgType_value t, id, tk)
  /\ skipn 6 (frame t id tk p) = p.
Proof.
  intros Hi Ht. unfold frame, u32_be. cbn [app]. cbn [firstn skipn struct_unpack_BBI].
  rewrite firstn_O, skipn_O.
  rewrite unpack_I_u32_be by assumption. rewrite (Z_of_byte_of_Z id Hi).
  rewrite Z_of_byte_of_Z by (destruct t; cbn; lia). split; reflexivity.
Qed.

Lemma frame_received now t id tk p r :
  0 <= id < 256 ->
  run (on_message_received now (frame t id tk p)) r = run (handler t now id p) r.
Proof.
  intros Hi. unfold frame, u32_be. cbn [app].
  rewrite on_message_received_dispatch. cbn zeta.
  rewrite (Z_of_byte_of_Z id Hi).
  rewrite Z_of_byte_of_Z by (destruct t; cbn; lia).
  destruct t; reflexivity.
Qed.

(** X1. Every packet [_send_msg] hands to the transport is six bytes of
    header followed by the payload; the header decodes back to the type
    code, the sender's id and its tick, and any node that receives the
    packet runs the handler of that type with the sender's id and the same
    payload. *)
Theorem sent_frame_is_dispatched (a : SwarmAgent) (t : MsgType) (p : bytes)
    (now : float) (r : SwarmAgent) :
  header_ok a ->
  let pkt := frame t (agent_id a) (tick a) p in
  run (_send_msg t p) a = (Ret tt, with_sent (sent a ++ [pkt]) a)
  /\ length pkt = (6 + length p)%nat
  /\ struct_unpack_BBI (firstn 6 pkt) = Ret (MsgType_value t, agent_id a, tick a)
  /\ skipn 6 pkt = p
  /\ run (on_message_received now pkt) r = run (handler t now (agent_id a) p) r.
Proof.
  intros Hh pkt. subst pkt. destruct (Hh) as [Hi Ht].
  split; [apply _send_msg_ok, Hh|].
  split; [reflexivity|].
  destruct (frame_parses t _ _ p Hi Ht) as [P1 P2].
  split; [exact P1|]. split; [exact P2|].
  apply frame_received, Hi.
Qed.

Lemma sent_frame_is_dispatched_witness :
  header_ok sample_leader
  /\ run (on_message_received 1006 (frame COORDINATOR 2 0 [])) sample_follower
     = run (_handle_coordinator 1006 2) sample_follower.
Proof.
  assert (Hh : header_ok sample_leader) by (unfold header_ok; cbn; lia).
  refine (conj Hh _).
  exact (proj2 (proj2 (proj2 (proj2
           (sent_frame_is_dispatched sample_leader COORDINATOR [] 1006 sample_follower Hh))))).
Defined.

(** ** Conflict resolution, from the leader to the workers *)

Lemma struct_unpack_IB_pack n b :
  0 <= n < 4294967296 -> 0 <= b < 256 ->
  struct_unpack_IB (u32_be n ++ [byte_of_Z b]) = Ret (n, b).
Proof.
  intros Hn Hb. unfold u32_be. cbn [app struct_unpack_IB].
  rewrite unpack_I_u32_be, Z_of_byte_of_Z by assumption. reflexivity.
Qed.

Lemma task_conflict_result s sender payload task_id winner_id :
  struct_unpack_IB payload = Ret (task_id, winner_id) ->
  run (_handle_task_conflict sender payload) s
  = (Ret tt, with_tasks (set_task_status task_id (verdict winner_id s) (tasks s)) s).
Proof.
  intros Hp. unfold _handle_task_conflict, run, bind, lift, get, modify, verdict.
  rewrite Hp. cbn [fst snd]. destruct (winner_id =? agent_id s); reflexivity.
Qed.

Lemma set_task_status_keys k v ts : map fst (set_task_status k v ts) = map fst ts.
Proof.
  unfold set_task_status. rewrite map_map. apply map_ext.
  intros [k' t]. cbn. destruct (k' =? k); reflexivity.
Qed.

Lemma set_task_status_other k v ts k' t :
  In (k', t) ts -> k' <> k -> In (k', t) (set_task_status k v ts).
Proof.
  intros Hin Hk. unfold set_task_status. apply in_map_iff. exists (k', t). cbn.
  destruct (Z.eqb_spec k' k); [contradiction|]. split; [reflexivity|exact Hin].
Qed.

Lemma set_task_status_hit k v ts t :
  In (k, t) ts -> In (k, with_status v t) (set_task_status k v ts).
Proof.
  intros Hin. unfold set_task_status. apply in_map_iff. exists (k, t). cbn.
  rewrite Z.eqb_refl. split; [reflexivity|exact Hin].
Qed.

Lemma set_task_status_missing k v ts :
  ~ In k (map fst ts) -> set_task_status k v ts = ts.
Proof.
  induction ts as [|[k' t] ts IH]; [reflexivity|]. cbn. intros H.
  destruct (Z.eqb_spec k' k) as [->|_]; [exfalso; apply H; now left|].
  f_equal. apply IH. intros H'. apply H. now right.
Qed.

Lemma set_task_status_twice k v ts :
  set_task_status k v (set_task_status k v ts) = set_task_status k v ts.
Proof.
  unfold set_task_status. rewrite map_map. apply map_ext.
  intros [k' t]. cbn. destruct (Z.eqb_spec k' k) as [->|N]; cbn.
  - rewrite Z.eqb_refl. reflexivity.
  - destruct (Z.eqb_spec k' k); [contradiction|reflexivity].
Qed.

Lemma set_task_status_entries k v ts :
  Forall2 (fun kt kt' => (fst kt = k -> restatused v kt kt') /\ (fst kt <> k -> kt' = kt))
    ts (set_task_status k v ts).
Proof.
  induction ts as [|[k' t] ts IH]; cbn; constructor; [|exact IH].
  cbn. destruct (Z.eqb_spec k' k) as [E|N].
  - split; [intros _; repeat split|contradiction].
  - split; [contradiction|reflexivity].
Qed.

Lemma set_task_status_adjudicated k (won : Prop) (b : bool) ts :
  (b = true <-> won) ->
  Forall2 (adjudicated k won) ts (set_task_status k (if b then ASSIGNED else LOCKED) ts).
Proof.
  intros Hb. eapply Forall2_impl; [apply set_task_status_entries|].
  intros kt kt' [H1 H2]. unfold adjudicated. destruct b.
  - split; [auto|]. split; [|exact H2]. intros _ N. exfalso. apply N, Hb. reflexivity.
  - split; [|split; [auto|exact H2]]. intros _ W. apply Hb in W. discriminate.
Qed.

(** X2. A TASK_CONFLICT whose payload decodes to (task_id, winner_id) only
    rewrites the status of the local task with that id: the status is
    Assigned afterwards when the winner is this node and Locked otherwise,
    whatever it was and whoever sent the frame.  Position and required
    capability of the task, every other task, and the keys and the order of
    the task map stay as they are; for an id the node does not hold nothing
    changes and no entry is created.  Nothing is sent or raised, and
    handling the same frame again changes nothing more. *)
Theorem task_conflict_effect (s : SwarmAgent) (sender : Z) (payload : bytes)
    (task_id winner_id : Z) :
  struct_unpack_IB payload = Ret (task_id, winner_id) ->
  let r := run (_handle_task_conflict sender payload) s in
  fst r = Ret tt
  /\ snd r = with_tasks (tasks (snd r)) s
  /\ Forall2 (adjudicated task_id (winner_id = agent_id s)) (tasks s) (tasks (snd r))
  /\ map fst (tasks (snd r)) = map fst (tasks s)
  /\ (forall t, In (task_id, t) (tasks s) ->
        In (task_id, with_status (verdict winner_id s) t) (tasks (snd r)))
  /\ (forall k t, In (k, t) (tasks s) -> k <> task_id -> In (k, t) (tasks (snd r)))
  /\ (~ In task_id (map fst (tasks s)) -> snd r = s)
  /\ run (_handle_task_conflict sender payload) (snd r) = r.
Proof.
  intros Hp r. subst r. rewrite (task_conflict_result _ _ _ _ _ Hp). cbn [fst snd].
  split; [reflexivity|]. split; [reflexivity|].
  split; [apply set_task_status_adjudicated, Z.eqb_eq|].
  split; [apply set_task_status_keys|].
  split; [intros t; apply set_task_status_hit|].
  split; [intros k t; apply set_task_status_other|].
  split.
  - intros H. cbn [tasks with_tasks]. rewrite (set_task_status_missing _ _ _ H).
    destruct s; reflexivity.
  - rewrite (task_conflict_result _ _ _ _ _ Hp).
    cbn [tasks with_tasks]. unfold verdict. cbn [agent_id with_tasks].
    rewrite set_task_status_twice. reflexivity.
Qed.

Lemma task_conflict_effect_witness :
  struct_unpack_IB [x00; x00; x00; x65; x03] = Ret (101, 3)
  /\ Forall2 (adjudicated 101 (3 = agent_id sample_peer)) (tasks sample_peer)
       (tasks (snd (run (_handle_task_conflict 2 [x00; x00; x00; x65; x03]) sample_peer)))
  /\ map (fun kt => status (snd kt))
       (tasks (snd (run (_handle_task_conflict 2 [x00; x00; x00; x65; x03]) sample_peer)))
     = [ASSIGNED]
  /\ map (fun kt => status (snd kt))
       (tasks (snd (run (_handle_task_conflict 2 [x00; x00; x00; x65; x03]) sample_holder)))
     = [LOCKED].
Proof.
  assert (Hp : struct_unpack_IB [x00; x00; x00; x65; x03] = Ret (101, 3)) by reflexivity.
  refine (conj Hp (conj _ (conj eq_refl eq_refl))).
  exact (proj1 (proj2 (proj2 (task_conflict_effect sample_peer 2 _ 101 3 Hp)))).
Defined.

Lemma conflict_frame_received now a task_id w n :
  0 <= agent_id a < 256 -> 0 <= task_id < 4294967296 -> 0 <= w < 256 ->
  run (on_message_received now (conflict_frame a task_id w)) n
  = (Ret tt, with_tasks (set_task_status task_id (verdict w n) (tasks n)) n).
Proof.
  intros Ha Ht Hw. unfold conflict_frame.
  rewrite (frame_received now TASK_CONFLICT _ _ _ n Ha). cbn [handler].
  apply task_conflict_result, struct_unpack_IB_pack; assumption.
Qed.

(** X3. The leader's verdict reaches the workers.  When a LEADER accepts a
    TASK_CLAIM(task_id, u) from [sender], the one frame it hands over is a
    TASK_CONFLICT that every node decodes to the same task id and winner:
    at the node whose id is [sender] the status of that task is Assigned
    afterwards, at every other node it is Locked, with the task's position
    and required capability and every other task as they were; a node that
    does not hold the task is left unchanged. *)
Theorem award_reaches_workers (l : SwarmAgent) (sender : Z) (payload : bytes)
    (task_id : Z) (u : float) (now : float) (n : SwarmAgent) :
  struct_unpack_If payload = Ret (task_id, u) ->
  header_ok l -> 0 <= sender < 256 -> state l = LEADER ->
  claim_accepted (task_claims l !! task_id) u = true ->
  exists pkt,
    sent (snd (run (_handle_task_claim sender payload) l)) = sent l ++ [pkt]
    /\ run (on_message_received now pkt) n
       = (Ret tt, with_tasks (set_task_status task_id (verdict sender n) (tasks n)) n)
    /\ fst (run (on_message_received now pkt) n) = Ret tt
    /\ snd (run (on_message_received now pkt) n)
       = with_tasks (tasks (snd (run (on_message_received now pkt) n))) n
    /\ Forall2 (adjudicated task_id (agent_id n = sender)) (tasks n)
         (tasks (snd (run (on_message_received now pkt) n)))
    /\ (agent_id n = sender ->
        forall t, In (task_id, t) (tasks n) ->
          In (task_id, with_status ASSIGNED t)
             (tasks (snd (run (on_message_received now pkt) n))))
    /\ (agent_id n <> sender ->
        forall t, In (task_id, t) (tasks n) ->
          In (task_id, with_status LOCKED t)
             (tasks (snd (run (on_message_received now pkt) n))))
    /\ (~ In task_id (map fst (tasks n)) ->
        run (on_message_received now pkt) n = (Ret tt, n)).
Proof.
  intros Hp Hh Hs El Ha. pose proof (struct_unpack_If_range _ _ _ Hp) as Ht.
  exists (conflict_frame l task_id sender).
  assert (R : run (_handle_task_claim sender payload) l
              = (Ret tt, claim_awarded task_id sender u l)).
  { unfold _handle_task_claim. unfold run, bind, lift, get, when, modify.
    rewrite Hp. cbn [fst snd]. rewrite El. cbn [AgentState_eqb].
    unfold claim_accepted in Ha.
    assert (E : match task_claims l !! task_id with
                | Some c => (u >? utility c + 5)%float
                | None => true
                end = true) by exact Ha.
    rewrite E. rewrite struct_pack_IB_ok by assumption.
    rewrite _send_msg_ok by exact Hh. reflexivity. }
  rewrite R. split; [reflexivity|].
  rewrite (conflict_frame_received now l task_id sender n (proj1 Hh) Ht Hs).
  split; [reflexivity|]. cbn [fst snd tasks with_tasks].
  split; [reflexivity|]. split; [reflexivity|].
  split.
  { unfold verdict. apply set_task_status_adjudicated.
    rewrite Z.eqb_eq. split; congruence. }
  split; [|split].
  - intros E t Hin. pose proof (set_task_status_hit task_id (verdict sender n) _ t Hin) as H.
    unfold verdict in H at 1. rewrite <- E, Z.eqb_refl in H. rewrite <- E. exact H.
  - intros E t Hin. pose proof (set_task_status_hit task_id (verdict sender n) _ t Hin) as H.
    unfold verdict in H at 1. destruct (Z.eqb_spec sender (agent_id n)); [congruence|]. exact H.
  - intros H. rewrite (set_task_status_missing _ _ _ H). destruct n; reflexivity.
Qed.

Lemma award_reaches_workers_witness :
  struct_unpack_If claim_101_60 = Ret (101, 60%float)
  /\ header_ok sample_arbiter
  /\ exists pkt,
      sent (snd (run (_handle_task_claim 3 claim_101_60) sample_arbiter)) = [pkt]
      /\ Forall2 (adjudicated 101 (agent_id sample_peer = 3)) (tasks sample_peer)
           (tasks (snd (run (on_message_received 1006 pkt) sample_peer)))
      /\ map (fun kt => status (snd kt))
           (tasks (snd (run (on_message_received 1006 pkt) sample_peer)))
         = [ASSIGNED].
Proof.
  assert (Hp : struct_unpack_If claim_101_60 = Ret (101, 60%float)) by reflexivity.
  assert (Hh : header_ok sample_arbiter) by (unfold header_ok; cbn; lia).
  refine (conj Hp (conj Hh _)).
  destruct (award_reaches_workers sample_arbiter 3 claim_101_60 101 60 1006 sample_peer
              Hp Hh ltac:(lia) eq_refl eq_refl) as (pkt & H1 & H2 & _ & _ & H3 & _).
  exists pkt. split; [exact H1|]. split; [exact H3|]. rewrite H2. reflexivity.
Defined.

(** ** Who answers a frame *)

Ltac quiet := left; reflexivity.

Ltac answers Es :=
  right; cbn; rewrite ?Es; split; [eexists; (left + right); reflexivity|split; congruence].

Lemma answer_heartbeat now sender payload s :
  at_most_one_answer s (snd (run (_handle_heartbeat now sender payload) s)).
Proof.
  unfold at_most_one_answer, _handle_heartbeat. mstep.
  destruct (state s) eqn:Es; cbn [AgentState_eqb andb].
  - destruct (_ =? 8); [destruct (struct_unpack_ff _)|]; cbn; rewrite ?Es; cbn; quiet.
  - destruct (_ =? 8); [destruct (struct_unpack_ff _)|]; cbn; rewrite ?Es; cbn; quiet.
  - destruct (sender <? agent_id s).
    + heartbeat_cases; try quiet. answers Es.
    + destruct (sender >? agent_id s); cbn;
        (destruct (_ =? 8); [destruct (struct_unpack_ff _)|]); cbn; rewrite ?Es; cbn; quiet.
Qed.

Lemma answer_acclaim now sender s :
  at_most_one_answer s (snd (run (_handle_election_acclaim now sender) s)).
Proof.
  unfold at_most_one_answer, _handle_election_acclaim. mstep.
  destruct (sender >? agent_id s); cbn; [quiet|].
  destruct (sender <? agent_id s); cbn [andb]; [|quiet].
  destruct (state s) eqn:Es; cbn; try quiet.
  - heartbeat_cases; try quiet. answers Es.
  - heartbeat_cases; try quiet. answers Es.
Qed.

Lemma answer_task_claim sender payload s :
  at_most_one_answer s (snd (run (_handle_task_claim sender payload) s)).
Proof.
  unfold at_most_one_answer, _handle_task_claim. mstep.
  destruct (struct_unpack_If payload) as [[task_id u]|]; cbn; [|quiet].
  destruct (state s) eqn:Es; cbn; try quiet.
  destruct (task_claims s !! task_id) as [c|]; cbn.
  - destruct (_ >? _)%float; cbn.
    + destruct (struct_pack_IB _ _); cbn; [|quiet]. send_cases; try quiet. answers Es.
    + destruct (winner c =? sender); cbn; [quiet|].
      destruct (struct_pack_IB _ _); cbn; [|quiet]. send_cases; try quiet. answers Es.
  - destruct (struct_pack_IB _ _); cbn; [|quiet]. send_cases; try quiet. answers Es.
Qed.

Lemma answer_task_conflict sender payload s :
  at_most_one_answer s (snd (run (_handle_task_conflict sender payload) s)).
Proof.
  unfold at_most_one_answer, _handle_task_conflict. mstep.
  destruct (struct_unpack_IB payload) as [[task_id w]|]; cbn; [|quiet].
  destruct (w =? agent_id s); quiet.
Qed.

(** X4. Whatever bytes arrive, a node hands over at most one frame in
    answer, a HEARTBEAT or a TASK_CONFLICT under its own id and tick, and
    only if it is LEADER once the frame is handled; a node that is FOLLOWER
    when the frame arrives never sends anything. *)
Theorem only_a_leader_answers (s : SwarmAgent) (now : float) (data : bytes) :
  at_most_one_answer s (snd (run (on_message_received now data) s)).
Proof.
  destruct (Nat.lt_ge_cases (length data) 6) as [H|H].
  - rewrite (on_message_received_short _ _ _ H). left. reflexivity.
  - do 6 (destruct data as [|? data]; [cbn in H; lia|]).
    rewrite on_message_received_dispatch. cbn zeta.
    repeat match goal with |- context [if ?c then _ else _] => destruct c end.
    + apply answer_heartbeat.
    + apply answer_acclaim.
    + left. reflexivity.
    + apply answer_task_claim.
    + apply answer_task_conflict.
    + left. reflexivity.
Qed.

(** ** Frame conditions of the methods *)

#[local] Instance unchanged_preorder {X} (f : SwarmAgent -> X) : PreOrder (unchanged f).
Proof.
  split; [intros s; reflexivity|]. intros a b c H1 H2. unfold unchanged in *. congruence.
Qed.

Section Frame.
Context (R : SwarmAgent -> SwarmAgent -> Prop) `{!PreOrder R}.

Lemma preserves_ret {A} (a : A) : preserves R (ret a).
Proof. intros s. reflexivity. Qed.

Lemma preserves_get : preserves R get.
Proof. intros s. reflexivity. Qed.

Lemma preserves_lift {A} (o : outcome A) : preserves R (lift o).
Proof. intros s. reflexivity. Qed.

Lemma preserves_bind {A B} (m : M A) (k : A -> M B) :
  preserves R m -> (forall a, preserves R (k a)) -> preserves R (bind m k).
Proof.
  intros Hm Hk s. unfold bind. specialize (Hm s).
  destruct (m s) as [[a|e] s1]; cbn [snd] in *; [|exact Hm].
  etransitivity; [exact Hm|apply Hk].
Qed.

Lemma preserves_when c m : preserves R m -> preserves R (when c m).
Proof. intros H. destruct c; [exact H|apply preserves_ret]. Qed.

Lemma preserves_modify f : (forall s, R s (f s)) -> preserves R (modify f).
Proof. intros H s. apply H. Qed.

Lemma preserves_send_msg t p :
  (forall v s, R s (with_sent v s)) -> preserves R (_send_msg t p).
Proof.
  intros H s. destruct (_send_msg_cases t p s) as [E|E]; rewrite E; cbn [snd];
    [apply H|reflexivity].
Qed.

Lemma preserves_send_heartbeat :
  (forall v s, R s (with_sent v s)) -> preserves R _send_heartbeat.
Proof.
  intros H s. destruct (_send_heartbeat_cases s) as [(p & _ & E)|E]; rewrite E.
  - apply preserves_when, preserves_send_msg, H.
  - reflexivity.
Qed.

End Frame.

Ltac frame tac :=
  repeat (intros; lazymatch goal with
  | |- preserves _ (bind _ _) => apply preserves_bind
  | |- preserves _ (ret _) => apply preserves_ret
  | |- preserves _ pass => apply preserves_ret
  | |- preserves _ get => apply preserves_get
  | |- preserves _ (lift _) => apply preserves_lift
  | |- preserves _ (when _ _) => apply preserves_when
  | |- preserves _ (modify _) => apply preserves_modify; first [exact _ | tac]
  | |- preserves _ (_send_msg _ _) => apply preserves_send_msg; first [exact _ | tac]
  | |- preserves _ _send_heartbeat => apply preserves_send_heartbeat; first [exact _ | tac]
  | |- preserves _ (if ?c then _ else _) => destruct c
  | |- preserves _ (match ?x with _ => _ end) => destruct x
  | |- PreOrder _ => exact _
  end).

Ltac by_fields := intros; match goal with s : SwarmAgent |- _ => destruct s end; reflexivity.

Lemma body_check a b c d : preserves (unchanged body) (_check_election_timeout a b c d).
Proof. unfold _check_election_timeout. frame by_fields. Qed.

Lemma body_heartbeat now sender payload :
  preserves (unchanged body) (_handle_heartbeat now sender payload).
Proof. unfold _handle_heartbeat. frame by_fields. Qed.

Lemma body_acclaim now sender : preserves (unchanged body) (_handle_election_acclaim now sender).
Proof. unfold _handle_election_acclaim. frame by_fields. Qed.

Lemma body_coordinator now sender : preserves (unchanged body) (_handle_coordinator now sender).
Proof. unfold _handle_coordinator. frame by_fields. Qed.

Lemma body_task_claim sender payload : preserves (unchanged body) (_handle_task_claim sender payload).
Proof. unfold _handle_task_claim. frame by_fields. Qed.

Lemma body_task_conflict sender payload :
  preserves (unchanged body) (_handle_task_conflict sender payload).
Proof. unfold _handle_task_conflict. frame by_fields. Qed.

Lemma alloc_check a b c d : preserves (unchanged allocation) (_check_election_timeout a b c d).
Proof. unfold _check_election_timeout. frame by_fields. Qed.

Lemma alloc_heartbeat now sender payload :
  preserves (unchanged allocation) (_handle_heartbeat now sender payload).
Proof. unfold _handle_heartbeat. frame by_fields. Qed.

Lemma alloc_acclaim now sender :
  preserves (unchanged allocation) (_handle_election_acclaim now sender).
Proof. unfold _handle_election_acclaim. frame by_fields. Qed.

Lemma alloc_coordinator now sender :
  preserves (unchanged allocation) (_handle_coordinator now sender).
Proof. unfold _handle_coordinator. frame by_fields. Qed.

Lemma view_task_claim sender payload :
  preserves (unchanged election_view) (_handle_task_claim sender payload).
Proof. unfold _handle_task_claim. frame by_fields. Qed.

Lemma view_task_conflict sender payload :
  preserves (unchanged election_view) (_handle_task_conflict sender payload).
Proof. unfold _handle_task_conflict. frame by_fields. Qed.

Lemma received_cases now data s :
  run (on_message_received now data) s = (Ret tt, s)
  \/ exists t sd k3 k2 k1 k0 payload,
       data = t :: sd :: k3 :: k2 :: k1 :: k0 :: payload
       /\ ((Z_of_byte t = 1 /\ run (on_message_received now data) s
                               = run (_handle_heartbeat now (Z_of_byte sd) payload) s)
           \/ (Z_of_byte t = 2 /\ run (on_message_received now data) s
                                  = run (_handle_election_acclaim now (Z_of_byte sd)) s)
           \/ (Z_of_byte t = 3 /\ run (on_message_received now data) s
                                  = run (_handle_coordinator now (Z_of_byte sd)) s)
           \/ (Z_of_byte t = 4 /\ run (on_message_received now data) s
                                  = run (_handle_task_claim (Z_of_byte sd) payload) s)
           \/ (Z_of_byte t = 5 /\ run (on_message_received now data) s
                                  = run (_handle_task_conflict (Z_of_byte sd) payload) s)).
Proof.
  destruct (Nat.lt_ge_cases (length data) 6) as [H|H].
  - left. apply on_message_received_short, H.
  - do 6 (destruct data as [|? data]; [cbn in H; lia|]).
    rewrite on_message_received_dispatch. cbn zeta.
    repeat match goal with
           | |- context [if ?x =? ?k then _ else _] => destruct (Z.eqb_spec x k)
           end;
      try (right; do 7 eexists; split; [reflexivity|]; tauto).
    left. reflexivity.
Qed.

(** X5. Handling a frame is local to the protocol state.  Whatever bytes
    arrive, the node keeps its identity, tick, capabilities, speed limit,
    sensor readings, position, velocity and target.  A frame whose type
    code is at most 3 (the election frames) leaves the task map and the
    claim table alone; every other frame leaves the role, the leader id and
    position, the heartbeat time and the election timers alone. *)
Theorem receiving_is_local (s : SwarmAgent) (now : float) (data : bytes) :
  let s' := snd (run (on_message_received now data) s) in
  body s' = body s
  /\ (forall t rest, data = t :: rest -> Z_of_byte t <= 3 -> allocation s' = allocation s)
  /\ (forall t rest, data = t :: rest -> 3 < Z_of_byte t ->
        election_view s' = election_view s).
Proof.
  cbn zeta.
  destruct (received_cases now data s)
    as [E|(t & sd & k3 & k2 & k1 & k0 & payload & -> & [[T E]|[[T E]|[[T E]|[[T E]|[T E]]]]])];
    rewrite E; clear E; cbn [snd].
  - repeat split; reflexivity.
  - split; [apply body_heartbeat|]. split; intros t' rest [= <- _] Ht; [|lia].
    apply alloc_heartbeat.
  - split; [apply body_acclaim|]. split; intros t' rest [= <- _] Ht; [|lia].
    apply alloc_acclaim.
  - split; [apply body_coordinator|]. split; intros t' rest [= <- _] Ht; [|lia].
    apply alloc_coordinator.
  - split; [apply body_task_claim|]. split; intros t' rest [= <- _] Ht; [lia|].
    apply view_task_claim.
  - split; [apply body_task_conflict|]. split; intros t' rest [= <- _] Ht; [lia|].
    apply view_task_conflict.
Qed.

(** ** The election view, over every entry point *)

Lemma struct_unpack_ff_total payload :
  length payload = 8%nat -> exists l, struct_unpack_ff payload = Ret l.
Proof.
  intros H. do 8 (destruct payload as [|? payload]; [discriminate H|]).
  destruct payload; [|discriminate H]. eexists. reflexivity.
Qed.

Lemma wait_check s t_hb t_enter t_wait jitter o s' :
  waiting_knows_no_leader s ->
  run (_check_election_timeout t_hb t_enter t_wait jitter) s = (o, s') ->
  waiting_knows_no_leader s'.
Proof.
  unfold waiting_knows_no_leader, _check_election_timeout. intros I. mstep.
  destruct (state s) eqn:Es; cbn [AgentState_eqb andb].
  - destruct (_ >? _)%float; cbn.
    + destruct (_ >? _)%float; cbn; [|intros [= <- <-]; cbn; intros _; split; reflexivity].
      destruct (struct_pack_B _); cbn; [|intros [= <- <-]; discriminate].
      send_cases; intros [= <- <-]; discriminate.
    + rewrite Es. cbn. intros [= <- <-]. congruence.
  - rewrite Es. cbn. destruct (_ >? _)%float; cbn; [|intros [= <- <-]; auto].
    destruct (struct_pack_B _); cbn; [|intros [= <- <-]; discriminate].
    send_cases; intros [= <- <-]; discriminate.
  - intros [= <- <-]. rewrite Es. exact I.
Qed.

Lemma wait_heartbeat s now sender payload o s' :
  run (_handle_heartbeat now sender payload) s = (o, s') ->
  state s' <> ELECTION_WAIT.
Proof.
  unfold _handle_heartbeat. mstep.
  assert (U : (Z.of_nat (length payload) =? 8) = true ->
              exists l, struct_unpack_ff payload = Ret l).
  { intros H. apply struct_unpack_ff_total. apply Z.eqb_eq in H. lia. }
  destruct (state s) eqn:Es; cbn [AgentState_eqb andb].
  - destruct (_ =? 8); [destruct (U eq_refl) as [l ->]|]; cbn; rewrite ?Es; cbn;
      intros [= <- <-]; cbn; congruence.
  - destruct (_ =? 8); [destruct (U eq_refl) as [l ->]|]; cbn; rewrite ?Es; cbn;
      intros [= <- <-]; cbn; congruence.
  - destruct (sender <? agent_id s).
    + heartbeat_cases; intros [= <- <-]; cbn; congruence.
    + destruct (sender >? agent_id s); cbn;
        (destruct (_ =? 8); [destruct (U eq_refl) as [l ->]|]); cbn; rewrite ?Es; cbn;
        intros [= <- <-]; cbn; congruence.
Qed.

Lemma wait_acclaim s now sender o s' :
  waiting_knows_no_leader s ->
  run (_handle_election_acclaim now sender) s = (o, s') ->
  waiting_knows_no_leader s'.
Proof.
  unfold waiting_knows_no_leader, _handle_election_acclaim. intros I. mstep.
  destruct (sender >? agent_id s); cbn; [intros [= <- <-]; discriminate|].
  destruct (sender <? agent_id s); cbn [andb]; [|intros [= <- <-]; auto].
  destruct (state s) eqn:Es; cbn; try (intros [= <- <-]; congruence).
  - heartbeat_cases; intros [= <- <-]; discriminate.
  - heartbeat_cases; intros [= <- <-]; cbn; congruence.
Qed.

Lemma consistent_by_core s s' :
  election_core s' = election_core s ->
  election_view_consistent s -> election_view_consistent s'.
Proof.
  unfold election_core, election_view, election_view_consistent, leader_knows_itself,
    waiting_knows_no_leader.
  intros [= -> -> -> -> _ _ _] H. exact H.
Qed.

Lemma keeps_by_core {A} (m : M A) :
  preserves (unchanged election_core) m -> keeps election_view_consistent m.
Proof. intros H s. apply consistent_by_core, H. Qed.

Lemma keeps_bind {A B} P (m : M A) (k : A -> M B) :
  keeps P m -> (forall a, keeps P (k a)) -> keeps P (bind m k).
Proof.
  intros Hm Hk s I. unfold bind. specialize (Hm s I).
  destruct (m s) as [[a|e] s1]; cbn [snd] in *; [apply Hk|]; exact Hm.
Qed.

Lemma consistent_check a b c d : keeps election_view_consistent (_check_election_timeout a b c d).
Proof.
  intros s [I1 I2].
  destruct (run (_check_election_timeout a b c d) s) as [o s'] eqn:E.
  change (_check_election_timeout a b c d s) with (run (_check_election_timeout a b c d) s).
  rewrite E. split; [exact (inv_check _ _ _ _ _ _ _ I1 E)|exact (wait_check _ _ _ _ _ _ _ I2 E)].
Qed.

Lemma consistent_heartbeat now sender payload :
  keeps election_view_consistent (_handle_heartbeat now sender payload).
Proof.
  intros s [I1 I2].
  destruct (run (_handle_heartbeat now sender payload) s) as [o s'] eqn:E.
  change (_handle_heartbeat now sender payload s)
    with (run (_handle_heartbeat now sender payload) s).
  rewrite E. split; [exact (inv_heartbeat _ _ _ _ _ _ I1 E)|].
  intros W. exfalso. exact (wait_heartbeat _ _ _ _ _ _ E W).
Qed.

Lemma consistent_acclaim now sender :
  keeps election_view_consistent (_handle_election_acclaim now sender).
Proof.
  intros s [I1 I2].
  destruct (run (_handle_election_acclaim now sender) s) as [o s'] eqn:E.
  change (_handle_election_acclaim now sender s)
    with (run (_handle_election_acclaim now sender) s).
  rewrite E. split; [exact (inv_acclaim _ _ _ _ _ I1 E)|exact (wait_acclaim _ _ _ _ _ I2 E)].
Qed.

Lemma consistent_coordinator now sender :
  keeps election_view_consistent (_handle_coordinator now sender).
Proof. intros s _. split; intros H; discriminate H. Qed.

Lemma core_task_claim sender payload :
  preserves (unchanged election_core) (_handle_task_claim sender payload).
Proof. unfold _handle_task_claim. frame by_fields. Qed.

Lemma core_task_conflict sender payload :
  preserves (unchanged election_core) (_handle_task_conflict sender payload).
Proof. unfold _handle_task_conflict. frame by_fields. Qed.

Lemma core_calculate_utility t : preserves (unchanged election_core) (_calculate_utility t).
Proof. unfold _calculate_utility. frame by_fields. Qed.

Lemma core_process_tasks_loop items :
  forall i, preserves (unchanged election_core) (_process_tasks_loop items i).
Proof.
  induction items as [|[task_id task] rest IH]; intros i; cbn [_process_tasks_loop].
  - apply preserves_ret; exact _.
  - apply preserves_bind; [exact _| |intros _; apply IH].
    apply preserves_when; [exact _|].
    apply preserves_bind; [exact _|apply core_calculate_utility|].
    frame by_fields.
Qed.

Lemma core_process_tasks : preserves (unchanged election_core) _process_tasks.
Proof.
  unfold _process_tasks. apply preserves_bind; [exact _|apply preserves_get; exact _|].
  intros s. apply core_process_tasks_loop.
Qed.

Lemma core_update_physics dt : preserves (unchanged election_core) (_update_physics dt).
Proof. unfold _update_physics. frame by_fields. Qed.

Lemma consistent_received now data : keeps election_view_consistent (on_message_received now data).
Proof.
  intros s I.
  destruct (received_cases now data s)
    as [E|(t & sd & k3 & k2 & k1 & k0 & payload & -> & [[T E]|[[T E]|[[T E]|[[T E]|[T E]]]]])];
    unfold run in E; rewrite E; clear E; cbn [snd].
  - exact I.
  - apply consistent_heartbeat, I.
  - apply consistent_acclaim, I.
  - apply consistent_coordinator, I.
  - apply (keeps_by_core _ (core_task_claim _ _)), I.
  - apply (keeps_by_core _ (core_task_conflict _ _)), I.
Qed.

Lemma consistent_process_logic a b c d : keeps election_view_consistent (_process_logic a b c d).
Proof.
  unfold _process_logic.
  apply keeps_bind; [apply consistent_check|intros _].
  apply keeps_by_core.
  apply preserves_bind; [exact _|apply preserves_get; exact _|intros s].
  apply preserves_bind; [exact _| |intros _; apply core_process_tasks].
  apply preserves_when; [exact _|]. apply preserves_send_heartbeat; [exact _|by_fields].
Qed.

Lemma consistent_iteration period r :
  keeps election_view_consistent (update_loop_iteration period r).
Proof.
  unfold update_loop_iteration.
  apply keeps_bind; [|intros _; apply keeps_bind; [apply consistent_process_logic|intros _]].
  - apply keeps_by_core. apply preserves_modify. by_fields.
  - apply keeps_by_core, core_update_physics.
Qed.

Lemma consistent_iterations period rs :
  keeps election_view_consistent (update_loop_iterations period rs).
Proof.
  induction rs as [|r rs IH]; cbn [update_loop_iterations].
  - intros s I. exact I.
  - apply keeps_bind; [apply consistent_iteration|intros _; exact IH].
Qed.

(** X6. The election view stays consistent over the whole life of a node:
    a LEADER holds its own id as leader id, and a node in ELECTION_WAIT
    holds no leader id and no leader position.  This is true of a new agent
    and is kept by every entry point: by the handling of any received
    bytes, by the logic step, by the motion step and by any number of
    iterations of the control loop, for all clock readings and jitter
    samples, also when a step raises. *)
Theorem election_view_stays_consistent :
  (forall now id total caps, election_view_consistent (init now id total caps))
  /\ (forall now data, keeps election_view_consistent (on_message_received now data))
  /\ (forall t_hb t_enter t_wait jitter,
        keeps election_view_consistent (_process_logic t_hb t_enter t_wait jitter))
  /\ (forall dt, keeps election_view_consistent (_update_physics dt))
  /\ (forall rs, keeps election_view_consistent (update_loop rs)).
Proof.
  split; [|split; [|split; [|split]]].
  - intros. split; intros H; discriminate H.
  - apply consistent_received.
  - apply consistent_process_logic.
  - intros dt. apply keeps_by_core, core_update_physics.
  - intros rs. unfold update_loop. cbv zeta.
    apply keeps_bind; [intros s I; exact I|intros period; apply consistent_iterations].
Qed.

(** ** The control loop *)

Lemma fixed_check a b c d :
  preserves (unchanged (fun s => (tick s, fixed s))) (_check_election_timeout a b c d).
Proof. unfold _check_election_timeout. frame by_fields. Qed.

Lemma fixed_calculate_utility t :
  preserves (unchanged (fun s => (tick s, fixed s))) (_calculate_utility t).
Proof. unfold _calculate_utility. frame by_fields. Qed.

Lemma fixed_process_tasks_loop items :
  forall i, preserves (unchanged (fun s => (tick s, fixed s))) (_process_tasks_loop items i).
Proof.
  induction items as [|[task_id task] rest IH]; intros i; cbn [_process_tasks_loop].
  - apply preserves_ret; exact _.
  - apply preserves_bind; [exact _| |intros _; apply IH].
    apply preserves_when; [exact _|].
    apply preserves_bind; [exact _|apply fixed_calculate_utility|].
    frame by_fields.
Qed.

Lemma fixed_process_logic a b c d :
  preserves (unchanged (fun s => (tick s, fixed s))) (_process_logic a b c d).
Proof.
  unfold _process_logic.
  apply preserves_bind; [exact _|apply fixed_check|intros _].
  apply preserves_bind; [exact _|apply preserves_get; exact _|intros s].
  apply preserves_bind; [exact _| |intros _].
  - apply preserves_when; [exact _|]. apply preserves_send_heartbeat; [exact _|by_fields].
  - unfold _process_tasks.
    apply preserves_bind; [exact _|apply preserves_get; exact _|].
    intros s'. apply fixed_process_tasks_loop.
Qed.

Lemma fixed_update_physics dt :
  preserves (unchanged (fun s => (tick s, fixed s))) (_update_physics dt).
Proof. unfold _update_physics. frame by_fields. Qed.

Lemma bind_modify {B} f (k : unit -> M B) s : bind (modify f) k s = k tt (f s).
Proof. reflexivity. Qed.

Lemma iteration_ticks period r s :
  let s' := snd (run (update_loop_iteration period r) s) in
  tick s' = tick s + 1 /\ fixed s' = fixed s.
Proof.
  cbn zeta. unfold update_loop_iteration, run. rewrite bind_modify.
  assert (P : preserves (unchanged (fun s => (tick s, fixed s)))
                (_process_logic (read_hb r) (read_enter r) (read_wait r) (read_jitter r) ;;
                 _update_physics period)).
  { apply preserves_bind; [exact _|apply fixed_process_logic|intros _; apply fixed_update_physics]. }
  specialize (P (next_tick s)). unfold unchanged in P.
  cbn beta in P. apply pair_equal_spec in P as [P1 P2].
  rewrite P1, P2. split; [reflexivity|]. destruct s; reflexivity.
Qed.

Lemma iterations_tick period rs :
  forall s,
    let r := run (update_loop_iterations period rs) s in
    fixed (snd r) = fixed s
    /\ tick s <= tick (snd r) <= tick s + Z.of_nat (length rs)
    /\ (fst r = Ret tt -> tick (snd r) = tick s + Z.of_nat (length rs)).
Proof.
  induction rs as [|r rs IH]; intros s; cbn zeta.
  - cbn. repeat split; lia.
  - cbn [update_loop_iterations length]. unfold run, bind.
    pose proof (iteration_ticks period r s) as [T F]. cbn zeta in T, F. unfold run in T, F.
    destruct (update_loop_iteration period r s) as [[[]|e] s1]; cbn [fst snd] in *.
    + specialize (IH s1). cbn zeta in IH. unfold run in IH.
      destruct IH as (F' & B & E). rewrite F', F, T in *.
      split; [reflexivity|]. split; [lia|]. intros H. rewrite (E H). lia.
    + split; [exact F|]. split; [lia|]. discriminate.
Qed.

(** X7. The control loop counts its iterations in the tick: each started
    iteration advances the tick by exactly one and nothing else in the
    loop assigns it, so after [n] iterations that did not raise the tick is
    the initial tick plus [n]; in every case it lies between the initial
    tick and the initial tick plus [n].  The loop never changes the node's
    id, the swarm size, the capabilities, the speed limit or the sensor
    readings. *)
Theorem loop_counts_ticks (s : SwarmAgent) (rs : list Readings) :
  let r := run (update_loop rs) s in
  fixed (snd r) = fixed s
  /\ tick s <= tick (snd r) <= tick s + Z.of_nat (length rs)
  /\ (fst r = Ret tt -> tick (snd r) = tick s + Z.of_nat (length rs)).
Proof.
  cbn zeta. unfold update_loop. cbv zeta. unfold run, bind, lift.
  change (py_div 1 10) with (Ret (1 / 10)%float). cbv iota.
  apply (iterations_tick (1 / 10)%float rs s).
Qed.

Lemma check_as_leader s a b c d :
  state s = LEADER -> run (_check_election_timeout a b c d) s = (Ret tt, s).
Proof. intros Es. unfold _check_election_timeout. mstep. rewrite Es. reflexivity. Qed.

Lemma process_logic_leader s a b c d :
  state s = LEADER ->
  run (_process_logic a b c d) s = run (_send_heartbeat ;; _process_tasks) s.
Proof.
  intros Es. unfold _process_logic, run. unfold bind at 1.
  pose proof (check_as_leader s a b c d Es) as C. unfold run in C. rewrite C.
  unfold bind at 1. unfold get. rewrite Es. reflexivity.
Qed.

Lemma core_iteration_leader period r s :
  state s = LEADER ->
  election_core (snd (run (update_loop_iteration period r) s)) = election_core s.
Proof.
  intros Es. unfold update_loop_iteration, run. rewrite bind_modify.
  assert (E1 : state (next_tick s) = LEADER) by exact Es.
  unfold bind at 1.
  pose proof (process_logic_leader (next_tick s) (read_hb r) (read_enter r) (read_wait r)
                (read_jitter r) E1) as L. unfold run in L. rewrite L.
  assert (P : preserves (unchanged election_core)
                ((_send_heartbeat ;; _process_tasks) ;; _update_physics period)).
  { apply preserves_bind; [exact _| |intros _; apply core_update_physics].
    apply preserves_bind; [exact _| |intros _; apply core_process_tasks].
    apply preserves_send_heartbeat; [exact _|by_fields]. }
  specialize (P (next_tick s)). unfold unchanged in P. unfold bind at 1 in P.
  rewrite P. destruct s; reflexivity.
Qed.

Lemma core_iterations_leader period rs :
  forall s, state s = LEADER ->
    election_core (snd (run (update_loop_iterations period rs) s)) = election_core s.
Proof.
  induction rs as [|r rs IH]; intros s Es; [reflexivity|].
  cbn [update_loop_iterations]. unfold run, bind.
  pose proof (core_iteration_leader period r s Es) as C. unfold run in C.
  destruct (update_loop_iteration period r s) as [[[]|e] s1]; cbn [snd] in *; [|exact C].
  assert (E1 : state s1 = LEADER).
  { unfold election_core, election_view in C. injection C as _ -> _. exact Es. }
  rewrite <- C. apply (IH s1 E1).
Qed.

(** X8. A LEADER never steps down on its own.  Through any number of
    iterations of the control loop, whatever the clock readings and
    whatever its tasks and sensors, its role, leader id, leader position,
    heartbeat time and election timers stay as they are, also when an
    iteration raises: only a received frame can demote a leader. *)
Theorem leader_never_times_out (s : SwarmAgent) (rs : list Readings) :
  state s = LEADER ->
  let s' := snd (run (update_loop rs) s) in
  state s' = LEADER /\ election_view s' = election_view s.
Proof.
  intros Es. cbn zeta. unfold update_loop. cbv zeta. unfold run, bind, lift.
  change (py_div 1 10) with (Ret (1 / 10)%float). cbv iota.
  pose proof (core_iterations_leader (1 / 10)%float rs s Es) as C. unfold run in C.
  unfold election_core in C. apply pair_equal_spec in C as [_ C].
  split; [|exact C]. rewrite <- Es.
  exact (f_equal (fun v => fst (fst (fst (fst (fst v))))) C).
Qed.

(** *** The heartbeat cadence of an idle leader *)

Lemma process_tasks_loop_none_open items :
  Forall (fun kt => status (snd kt) <> OPEN) items ->
  forall i s, _process_tasks_loop items i s = (Ret tt, s).
Proof.
  induction 1 as [|[task_id task] rest Hn _ IH]; intros i s; [reflexivity|].
  cbn [_process_tasks_loop]. cbn [snd] in Hn. unfold bind, when.
  destruct (status task); try contradiction; cbn; apply IH.
Qed.

Lemma update_physics_no_target dt s :
  target s = None -> state s <> FOLLOWER \/ leader_pos s = None ->
  run (_update_physics dt) s = (Ret tt, s).
Proof.
  intros Ht Hs. unfold _update_physics. mstep.
  assert (C : AgentState_eqb (state s) FOLLOWER
              && match leader_pos s with Some _ => true | None => false end = false).
  { destruct Hs as [Hs| ->]; [|apply andb_false_r].
    destruct (state s); try reflexivity. contradiction. }
  rewrite C. cbn. rewrite Ht. reflexivity.
Qed.

Lemma update_physics_idle dt s :
  target s = None -> state s <> FOLLOWER \/ leader_pos s = None ->
  _update_physics dt s = (Ret tt, s).
Proof. exact (update_physics_no_target dt s). Qed.

Lemma iteration_idle_leader period r s :
  idle_leader s -> 0 <= agent_id s < 256 -> 0 <= tick s + 1 < 4294967296 ->
  packs_as_f32 (fst (position s)) -> packs_as_f32 (snd (position s)) ->
  run (update_loop_iteration period r) s
  = (Ret tt, with_sent (sent s ++ heartbeats_due s (tick s) 1) (later 1 s)).
Proof.
  intros (Es & Ht & Hn) Hi Hk [_ Hx] [_ Hy].
  unfold update_loop_iteration, run. rewrite bind_modify. unfold bind at 1.
  pose proof (process_logic_leader (next_tick s) (read_hb r) (read_enter r) (read_wait r)
                (read_jitter r) Es) as L. unfold run in L. rewrite L. clear L.
  unfold bind at 1.
  assert (P : struct_pack_ff (fst (position (next_tick s))) (snd (position (next_tick s)))
              = Ret (f32_be (fst (position s)) ++ f32_be (snd (position s))))
    by (apply struct_pack_ff_ok; assumption).
  rewrite (_send_heartbeat_ok _ _ P). unfold when, pass, ret.
  cbn [heartbeats_due]. rewrite app_nil_r.
  change (tick (next_tick s)) with (tick s + 1).
  assert (NF : state s <> FOLLOWER) by congruence.
  destruct ((tick s + 1) mod 10 =? 0).
  - rewrite _send_msg_ok by (split; assumption).
    unfold _process_tasks, bind, get.
    rewrite process_tasks_loop_none_open by exact Hn.
    rewrite update_physics_idle by (exact Ht || (left; exact NF)).
    destruct s; reflexivity.
  - unfold _process_tasks, bind, get.
    rewrite process_tasks_loop_none_open by exact Hn.
    rewrite update_physics_idle by (exact Ht || (left; exact NF)).
    rewrite app_nil_r. destruct s; reflexivity.
Qed.

Lemma heartbeats_due_ext s s' :
  agent_id s' = agent_id s -> position s' = position s ->
  forall n tk, heartbeats_due s' tk n = heartbeats_due s tk n.
Proof.
  intros Hi Hp. induction n as [|n IH]; intros tk; [reflexivity|].
  cbn [heartbeats_due]. rewrite IH. unfold heartbeat_frame. rewrite Hi, Hp. reflexivity.
Qed.

Lemma later_chain s h due n :
  with_sent (sent (with_sent (sent s ++ h) (later 1 s)) ++ due)
    (later (Z.of_nat n) (with_sent (sent s ++ h) (later 1 s)))
  = with_sent (sent s ++ h ++ due) (later (Z.of_nat (S n)) s).
Proof.
  destruct s. unfold later, with_sent. cbn -[Z.add Z.of_nat app].
  rewrite <- app_assoc. f_equal. lia.
Qed.

Lemma iterations_idle_leader period rs :
  forall s,
    idle_leader s -> 0 <= agent_id s < 256 ->
    0 <= tick s -> tick s + Z.of_nat (length rs) < 4294967296 ->
    packs_as_f32 (fst (position s)) -> packs_as_f32 (snd (position s)) ->
    run (update_loop_iterations period rs) s
    = (Ret tt, with_sent (sent s ++ heartbeats_due s (tick s) (length rs))
                 (later (Z.of_nat (length rs)) s)).
Proof.
  induction rs as [|r rs IH]; intros s Hl Hi Hk Hn Hx Hy.
  - cbn [update_loop_iterations length heartbeats_due]. rewrite app_nil_r.
    unfold run, pass, ret. f_equal. destruct s; unfold later, with_sent; cbn [Z.of_nat].
    cbn -[Z.add]. rewrite Z.add_0_r. reflexivity.
  - cbn [update_loop_iterations length]. unfold run, bind.
    cbn [length] in Hn.
    pose proof (iteration_idle_leader period r s Hl Hi ltac:(lia) Hx Hy) as E.
    unfold run in E. rewrite E. clear E.
    set (s1 := with_sent (sent s ++ heartbeats_due s (tick s) 1) (later 1 s)).
    assert (Hl1 : idle_leader s1) by exact Hl.
    assert (T1 : tick s1 = tick s + 1) by reflexivity.
    assert (A1 : 0 <= tick s1) by (rewrite T1; lia).
    assert (A2 : tick s1 + Z.of_nat (length rs) < 4294967296) by (rewrite T1; lia).
    specialize (IH s1 Hl1 Hi A1 A2 Hx Hy).
    unfold run in IH. rewrite IH. f_equal.
    rewrite (heartbeats_due_ext s s1 eq_refl eq_refl), T1.
    subst s1. cbn [heartbeats_due]. rewrite app_nil_r. apply later_chain.
Qed.

Lemma heartbeats_due_count s n :
  forall tk, Z.of_nat (length (heartbeats_due s tk n)) = (tk + Z.of_nat n) / 10 - tk / 10.
Proof.
  induction n as [|n IH]; intros tk.
  - cbn. rewrite Z.add_0_r. lia.
  - cbn [heartbeats_due]. rewrite length_app, Nat2Z.inj_add, IH.
    replace (tk + Z.of_nat (S n)) with (tk + 1 + Z.of_nat n) by lia.
    destruct (Z.eqb_spec ((tk + 1) mod 10) 0) as [E|E]; cbn [length];
      Z.div_mod_to_equations; lia.
Qed.

(** X9. The heartbeat cadence.  A LEADER with no target and no open task,
    whose coordinates are numbers (not NaN) within binary32 range and whose
    id and ticks fit the header, runs the control loop without raising and without changing anything
    but its tick and its outbox: over [n] iterations it hands over exactly
    one HEARTBEAT, carrying its position, on each tick that is a multiple
    of 10 and nothing on the other ticks, that is (tick + n) / 10 - tick / 10
    heartbeats in all, one per second at the loop's 10 Hz. *)
Theorem idle_leader_heartbeats (s : SwarmAgent) (rs : list Readings) :
  idle_leader s -> 0 <= agent_id s < 256 ->
  0 <= tick s -> tick s + Z.of_nat (length rs) < 4294967296 ->
  packs_as_f32 (fst (position s)) -> packs_as_f32 (snd (position s)) ->
  run (update_loop rs) s
  = (Ret tt, with_sent (sent s ++ heartbeats_due s (tick s) (length rs))
               (later (Z.of_nat (length rs)) s))
  /\ Z.of_nat (length (heartbeats_due s (tick s) (length rs)))
     = (tick s + Z.of_nat (length rs)) / 10 - tick s / 10.
Proof.
  intros Hl Hi Hk Hn Hx Hy. split; [|apply heartbeats_due_count].
  unfold update_loop. cbv zeta. unfold run, bind, lift.
  change (py_div 1 10) with (Ret (1 / 10)%float). cbv iota.
  apply (iterations_idle_leader (1 / 10)%float rs s); assumption.
Qed.

(** ** Values that do not fit the wire format *)

Local Transparent _send_msg _send_heartbeat.

Lemma _send_msg_raises t p s :
  ~ header_ok s -> _send_msg t p s = (Raise StructError, s).
Proof.
  intros H. unfold _send_msg, _pack_header, bind, get, lift, struct_pack_BBI.
  replace (pack_B (MsgType_value t)) with (Ret (A:=bytes) [byte_of_Z (MsgType_value t)])
    by (destruct t; reflexivity).
  cbn [obind]. unfold pack_B, pack_I, header_ok in *.
  destruct (Z.leb_spec 0 (agent_id s)), (Z.ltb_spec (agent_id s) 256); cbn; try reflexivity.
  destruct (Z.leb_spec 0 (tick s)), (Z.ltb_spec (tick s) 4294967296); cbn; try reflexivity.
  exfalso. apply H. lia.
Qed.

Lemma _send_heartbeat_overflow s :
  f32_bits (fst (position s)) = None \/ f32_bits (snd (position s)) = None ->
  _send_heartbeat s = (Raise OverflowError, s).
Proof.
  intros H. unfold _send_heartbeat, bind, get, lift, struct_pack_ff, pack_f.
  destruct H as [-> | ->]; [reflexivity|].
  destruct (f32_bits (fst (position s))); reflexivity.
Qed.

Local Opaque _send_msg _send_heartbeat.

(** X10. An id or a tick that does not fit the header makes the
    acclamation fail half way: when the election wait of such a node
    expires, the check raises struct.error after the node has made itself
    LEADER with its own id as leader id, and no ELECTION_ACCLAIM or
    COORDINATOR is handed over. *)
Theorem acclamation_outside_header_range (s : SwarmAgent)
    (t_hb t_enter t_wait jitter : float) :
  state s = ELECTION_WAIT -> ~ header_ok s ->
  (t_wait - election_wait_start s >? election_delay s)%float = true ->
  run (_check_election_timeout t_hb t_enter t_wait jitter) s
  = (Raise StructError, with_leader_id (Some (agent_id s)) (with_state LEADER s)).
Proof.
  intros Es Hh G. unfold _check_election_timeout. mstep.
  rewrite Es. cbn. rewrite Es. cbn. rewrite G. cbn.
  unfold struct_pack_B, pack_B.
  destruct ((0 <=? agent_id s) && (agent_id s <? 256)); cbn; [|reflexivity].
  rewrite _send_msg_raises; [reflexivity|]. exact Hh.
Qed.

Lemma acclamation_outside_header_range_witness :
  state sample_wide = ELECTION_WAIT /\ ~ header_ok sample_wide
  /\ run (_check_election_timeout 1006 1006 1006 0) sample_wide
     = (Raise StructError, with_leader_id (Some 300) (with_state LEADER sample_wide)).
Proof.
  assert (Hh : ~ header_ok sample_wide) by (unfold header_ok; cbn; lia).
  refine (conj eq_refl (conj Hh _)).
  exact (acclamation_outside_header_range sample_wide 1006 1006 1006 0 eq_refl Hh eq_refl).
Defined.

(** X11. A LEADER packs its position on every logic step, before it looks
    at the tick: once a coordinate is finite but beyond binary32 range the
    step raises OverflowError on every tick, including the ticks on which
    no heartbeat is due, and the claim scan that follows is not reached. *)
Theorem leader_beyond_f32_range (s : SwarmAgent) (t_hb t_enter t_wait jitter : float) :
  state s = LEADER ->
  f32_bits (fst (position s)) = None \/ f32_bits (snd (position s)) = None ->
  run (_process_logic t_hb t_enter t_wait jitter) s = (Raise OverflowError, s).
Proof.
  intros Es H. rewrite (process_logic_leader _ _ _ _ _ Es). unfold run, bind.
  rewrite (_send_heartbeat_overflow _ H). reflexivity.
Qed.

(** ** The claim table *)

Lemma gtb_nan_plus x u : is_nan x = true -> (u >? x + 5)%float = false.
Proof.
  rewrite is_nan_spec, ltb_spec, add_spec. intros H.
  destruct (Prim2SF x); try discriminate H. reflexivity.
Qed.

Lemma gtb_infinity u : (u >? infinity)%float = false.
Proof.
  rewrite ltb_spec. change (Prim2SF infinity) with (S754_infinity false).
  unfold SFltb. destruct (Prim2SF u) as [[]|[]| |[] m e]; reflexivity.
Qed.

Lemma claims_task_claim sender payload s :
  let s' := snd (run (_handle_task_claim sender payload) s) in
  (forall task_id c, task_claims s !! task_id = Some c ->
     exists c', task_claims s' !! task_id = Some c' /\ same_or_better c c')
  /\ (state s <> LEADER -> task_claims s' = task_claims s).
Proof.
  cbn zeta.
  assert (Same : forall s', task_claims s' = task_claims s ->
            (forall task_id c, task_claims s !! task_id = Some c ->
               exists c', task_claims s' !! task_id = Some c' /\ same_or_better c c')
            /\ (state s <> LEADER -> task_claims s' = task_claims s)).
  { intros s' E. split; [|intros _; exact E].
    intros k c H. exists c. rewrite E. split; [exact H|now left]. }
  assert (Ins : forall u k s', state s = LEADER ->
            claim_accepted (task_claims s !! k) u = true ->
            task_claims s' = <[k := mkClaim sender u]> (task_claims s) ->
            (forall task_id c, task_claims s !! task_id = Some c ->
               exists c', task_claims s' !! task_id = Some c' /\ same_or_better c c')
            /\ (state s <> LEADER -> task_claims s' = task_claims s)).
  { intros u k s' El A E. split; [|intros N; contradiction].
    intros k' c H. rewrite E. destruct (Z.eq_dec k k') as [<-|N].
    - rewrite lookup_insert_eq. eexists. split; [reflexivity|].
      rewrite H in A. right. exact A.
    - rewrite lookup_insert_ne by exact N. exists c. split; [exact H|now left]. }
  unfold _handle_task_claim. mstep.
  destruct (struct_unpack_If payload) as [[task_id u]|]; cbn; [|now apply Same].
  destruct (state s) eqn:Es; cbn; try (now apply Same).
  destruct (task_claims s !! task_id) as [c|] eqn:Ec; cbn.
  - destruct (u >? utility c + 5)%float eqn:G; cbn.
    + apply (Ins u task_id); [reflexivity|rewrite Ec; exact G|].
      destruct (struct_pack_IB _ _); cbn; [send_cases|]; reflexivity.
    + destruct (winner c =? sender); cbn; [now apply Same|].
      destruct (struct_pack_IB _ _); cbn; [send_cases|]; now apply Same.
  - apply (Ins u task_id); [reflexivity|rewrite Ec; reflexivity|].
    destruct (struct_pack_IB _ _); cbn; [send_cases|]; reflexivity.
Qed.

Lemma claims_task_conflict sender payload :
  preserves (unchanged task_claims) (_handle_task_conflict sender payload).
Proof. unfold _handle_task_conflict. frame by_fields. Qed.

(** X12. The claim table only gains.  Whatever bytes a node receives, an
    entry of its claim table is never removed, and it is replaced only by a
    claim whose utility is greater than the entry's utility plus 5.0; a node
    that is not LEADER leaves its table untouched. *)
Theorem claims_are_never_dropped (s : SwarmAgent) (now : float) (data : bytes) :
  let s' := snd (run (on_message_received now data) s) in
  (forall task_id c, task_claims s !! task_id = Some c ->
     exists c', task_claims s' !! task_id = Some c' /\ same_or_better c c')
  /\ (state s <> LEADER -> task_claims s' = task_claims s).
Proof.
  cbn zeta.
  assert (Same : forall s', allocation s' = allocation s ->
            (forall task_id c, task_claims s !! task_id = Some c ->
               exists c', task_claims s' !! task_id = Some c' /\ same_or_better c c')
            /\ (state s <> LEADER -> task_claims s' = task_claims s)).
  { intros s' E. apply pair_equal_spec in E as [_ E]. split; [|intros _; exact E].
    intros k c H. exists c. rewrite E. split; [exact H|now left]. }
  destruct (received_cases now data s)
    as [E|(t & sd & k3 & k2 & k1 & k0 & payload & -> & [[T E]|[[T E]|[[T E]|[[T E]|[T E]]]]])];
    rewrite E; clear E; cbn [snd].
  - now apply Same.
  - apply Same, alloc_heartbeat.
  - apply Same, alloc_acclaim.
  - apply Same, alloc_coordinator.
  - apply claims_task_claim.
  - pose proof (claims_task_conflict (Z_of_byte sd) payload s) as E. unfold unchanged in E.
    split; [|intros _; exact E].
    intros k c H. exists c. unfold run. rewrite E. split; [exact H|now left].
Qed.

(** X13. An entry whose utility is NaN or +infinity can never be displaced:
    once the claim table holds such an entry for a task, every later
    TASK_CLAIM for that task is refused, whoever sends it and whatever
    utility it carries, and the table stays as it is. *)
Theorem unbeatable_claim (s : SwarmAgent) (sender : Z) (payload : bytes)
    (task_id : Z) (u : float) (c : Claim) :
  struct_unpack_If payload = Ret (task_id, u) ->
  task_claims s !! task_id = Some c ->
  is_nan (utility c) = true \/ utility c = infinity ->
  claim_accepted (Some c) u = false
  /\ task_claims (snd (run (_handle_task_claim sender payload) s)) = task_claims s.
Proof.
  intros Hp Hc Hu.
  assert (G : (u >? utility c + 5)%float = false).
  { destruct Hu as [N| ->]; [apply gtb_nan_plus, N|].
    change (infinity + 5)%float with infinity. apply gtb_infinity. }
  split; [exact G|].
  unfold _handle_task_claim. mstep. rewrite Hp. cbn.
  destruct (state s); cbn; try reflexivity.
  rewrite Hc. cbn. rewrite G.
  destruct (winner c =? sender); cbn; [reflexivity|].
  destruct (struct_pack_IB _ _); cbn; [send_cases|]; reflexivity.
Qed.

Lemma unbeatable_claim_witness :
  struct_unpack_If [x00; x00; x00; x65; x7f; x7f; xff; xff]
  = Ret (101, 0x1.fffffep+127%float)
  /\ task_claims sample_stuck !! 101 = Some (mkClaim 2 nan)
  /\ task_claims (snd (run (_handle_task_claim 3 [x00; x00; x00; x65; x7f; x7f; xff; xff])
                         sample_stuck))
     = task_claims sample_stuck.
Proof.
  assert (Hp : struct_unpack_If [x00; x00; x00; x65; x7f; x7f; xff; xff]
               = Ret (101, 0x1.fffffep+127%float)) by (vm_compute; reflexivity).
  assert (Hc : task_claims sample_stuck !! 101 = Some (mkClaim 2 nan))
    by (vm_compute; reflexivity).
  refine (conj Hp (conj Hc _)).
  exact (proj2 (unbeatable_claim sample_stuck 3 _ 101 _ (mkClaim 2 nan) Hp Hc
                  (or_introl eq_refl))).
Defined.

(** ** The task map *)

Lemma task_evolves_refl kt : task_evolves kt kt.
Proof. repeat split; auto. Qed.

Lemma task_evolves_trans a b c : task_evolves a b -> task_evolves b c -> task_evolves a c.
Proof.
  intros (A1 & A2 & A3 & A4) (B1 & B2 & B3 & B4). repeat split; try congruence. auto.
Qed.

Lemma Forall2_task_evolves_refl l : Forall2 task_evolves l l.
Proof. induction l; constructor; [apply task_evolves_refl|assumption]. Qed.

#[local] Instance tasks_evolve_preorder : PreOrder tasks_evolve.
Proof.
  split.
  - intros s. apply Forall2_task_evolves_refl.
  - intros a b c. unfold tasks_evolve. generalize (tasks a) (tasks b) (tasks c).
    intros la lb lc H. revert lc. induction H as [|x y la lb Hxy _ IH]; intros lc H2.
    + inversion H2. constructor.
    + inversion H2 as [|y' z lb' lc' Hyz Hrest]; subst. constructor.
      * exact (task_evolves_trans _ _ _ Hxy Hyz).
      * apply IH, Hrest.
Qed.

Lemma tasks_evolve_by_tasks s s' : tasks s' = tasks s -> tasks_evolve s s'.
Proof. intros E. unfold tasks_evolve. rewrite E. apply Forall2_task_evolves_refl. Qed.

Ltac same_tasks := intros; apply tasks_evolve_by_tasks; by_fields.

Lemma evolve_check a b c d : preserves tasks_evolve (_check_election_timeout a b c d).
Proof. unfold _check_election_timeout. frame same_tasks. Qed.

Lemma evolve_heartbeat now sender payload :
  preserves tasks_evolve (_handle_heartbeat now sender payload).
Proof. unfold _handle_heartbeat. frame same_tasks. Qed.

Lemma evolve_acclaim now sender : preserves tasks_evolve (_handle_election_acclaim now sender).
Proof. unfold _handle_election_acclaim. frame same_tasks. Qed.

Lemma evolve_coordinator now sender : preserves tasks_evolve (_handle_coordinator now sender).
Proof. unfold _handle_coordinator. frame same_tasks. Qed.

Lemma evolve_task_claim sender payload :
  preserves tasks_evolve (_handle_task_claim sender payload).
Proof. unfold _handle_task_claim. frame same_tasks. Qed.

Lemma set_task_status_evolves k v ts :
  v <> OPEN -> Forall2 task_evolves ts (set_task_status k v ts).
Proof.
  intros Hv. induction ts as [|[k' t] ts IH]; cbn; constructor; [|exact IH].
  cbn. destruct (k' =? k); [|apply task_evolves_refl].
  repeat split. cbn. intros H. contradiction.
Qed.

Lemma evolve_task_conflict sender payload :
  preserves tasks_evolve (_handle_task_conflict sender payload).
Proof.
  unfold _handle_task_conflict. frame same_tasks;
    apply preserves_modify; intros s0; unfold tasks_evolve; cbn [tasks with_tasks];
    apply set_task_status_evolves; discriminate.
Qed.

Lemma evolve_update_physics dt : preserves tasks_evolve (_update_physics dt).
Proof. unfold _update_physics. frame same_tasks. Qed.

Lemma evolve_process_tasks_loop items :
  forall pre s, tasks s = pre ++ items ->
    tasks_evolve s (snd (_process_tasks_loop items (length pre) s)).
Proof.
  induction items as [|[task_id task] rest IH]; intros pre s Ht; [reflexivity|].
  assert (Next : forall s1 x, tasks s1 = pre ++ x :: rest -> tasks_evolve s s1 ->
            tasks_evolve s (snd (_process_tasks_loop rest (S (length pre)) s1))).
  { intros s1 x H1 E1. etransitivity; [exact E1|].
    specialize (IH (pre ++ [x]) s1). rewrite length_app, Nat.add_1_r, <- app_assoc in IH.
    apply IH, H1. }
  cbn [_process_tasks_loop]. unfold bind, when, pass, ret.
  destruct (status task) eqn:Est;
    try (apply (Next s (task_id, task) Ht); reflexivity).
  change (_calculate_utility task s) with (run (_calculate_utility task) s).
  rewrite _calculate_utility_reads.
  destruct (utility_of _ _ task) as [u|e]; [|reflexivity].
  destruct (u >? 20)%float.
  2:{ apply (Next s (task_id, task) Ht). reflexivity. }
  unfold modify, lift.
  set (s1 := with_tasks (<[length pre := (task_id, with_status TENTATIVE task)]> (tasks s)) s).
  assert (H1 : tasks s1 = pre ++ (task_id, with_status TENTATIVE task) :: rest).
  { subst s1. cbn [tasks with_tasks]. rewrite Ht. apply insert_at_length. }
  assert (E1 : tasks_evolve s s1).
  { unfold tasks_evolve. rewrite H1, Ht. apply Forall2_app; [apply Forall2_task_evolves_refl|].
    constructor; [|apply Forall2_task_evolves_refl].
    repeat split. cbn. discriminate. }
  destruct (struct_pack_If task_id u) as [p|e]; [|exact E1].
  destruct (_send_msg_cases TASK_CLAIM p s1) as [E|E]; rewrite E.
  - apply (Next _ (task_id, with_status TENTATIVE task)); [exact H1|].
    etransitivity; [exact E1|]. apply tasks_evolve_by_tasks. reflexivity.
  - exact E1.
Qed.

Lemma evolve_process_tasks : preserves tasks_evolve _process_tasks.
Proof.
  intros s. unfold _process_tasks, bind, get.
  apply (evolve_process_tasks_loop (tasks s) [] s). reflexivity.
Qed.

Lemma evolve_process_logic a b c d : preserves tasks_evolve (_process_logic a b c d).
Proof.
  unfold _process_logic.
  apply preserves_bind; [exact _|apply evolve_check|intros _].
  apply preserves_bind; [exact _|apply preserves_get; exact _|intros s].
  apply preserves_bind; [exact _| |intros _; apply evolve_process_tasks].
  apply preserves_when; [exact _|]. apply preserves_send_heartbeat; [exact _|same_tasks].
Qed.

Lemma evolve_iterations period rs : preserves tasks_evolve (update_loop_iterations period rs).
Proof.
  induction rs as [|r rs IH]; cbn [update_loop_iterations].
  - apply preserves_ret; exact _.
  - apply preserves_bind; [exact _| |intros _; exact IH].
    unfold update_loop_iteration.
    apply preserves_bind; [exact _|apply preserves_modify; same_tasks|intros _].
    apply preserves_bind; [exact _|apply evolve_process_logic|intros _].
    apply evolve_update_physics.
Qed.

Lemma evolve_received now data : preserves tasks_evolve (on_message_received now data).
Proof.
  intros s.
  destruct (received_cases now data s)
    as [E|(t & sd & k3 & k2 & k1 & k0 & payload & -> & [[T E]|[[T E]|[[T E]|[[T E]|[T E]]]]])];
    unfold run in E; rewrite E; clear E; cbn [snd].
  - reflexivity.
  - apply evolve_heartbeat.
  - apply evolve_acclaim.
  - apply evolve_coordinator.
  - apply evolve_task_claim.
  - apply evolve_task_conflict.
Qed.

(** X14. The task map keeps its shape, and no task is reopened.  No entry
    point (handling received bytes, the logic step, the motion step, any
    number of iterations of the control loop) adds, removes or reorders a
    task or changes the position or the required capability of one; and a
    task whose status is Open afterwards was Open before: once a task has
    left Open it never returns to it.  This also holds of the state left
    behind when a step raises. *)
Theorem tasks_are_never_reopened :
  (forall now data, preserves tasks_evolve (on_message_received now data))
  /\ (forall t_hb t_enter t_wait jitter,
        preserves tasks_evolve (_process_logic t_hb t_enter t_wait jitter))
  /\ (forall dt, preserves tasks_evolve (_update_physics dt))
  /\ (forall rs, preserves tasks_evolve (update_loop rs)).
Proof.
  split; [|split; [|split]].
  - apply evolve_received.
  - apply evolve_process_logic.
  - apply evolve_update_physics.
  - intros rs. unfold update_loop. cbv zeta.
    apply preserves_bind; [exact _|apply preserves_lift; exact _|intros period].
    apply evolve_iterations.
Qed.

(** ** The claim scan, once more *)

Lemma claimed_utility_ext s s' t :
  position s' = position s -> capabilities s' = capabilities s ->
  claimed_utility s' t = claimed_utility s t.
Proof. intros Hp Hc. unfold claimed_utility. rewrite Hp, Hc. reflexivity. Qed.

Lemma claimed_utility_scanned s kt :
  claimed_utility s (snd (scan_task s kt)) = None.
Proof.
  unfold scan_task. destruct (claimed_utility s (snd kt)) eqn:E; [reflexivity|exact E].
Qed.

Lemma claimable_scanned s s' kt :
  position s' = position s -> capabilities s' = capabilities s ->
  claimable s kt -> claimable s' (scan_task s kt).
Proof.
  intros Hp Hc H. unfold claimable, scan_task. rewrite Hp, Hc.
  destruct (claimed_utility s (snd kt)); [cbn; discriminate|exact H].
Qed.

(** X15. A task is claimed at most once.  After a claim scan that did not
    raise, no task of the node is both Open and worth more than 20.0, and a
    second scan from the same position sends nothing and changes nothing:
    a node repeats a TASK_CLAIM only if it moved or the task came back from
    outside the scan. *)
Theorem claim_scan_settles (s : SwarmAgent) :
  header_ok s -> Forall (claimable s) (tasks s) ->
  let s1 := snd (run _process_tasks s) in
  Forall (fun kt => claimed_utility s1 (snd kt) = None) (tasks s1)
  /\ run _process_tasks s1 = (Ret tt, s1).
Proof.
  intros Hh Hc. cbn zeta.
  pose proof (_process_tasks_loop_result s (tasks s) Hh Hc [] (sent s)) as L.
  cbn [length app] in L.
  assert (R : run _process_tasks s
              = (Ret tt, with_sent (sent s ++ concat (map (scan_frames s) (tasks s)))
                           (with_tasks (map (scan_task s) (tasks s)) s))).
  { unfold _process_tasks, run, bind, get. rewrite <- L. f_equal. destruct s; reflexivity. }
  rewrite R. cbn [snd].
  set (s1 := with_sent _ _).
  assert (Hp : position s1 = position s) by reflexivity.
  assert (Hcap : capabilities s1 = capabilities s) by reflexivity.
  assert (Ht : tasks s1 = map (scan_task s) (tasks s)) by reflexivity.
  assert (N : Forall (fun kt => claimed_utility s1 (snd kt) = None) (tasks s1)).
  { rewrite Ht. apply Forall_map. apply Forall_forall. intros kt _.
    rewrite (claimed_utility_ext s s1 _ Hp Hcap). apply claimed_utility_scanned. }
  split; [exact N|].
  assert (Hh1 : header_ok s1) by exact Hh.
  assert (Hc1 : Forall (claimable s1) (tasks s1)).
  { rewrite Ht. apply Forall_map. apply Forall_forall. intros kt Hin.
    apply claimable_scanned; [assumption..|].
    exact (proj1 (Forall_forall _ _) Hc kt Hin). }
  pose proof (_process_tasks_loop_result s1 (tasks s1) Hh1 Hc1 [] (sent s1)) as L1.
  cbn [length app] in L1.
  assert (F : concat (map (scan_frames s1) (tasks s1)) = []).
  { clear - N. induction N as [|kt l H _ IH]; [reflexivity|].
    cbn [map concat]. unfold scan_frames at 1. rewrite H, IH. reflexivity. }
  assert (T : map (scan_task s1) (tasks s1) = tasks s1).
  { clear - N. induction N as [|kt l H _ IH]; [reflexivity|].
    cbn [map]. unfold scan_task at 1. rewrite H, IH. reflexivity. }
  rewrite F, T, app_nil_r in L1.
  unfold _process_tasks, run, bind, get.
  replace (with_sent (sent s1) (with_tasks (tasks s1) s1)) with s1 in L1
    by (destruct s1; reflexivity).
  exact L1.
Qed.

Lemma Forall2_scanned_refl s l : Forall2 (scanned s) l l.
Proof. induction l; constructor; [left; reflexivity|assumption]. Qed.

Lemma scan_loop_trace s0 items :
  forall pre s,
    tasks s = pre ++ items ->
    position s = position s0 -> capabilities s = capabilities s0 ->
    agent_id s = agent_id s0 -> tick s = tick s0 ->
    (forall kt, In kt items -> In kt (tasks s0)) ->
    exists items' new,
      snd (_process_tasks_loop items (length pre) s)
      = with_sent (sent s ++ new) (with_tasks (pre ++ items') s)
      /\ Forall2 (scanned s0) items items'
      /\ Forall (claim_of s0) new.
Proof.
  induction items as [|[task_id task] rest IH]; intros pre s Ht Hp Hc Hi Hk Hin.
  - exists [], []. split; [|split; constructor].
    cbn. rewrite app_nil_r, <- Ht. destruct s; reflexivity.
  - assert (Stop : forall x out s1,
              s1 = with_sent (sent s ++ out) (with_tasks (pre ++ x :: rest) s) ->
              scanned s0 (task_id, task) x -> Forall (claim_of s0) out ->
              exists items' new,
                s1 = with_sent (sent s ++ new) (with_tasks (pre ++ items') s)
                /\ Forall2 (scanned s0) ((task_id, task) :: rest) items'
                /\ Forall (claim_of s0) new).
    { intros x out s1 -> Hx Ho. exists (x :: rest), out.
      split; [reflexivity|]. split; [|exact Ho].
      constructor; [exact Hx|apply Forall2_scanned_refl]. }
    assert (Next : forall x out s1,
              s1 = with_sent (sent s ++ out) (with_tasks (pre ++ x :: rest) s) ->
              scanned s0 (task_id, task) x -> Forall (claim_of s0) out ->
              exists items' new,
                snd (_process_tasks_loop rest (S (length pre)) s1)
                = with_sent (sent s ++ new) (with_tasks (pre ++ items') s)
                /\ Forall2 (scanned s0) ((task_id, task) :: rest) items'
                /\ Forall (claim_of s0) new).
    { intros x out s1 -> Hx Ho.
      destruct (IH (pre ++ [x]) (with_sent (sent s ++ out) (with_tasks (pre ++ x :: rest) s)))
        as (items' & new & R & F & C).
      - cbn [tasks with_sent with_tasks]. rewrite <- app_assoc. reflexivity.
      - exact Hp.
      - exact Hc.
      - exact Hi.
      - exact Hk.
      - intros kt Hkt. apply Hin. now right.
      - rewrite length_app, Nat.add_1_r in R.
        exists (x :: items'), (out ++ new). split; [|split].
        + rewrite R. cbn [sent with_sent with_tasks]. rewrite <- !app_assoc. reflexivity.
        + constructor; assumption.
        + apply Forall_app. now split. }
    assert (Same : s = with_sent (sent s ++ []) (with_tasks (pre ++ (task_id, task) :: rest) s))
      by (rewrite app_nil_r, <- Ht; destruct s; reflexivity).
    cbn [_process_tasks_loop]. unfold bind, when, pass, ret.
    destruct (status task) eqn:Est;
      try (apply (Next _ _ _ Same); [left; reflexivity|constructor]).
    change (_calculate_utility task s) with (run (_calculate_utility task) s).
    rewrite _calculate_utility_reads, Hp, Hc.
    destruct (utility_of _ _ task) as [u|e] eqn:Eu.
    2:{ cbn [snd]. apply (Stop _ _ _ Same); [left; reflexivity|constructor]. }
    destruct (u >? 20)%float eqn:G.
    2:{ apply (Next _ _ _ Same); [left; reflexivity|constructor]. }
    assert (Cu : claimed_utility s0 task = Some u).
    { unfold claimed_utility. rewrite Est, Eu, G. reflexivity. }
    unfold modify, lift.
    set (x := (task_id, with_status TENTATIVE task)).
    assert (Hx : scanned s0 (task_id, task) x).
    { right. cbn [fst snd]. rewrite Cu. repeat split; discriminate. }
    assert (E1 : with_tasks (<[length pre := x]> (tasks s)) s
                 = with_sent (sent s ++ []) (with_tasks (pre ++ x :: rest) s)).
    { rewrite Ht, insert_at_length, app_nil_r. destruct s; reflexivity. }
    destruct (struct_pack_If task_id u) as [p|e] eqn:Ep.
    2:{ cbn [snd]. apply (Stop _ _ _ E1); [exact Hx|constructor]. }
    match goal with
    | |- context [_send_msg TASK_CLAIM p ?s1] =>
        destruct (_send_msg_cases TASK_CLAIM p s1) as [E|E]; rewrite E
    end.
    2:{ cbn [snd]. apply (Stop _ _ _ E1); [exact Hx|constructor]. }
    apply (Next x [frame TASK_CLAIM (agent_id s) (tick s) p]).
    { rewrite E1. cbn [sent agent_id tick with_sent with_tasks]. rewrite app_nil_r.
      reflexivity. }
    { exact Hx. }
    constructor; [|constructor]. exists task_id, task, u, p.
    split; [apply Hin; now left|]. split; [exact Cu|]. split; [exact Ep|].
    rewrite Hi, Hk. reflexivity.
Qed.

Lemma gtb_20_mul_zero q : (q * 0 >? 20)%float = false.
Proof.
  rewrite ltb_spec, mul_spec. change (Prim2SF 0) with (S754_zero false).
  change (Prim2SF 20) with (S754_finite false 5629499534213120 (-48)).
  destruct (Prim2SF q) as [[]|[]| |[] m e]; reflexivity.
Qed.

Lemma unequipped_utility p caps t u :
  capability_missing caps t = true -> utility_of p caps t = Ret u -> (u >? 20)%float = false.
Proof.
  intros Hm Hu. destruct (utility_of_value _ _ _ _ Hu) as (d & _ & -> & _).
  unfold capability_match. rewrite Hm. apply gtb_20_mul_zero.
Qed.

Lemma unequipped_not_claimed s t :
  capability_missing (capabilities s) t = true -> claimed_utility s t = None.
Proof.
  intros Hm. unfold claimed_utility. destruct (status t); try reflexivity.
  destruct (utility_of _ _ t) as [u|] eqn:E; [|reflexivity].
  now rewrite (unequipped_utility _ _ _ _ Hm E).
Qed.

(** X16. A node never claims a task it is not equipped for.  When a task
    requires a capability the node's list does not contain, the utility the
    node computes for it is not greater than the claim threshold 20.0,
    however close the task is.  So the claim scan, whatever the task map
    and also when it raises on the way, leaves every such task exactly as
    it was; every frame it hands over is the TASK_CLAIM of an Open task the
    node is equipped for, under its own id and tick; and when the node is
    equipped for none of its tasks the scan changes nothing and sends
    nothing. *)
Theorem unequipped_never_claims (s : SwarmAgent) :
  let s' := snd (run _process_tasks s) in
  (forall t u, capability_missing (capabilities s) t = true ->
               fst (run (_calculate_utility t) s) = Ret u -> (u >? 20.0)%float = false)
  /\ Forall2 (fun kt kt' => capability_missing (capabilities s) (snd kt) = true -> kt' = kt)
       (tasks s) (tasks s')
  /\ (exists new,
        sent s' = sent s ++ new
        /\ Forall (fun pkt =>
             exists task_id t u p,
               In (task_id, t) (tasks s)
               /\ status t = OPEN
               /\ capability_missing (capabilities s) t = false
               /\ struct_pack_If task_id u = Ret p
               /\ pkt = frame TASK_CLAIM (agent_id s) (tick s) p) new)
  /\ (Forall (fun kt => capability_missing (capabilities s) (snd kt) = true) (tasks s) ->
      s' = s).
Proof.
  cbn zeta.
  destruct (scan_loop_trace s (tasks s) [] s eq_refl eq_refl eq_refl eq_refl eq_refl
              (fun kt H => H)) as (items' & new & R & F & C).
  cbn [length app] in R.
  assert (E : snd (run _process_tasks s) = with_sent (sent s ++ new) (with_tasks items' s))
    by exact R.
  rewrite E. clear R E.
  split; [|split; [|split]].
  - intros t u Hm. rewrite _calculate_utility_reads. cbn [fst]. apply unequipped_utility, Hm.
  - cbn [tasks with_sent with_tasks]. eapply Forall2_impl; [exact F|].
    intros kt kt' [->|(N & _)] Hm; [reflexivity|].
    exfalso. apply N, unequipped_not_claimed, Hm.
  - exists new. split; [reflexivity|]. revert C. apply List.Forall_impl.
    intros pkt (task_id & t & u & p & Hin & Cu & Ep & ->).
    exists task_id, t, u, p. split; [exact Hin|].
    assert (St : status t = OPEN).
    { unfold claimed_utility in Cu. destruct (status t); try discriminate. reflexivity. }
    split; [exact St|]. split; [|split; [exact Ep|reflexivity]].
    destruct (capability_missing (capabilities s) t) eqn:Hm; [|reflexivity].
    rewrite (unequipped_not_claimed _ _ Hm) in Cu. discriminate.
  - intros Hall.
    assert (T : items' = tasks s).
    { clear C. generalize dependent items'. induction Hall as [|kt l Hk _ IH]; intros items' F.
      - inversion F. reflexivity.
      - inversion F as [|a b la lb Hab Hrest]; subst. f_equal.
        + destruct Hab as [->|(N & _)]; [reflexivity|].
          exfalso. apply N, unequipped_not_claimed, Hk.
        + apply IH, Hrest. }
    assert (N : new = []).
    { destruct new as [|pkt new]; [reflexivity|exfalso].
      inversion C as [|? ? (task_id & t & u & p & Hin & Cu & _) _]; subst.
      pose proof (proj1 (List.Forall_forall _ _) Hall _ Hin) as Hm. cbn [snd] in Hm.
      rewrite (unequipped_not_claimed _ _ Hm) in Cu. discriminate. }
    rewrite T, N, app_nil_r. destruct s; reflexivity.
Qed.

(** ** The election protocol between nodes *)

(** X17. The branches of the ELECTION_ACCLAIM handler that no leader
    takes.  An acclamation from a higher id makes any node, in any role,
    FOLLOWER of the sender and counts as a heartbeat.  An acclamation
    carrying the node's own id, and one from a lower id received by a
    FOLLOWER, change nothing at all: a follower never contests.  A node in
    ELECTION_WAIT that hears a lower id makes itself LEADER at once,
    without waiting out its delay and without announcing it: no
    ELECTION_ACCLAIM or COORDINATOR is handed over, at most the HEARTBEAT
    of a tenth tick. *)
Theorem acclaim_by_rank (s : SwarmAgent) (now : float) (sender : Z) :
  let r := run (_handle_election_acclaim now sender) s in
  (agent_id s < sender -> r = (Ret tt, following now sender s))
  /\ (sender = agent_id s -> r = (Ret tt, s))
  /\ (sender < agent_id s -> state s = FOLLOWER -> r = (Ret tt, s))
  /\ (sender < agent_id s -> state s = ELECTION_WAIT ->
      state (snd r) = LEADER /\ leader_id (snd r) = Some (agent_id s)
      /\ election_wait_start (snd r) = election_wait_start s
      /\ (sent (snd r) = sent s
          \/ exists p, sent (snd r) = sent s ++ [frame HEARTBEAT (agent_id s) (tick s) p]
                       /\ tick s mod 10 = 0)).
Proof.
  cbn zeta. unfold _handle_election_acclaim. mstep.
  split; [|split; [|split]].
  - intros H. destruct (Z.gtb_spec sender (agent_id s)); [reflexivity|lia].
  - intros ->. rewrite Z.gtb_ltb, Z.ltb_irrefl. reflexivity.
  - intros H Es. destruct (Z.gtb_spec sender (agent_id s)); [lia|].
    rewrite Es. cbn. rewrite andb_false_r. reflexivity.
  - intros H Es. destruct (Z.gtb_spec sender (agent_id s)); [lia|].
    destruct (Z.ltb_spec sender (agent_id s)); [|lia].
    rewrite Es. cbn.
    match goal with |- context [_send_heartbeat ?s1] =>
      destruct (_send_heartbeat_cases s1) as [(p & _ & E)|E]; rewrite E; clear E
    end.
    + unfold when, pass, ret. cbn [tick with_leader_id with_state].
      destruct (Z.eqb_spec (tick s mod 10) 0) as [T|T].
      * send_cases; cbn; repeat split; try (left; reflexivity).
        right. exists p. split; [reflexivity|exact T].
      * cbn. repeat split. left. reflexivity.
    + cbn. repeat split. left. reflexivity.
Qed.

Lemma heartbeat_leader_yields s now sender payload :
  state s = LEADER -> agent_id s < sender ->
  let s' := snd (run (_handle_heartbeat now sender payload) s) in
  fst (run (_handle_heartbeat now sender payload) s) = Ret tt
  /\ state s' = FOLLOWER /\ leader_id s' = Some sender /\ last_heartbeat_time s' = now
  /\ sent s' = sent s.
Proof.
  intros Es H. cbn zeta. unfold _handle_heartbeat. mstep. rewrite Es.
  destruct (Z.ltb_spec sender (agent_id s)); [lia|].
  destruct (Z.gtb_spec sender (agent_id s)); [|lia]. cbn.
  destruct (Z.eqb_spec (Z.of_nat (length payload)) 8) as [L|L]; cbn.
  - destruct (struct_unpack_ff_total payload ltac:(lia)) as [l ->]. cbn. repeat split.
  - repeat split.
Qed.

Lemma heartbeat_leader_suppresses s now sender payload :
  state s = LEADER -> sender < agent_id s ->
  let s' := snd (run (_handle_heartbeat now sender payload) s) in
  election_view s' = election_view s.
Proof.
  intros Es H. cbn zeta. unfold _handle_heartbeat. mstep. rewrite Es.
  destruct (Z.ltb_spec sender (agent_id s)); [|lia]. cbn.
  pose proof (preserves_send_heartbeat (unchanged election_view)
                ltac:(intros v []; reflexivity) s) as P.
  exact P.
Qed.

(** X18. Two leaders that hear each other settle on the higher id.  When
    two LEADER nodes with different ids receive each other's HEARTBEAT,
    the one with the lower id becomes FOLLOWER of the other, credits the
    heartbeat and sends nothing, while the one with the higher id keeps
    its role, its leader id, its heartbeat time and its timers. *)
Theorem split_brain_resolves (a b : SwarmAgent) (now : float) (pa pb : bytes) :
  state a = LEADER -> state b = LEADER ->
  0 <= agent_id a -> agent_id a < agent_id b -> agent_id b < 256 ->
  let a' := snd (run (on_message_received now (frame HEARTBEAT (agent_id b) (tick b) pb)) a) in
  let b' := snd (run (on_message_received now (frame HEARTBEAT (agent_id a) (tick a) pa)) b) in
  (state a' = FOLLOWER /\ leader_id a' = Some (agent_id b)
   /\ last_heartbeat_time a' = now /\ sent a' = sent a)
  /\ (state b' = LEADER /\ election_view b' = election_view b).
Proof.
  intros Ea Eb H0 Hlt H1. cbn zeta.
  rewrite !frame_received by lia. cbn [handler]. split.
  - destruct (heartbeat_leader_yields a now (agent_id b) pb Ea Hlt) as (_ & H). exact H.
  - pose proof (heartbeat_leader_suppresses b now (agent_id a) pa Eb Hlt) as V.
    cbn zeta in V. split; [|exact V]. rewrite <- Eb.
    exact (f_equal (fun v => fst (fst (fst (fst (fst v))))) V).
Qed.

Lemma split_brain_resolves_witness :
  state sample_leader = LEADER /\ state sample_rival = LEADER
  /\ state (snd (run (on_message_received 1006 (frame HEARTBEAT 5 0 [])) sample_leader))
     = FOLLOWER
  /\ state (snd (run (on_message_received 1006 (frame HEARTBEAT 2 0 [])) sample_rival))
     = LEADER.
Proof.
  refine (conj eq_refl (conj eq_refl _)).
  pose proof (split_brain_resolves sample_leader sample_rival 1006 [] [] eq_refl eq_refl
                ltac:(cbn; lia) ltac:(cbn; lia) ltac:(cbn; lia)) as [[H1 _] [H2 _]].
  exact (conj H1 H2).
Defined.

Lemma coordinator_received now id tk p s :
  0 <= id < 256 ->
  run (on_message_received now (frame COORDINATOR id tk p)) s
  = (Ret tt, with_last_heartbeat_time now (with_state FOLLOWER (with_leader_id (Some id) s))).
Proof. intros H. rewrite frame_received by exact H. reflexivity. Qed.

(** X19. The announcements of an acclamation demote every node that hears
    them.  When the election wait of node [a] expires, the two frames it
    hands over (ELECTION_ACCLAIM, then COORDINATOR) leave any node [b] that
    handles them in that order as FOLLOWER with leader id [a], whatever the
    role and the id of [b]: unlike a HEARTBEAT or an ELECTION_ACCLAIM, the
    COORDINATOR of a lower id is obeyed by a LEADER with a higher id. *)
Theorem announcements_demote_any_node (a b : SwarmAgent)
    (t_hb t_enter t_wait jitter now1 now2 : float) :
  state a = ELECTION_WAIT -> header_ok a ->
  (t_wait - election_wait_start a >? election_delay a)%float = true ->
  exists f1 f2,
    sent (snd (run (_check_election_timeout t_hb t_enter t_wait jitter) a))
    = sent a ++ [f1; f2]
    /\ let b1 := snd (run (on_message_received now1 f1) b) in
       let b2 := snd (run (on_message_received now2 f2) b1) in
       state b2 = FOLLOWER /\ leader_id b2 = Some (agent_id a)
       /\ last_heartbeat_time b2 = now2 /\ leader_pos b2 = leader_pos b1.
Proof.
  intros Ea Hh G. rewrite (check_in_wait _ _ _ _ _ Ea Hh), G.
  eexists _, _. split; [reflexivity|]. cbn zeta.
  rewrite coordinator_received by apply Hh. repeat split.
Qed.

Lemma announcements_demote_any_node_witness :
  state sample_waiting = ELECTION_WAIT /\ header_ok sample_waiting
  /\ exists f1 f2,
      sent (snd (run (_check_election_timeout 1006 1006 1006 0) sample_waiting)) = [f1; f2]
      /\ state (snd (run (on_message_received 1007 f2)
                        (snd (run (on_message_received 1007 f1) sample_rival)))) = FOLLOWER
      /\ leader_id (snd (run (on_message_received 1007 f2)
                            (snd (run (on_message_received 1007 f1) sample_rival)))) = Some 1.
Proof.
  assert (Hh : header_ok sample_waiting) by (unfold header_ok; cbn; lia).
  refine (conj eq_refl (conj Hh _)).
  destruct (announcements_demote_any_node sample_waiting sample_rival 1006 1006 1006 0
              1007 1007 eq_refl Hh eq_refl) as (f1 & f2 & S & H1 & H2 & _).
  exists f1, f2. exact (conj S (conj H1 H2)).
Defined.

(** ** The motion step *)

(** an int below 2^1023 in magnitude converts to a float *)
Lemma float_of_int_in_range n : Z.abs n < 2 ^ 1023 -> exists r, float_of_int n = Ret r.
Proof.
  intros H. unfold float_of_int, binary_normalize.
  assert (R : forall sg p, Z.pos p < 2 ^ 1023 ->
            forall s', binary_round prec emax sg p 0 <> S754_infinity s').
  { intros sg p Hp s' E.
    pose proof (binary_round_shape prec emax ltac:(reflexivity) sg p 0) as S.
    cbn zeta in S.
    pose proof (Zdigits2_le (Z.pos p) 1023 ltac:(lia) ltac:(lia)) as D. cbn [Zdigits2] in D.
    destruct S as [[s0 S]|[(m' & e' & S & _)|[S B]]]; rewrite S in E; try discriminate.
    unfold fexp, SpecFloat.emin in B. cbv [prec emax] in B. lia. }
  destruct n as [|p|p].
  - eexists; reflexivity.
  - specialize (R false p ltac:(lia)).
    destruct (binary_round prec emax false p 0) as [s0|s0| |s0 m e] eqn:E;
      try (eexists; reflexivity). exfalso. exact (R s0 eq_refl).
  - specialize (R true p ltac:(lia)).
    destruct (binary_round prec emax true p 0) as [s0|s0| |s0 m e] eqn:E;
      try (eexists; reflexivity). exfalso. exact (R s0 eq_refl).
Qed.

(** X20. A follower that knows its leader's position flies formation,
    whatever target it was given.  For an id below 2^1023 in magnitude the
    id converts to a float [r], and the motion step first overwrites the
    target with the V-formation slot computed from the leader position and
    [r]: 2 r behind the leader and 2 r to the side, the side given by the
    parity of the id.  So a target set through set_target has no effect on
    the step, neither on its result nor on the state it leaves. *)
Theorem formation_overrides_target (s : SwarmAgent) (dt : float) (lp : vec) :
  state s = FOLLOWER -> leader_pos s = Some lp -> Z.abs (agent_id s) < 2 ^ 1023 ->
  exists r,
    float_of_int (agent_id s) = Ret r
    /\ target (snd (run (_update_physics dt) s)) = Some (formation_slot (agent_id s) r lp)
    /\ forall x y, run (_update_physics dt) (set_target x y s) = run (_update_physics dt) s.
Proof.
  intros Es El Hid. destruct (float_of_int_in_range _ Hid) as [r Hr].
  exists r. split; [exact Hr|].
  assert (H : exists K, forall s', state s' = FOLLOWER -> leader_pos s' = Some lp ->
               agent_id s' = agent_id s ->
               _update_physics dt s'
               = K (with_target (Some (formation_slot (agent_id s) r lp)) s')).
  { eexists. intros s' E1 E2 E3. unfold _update_physics. unfold bind at 1. unfold get at 1.
    rewrite E1, E2. cbn [AgentState_eqb andb when]. cbv zeta. rewrite E3.
    unfold bind at 1. unfold bind at 1. unfold lift at 1. rewrite Hr.
    unfold bind at 1. unfold lift at 1. unfold modify at 1.
    reflexivity. }
  destruct H as [K HK]. split.
  - unfold _update_physics, run. unfold bind at 1. unfold get at 1.
    rewrite Es, El. cbn [AgentState_eqb andb when]. cbv zeta.
    unfold bind at 1. unfold bind at 1. unfold lift at 1. rewrite Hr.
    unfold bind at 1. unfold lift at 1. unfold modify at 1.
    set (s1 := with_target _ s).
    assert (T1 : target s1 = Some (formation_slot (agent_id s) r lp)) by reflexivity.
    rewrite <- T1.
    match goal with
    | |- target (snd (?m s1)) = _ =>
        assert (P : preserves (unchanged target) m) by (frame by_fields); exact (P s1)
    end.
  - intros x y. unfold run.
    rewrite (HK s Es El eq_refl), (HK (set_target x y s) Es El eq_refl). reflexivity.
Qed.

Lemma centred_obstacle_clamped r :
  (0 <=? r)%float = true -> (0 - r <=? 0.001)%float = true.
Proof.
  rewrite leb_spec, (leb_spec (0 - r)), sub_spec.
  change (Prim2SF 0) with (S754_zero false).
  change (Prim2SF 0.001) with (S754_finite false 4611686018427388 (-62)).
  destruct (Prim2SF r) as [[]|[]| |[] m e];
    cbn [SF64sub SFsub SFleb SFcompare negb Bool.eqb]; intros H;
    try discriminate H; reflexivity.
Qed.

(** An obstacle centred on the node: the distance to its surface is clamped
    to 0.001, and the force raises, by 0.001 ** 2 itself or by a division by
    zero, the latest by the norm 0.0. *)
Lemma obstacle_force_centred p r :
  is_finite (fst p) = true -> is_finite (snd p) = true -> (0 <=? r)%float = true ->
  exists e, forall f, obstacle_force p f (fst p, snd p, r) = Raise e.
Proof.
  intros Hx Hy Hr.
  destruct (py_pow2 0.001) as [v|e] eqn:E; [exists ZeroDivisionError|exists e];
    intros f; unfold obstacle_force; cbn [fst snd];
    rewrite (sub_diag_finite _ Hx), (sub_diag_finite _ Hy);
    change (py_pow2 0) with (Ret 0%float); cbn [obind];
    change (math_sqrt (0 + 0)) with (Ret 0%float); cbn [obind];
    rewrite (centred_obstacle_clamped r Hr), E.
  - cbv. destruct (PrimFloat.eqb v _); reflexivity.
  - reflexivity.
Qed.

Lemma raised_before_moving {A} (o : outcome A) (k : A -> M unit) s e :
  o = Raise e -> bind (lift o) k s = (Raise e, s).
Proof. intros ->. reflexivity. Qed.

(** X21. An obstacle centred on the node stops the motion step with an
    exception: with a target set (and no leader position to fly formation
    on) and the node at a finite position, an obstacle of any radius >= 0
    reported exactly at that position makes the step raise (the push
    direction is divided by a zero norm), whatever else the sensors
    report; the state is left as it was: the velocity is not assigned and
    the position is not advanced. *)
Theorem motion_step_raises_on_centred_obstacle (s : SwarmAgent) (dt : float)
    (tgt : vec) (r : float) :
  target s = Some tgt -> state s <> FOLLOWER \/ leader_pos s = None ->
  In (fst (position s), snd (position s), r) (obstacles s) ->
  is_finite (fst (position s)) = true -> is_finite (snd (position s)) = true ->
  (0 <=? r)%float = true ->
  exists e, run (_update_physics dt) s = (Raise e, s).
Proof.
  intros Ht Hs Hin Hx Hy Hr.
  assert (Ho : forall acc, exists e,
             for_each (obstacle_force (position s)) acc (obstacles s) = Raise e).
  { destruct (obstacle_force_centred (position s) r Hx Hy Hr) as [e0 He0].
    intros acc. eapply for_each_raises; [exact Hin|]. exact He0. }
  assert (C : AgentState_eqb (state s) FOLLOWER
              && match leader_pos s with Some _ => true | None => false end = false).
  { destruct Hs as [Hs| ->]; [|apply andb_false_r].
    destruct (state s); try reflexivity. contradiction. }
  unfold _update_physics, run, bind, get, when, pass, ret, lift, modify.
  rewrite C, Ht.
  destruct (py_pow2 _); [|eexists; reflexivity].
  destruct (py_pow2 _); [|eexists; reflexivity].
  destruct (math_sqrt _); [|eexists; reflexivity].
  destruct (Ho (0%float, 0%float)) as [e ->]. eexists; reflexivity.
Qed.




Lemma not_below_5_not_clamped x : (x <? 5)%float = false -> (x <=? 0.001)%float = false.
Proof.
  rewrite ltb_spec, leb_spec.
  change (Prim2SF 5) with (S754_finite false 5629499534213120 (-50)).
  change (Prim2SF 0.001) with (S754_finite false 4611686018427388 (-62)).
  unfold SFltb, SFleb.
  destruct (Prim2SF x) as [[]|[]| |[] m e]; cbn [SFcompare]; try discriminate;
    try reflexivity.
  destruct (Z.compare_spec e (-50)) as [E|E|E]; destruct (Z.compare_spec e (-62)) as [F|F|F];
    try lia; try discriminate; try reflexivity.
Qed.

Lemma norm2_parts dx dy d :
  norm2 dx dy = Ret d ->
  exists a b, py_pow2 dx = Ret a /\ py_pow2 dy = Ret b /\ math_sqrt (a + b)%float = Ret d.
Proof.
  unfold norm2. destruct (py_pow2 dx) as [a|]; [|discriminate].
  destruct (py_pow2 dy) as [b|]; [|discriminate]. cbn [obind]. intros H.
  exists a, b. repeat split. exact H.
Qed.

Lemma obstacle_force_out_of_reach p f obs :
  obstacle_out_of_reach p obs -> obstacle_force p f obs = Ret f.
Proof.
  intros (d & Hd & Hr). destruct (norm2_parts _ _ _ Hd) as (a & b & Ea & Eb & Es).
  unfold obstacle_force. cbv zeta. rewrite Ea. cbn [obind]. rewrite Eb. cbn [obind].
  rewrite Es. cbn [obind]. rewrite (not_below_5_not_clamped _ Hr), Hr. reflexivity.
Qed.

Lemma neighbor_force_out_of_reach p f nb :
  neighbor_out_of_reach p nb -> neighbor_force p f nb = Ret f.
Proof.
  intros (d & Hd & Hr). destruct (norm2_parts _ _ _ Hd) as (a & b & Ea & Eb & Es).
  unfold neighbor_force. cbv zeta. rewrite Ea. cbn [obind]. rewrite Eb. cbn [obind].
  rewrite Es. cbn [obind]. rewrite Hr. reflexivity.
Qed.

Lemma for_each_idle {A B} (body : B -> A -> outcome B) l acc :
  Forall (fun x => forall acc', body acc' x = Ret acc') l -> for_each body acc l = Ret acc.
Proof.
  induction 1 as [|x l Hx _ IH]; [reflexivity|]. cbn [for_each]. rewrite Hx. exact IH.
Qed.

Ltac projections :=
  cbn [agent_id total_agents state leader_id leader_pos last_heartbeat_time tick
       election_wait_start election_delay tasks task_claims position velocity max_speed
       obstacles neighbors target capabilities sent update_sensors with_target for_each].

Ltac step_outcomes :=
  repeat match goal with
    | |- context [match ?o with Ret _ => _ | Raise _ => _ end] => destruct o
    | |- context [if ?c then _ else _] => destruct c
    end.

(** X23. Repulsion is local.  Obstacles whose surface is not within the
    influence radius 5.0 and neighbors that are not within the personal
    space 2.0 have no effect on the motion step: its outcome, and the
    target, velocity and position it leaves, are those of the same step
    with empty sensor lists. *)
Theorem distant_sensors_are_ignored (s : SwarmAgent) (dt : float) :
  Forall (obstacle_out_of_reach (position s)) (obstacles s) ->
  Forall (neighbor_out_of_reach (position s)) (neighbors s) ->
  let r := run (_update_physics dt) s in
  let r0 := run (_update_physics dt) (update_sensors [] [] s) in
  fst r = fst r0 /\ snd r = update_sensors (obstacles s) (neighbors s) (snd r0).
Proof.
  intros Ho Hn. cbn zeta.
  assert (Lo : for_each (obstacle_force (position s)) (0%float, 0%float) (obstacles s)
               = Ret (0%float, 0%float)).
  { apply for_each_idle. revert Ho. apply List.Forall_impl.
    intros obs H acc. apply obstacle_force_out_of_reach, H. }
  assert (Ln : for_each (neighbor_force (position s)) (0%float, 0%float) (neighbors s)
               = Ret (0%float, 0%float)).
  { apply for_each_idle. revert Hn. apply List.Forall_impl.
    intros nb H acc. apply neighbor_force_out_of_reach, H. }
  unfold _update_physics, run, bind, get, when, pass, ret, lift, modify.
  cbn [state leader_pos update_sensors].
  destruct (AgentState_eqb (state s) FOLLOWER
            && match leader_pos s with Some _ => true | None => false end).
  - destruct (leader_pos s) as [lp|]; projections.
    + destruct (float_of_int (agent_id s)) as [rk|e];
        [|split; [reflexivity|destruct s; reflexivity]].
      projections.
      rewrite Lo, Ln. step_outcomes; split; try reflexivity; destruct s; reflexivity.
    + destruct (target s) as [tgt|]; [|split; [reflexivity|destruct s; reflexivity]].
      rewrite Lo, Ln. step_outcomes; split; try reflexivity; destruct s; reflexivity.
  - projections.
    destruct (target s) as [tgt|]; [|split; [reflexivity|destruct s; reflexivity]].
    rewrite Lo, Ln. step_outcomes; split; try reflexivity; destruct s; reflexivity.
Qed.

(** ** What goes out is well formed *)

#[local] Instance emits_well_formed_preorder : PreOrder emits_well_formed.
Proof.
  split.
  - intros s. exists []. rewrite app_nil_r. split; [reflexivity|constructor].
  - intros a b c (n1 & E1 & F1) (n2 & E2 & F2). exists (n1 ++ n2).
    rewrite E2, E1, <- app_assoc. split; [reflexivity|]. apply Forall_app. now split.
Qed.

Lemma emits_nothing s s' : sent s' = sent s -> emits_well_formed s s'.
Proof. intros E. exists []. rewrite app_nil_r. split; [exact E|constructor]. Qed.

Lemma well_formed_frame_frame t id tk p :
  payload_size (MsgType_value t) = Some (length p) ->
  well_formed_frame (frame t id tk p) = true.
Proof.
  intros H. unfold frame, u32_be. cbn [app well_formed_frame].
  rewrite Z_of_byte_of_Z by (destruct t; cbn; lia). rewrite H. apply Nat.eqb_refl.
Qed.

Lemma wf_send_msg t p :
  payload_size (MsgType_value t) = Some (length p) ->
  preserves emits_well_formed (_send_msg t p).
Proof.
  intros H s. destruct (_send_msg_cases t p s) as [E|E]; rewrite E; cbn [snd].
  - eexists. split; [reflexivity|]. constructor; [|constructor].
    apply well_formed_frame_frame, H.
  - reflexivity.
Qed.

Lemma pack_B_length z p : pack_B z = Ret p -> length p = 1%nat.
Proof. unfold pack_B. destruct (_ && _); [|discriminate]. now intros [= <-]. Qed.

Lemma pack_I_length z p : pack_I z = Ret p -> length p = 4%nat.
Proof. unfold pack_I. destruct (_ && _); [|discriminate]. now intros [= <-]. Qed.

Lemma pack_f_length x p : pack_f x = Ret p -> length p = 4%nat.
Proof. unfold pack_f. destruct (f32_bits x); [|discriminate]. now intros [= <-]. Qed.

Lemma struct_pack_ff_length x y p : struct_pack_ff x y = Ret p -> length p = 8%nat.
Proof.
  unfold struct_pack_ff. destruct (pack_f x) as [a|] eqn:Ea; [|discriminate].
  destruct (pack_f y) as [b|] eqn:Eb; [|discriminate]. cbn [obind]. intros [= <-].
  rewrite length_app, (pack_f_length _ _ Ea), (pack_f_length _ _ Eb). reflexivity.
Qed.

Lemma struct_pack_If_length n x p : struct_pack_If n x = Ret p -> length p = 8%nat.
Proof.
  unfold struct_pack_If. destruct (pack_I n) as [a|] eqn:Ea; [|discriminate].
  destruct (pack_f x) as [b|] eqn:Eb; [|discriminate]. cbn [obind]. intros [= <-].
  rewrite length_app, (pack_I_length _ _ Ea), (pack_f_length _ _ Eb). reflexivity.
Qed.

Lemma struct_pack_IB_length n b p : struct_pack_IB n b = Ret p -> length p = 5%nat.
Proof.
  unfold struct_pack_IB. destruct (pack_I n) as [a|] eqn:Ea; [|discriminate].
  destruct (pack_B b) as [c|] eqn:Ec; [|discriminate]. cbn [obind]. intros [= <-].
  rewrite length_app, (pack_I_length _ _ Ea), (pack_B_length _ _ Ec). reflexivity.
Qed.

Lemma wf_send_heartbeat : preserves emits_well_formed _send_heartbeat.
Proof.
  intros s. destruct (_send_heartbeat_cases s) as [(p & Hp & E)|E]; rewrite E.
  - apply preserves_when; [exact _|]. apply wf_send_msg.
    rewrite (struct_pack_ff_length _ _ _ Hp). reflexivity.
  - reflexivity.
Qed.

Lemma preserves_bind_lift R `{!PreOrder R} {A B} (o : outcome A) (k : A -> M B) :
  (forall a, o = Ret a -> preserves R (k a)) -> preserves R (bind (lift o) k).
Proof.
  intros H s. unfold bind, lift. destruct o as [a|e]; [apply (H a eq_refl)|reflexivity].
Qed.

Ltac silent := intros; apply emits_nothing; by_fields.

Ltac payload_length :=
  match goal with
  | H : struct_pack_B _ = Ret _ |- _ => rewrite (pack_B_length _ _ H)
  | H : struct_pack_ff _ _ = Ret _ |- _ => rewrite (struct_pack_ff_length _ _ _ H)
  | H : struct_pack_If _ _ = Ret _ |- _ => rewrite (struct_pack_If_length _ _ _ H)
  | H : struct_pack_IB _ _ = Ret _ |- _ => rewrite (struct_pack_IB_length _ _ _ H)
  | _ => idtac
  end; reflexivity.

Ltac frame_wf :=
  repeat (intros; lazymatch goal with
  | |- preserves _ (bind (lift _) _) => apply preserves_bind_lift
  | |- preserves _ (bind _ _) => apply preserves_bind
  | |- preserves _ (ret _) => apply preserves_ret
  | |- preserves _ pass => apply preserves_ret
  | |- preserves _ get => apply preserves_get
  | |- preserves _ (lift _) => apply preserves_lift
  | |- preserves _ (when _ _) => apply preserves_when
  | |- preserves _ (modify _) => apply preserves_modify; first [exact _ | silent]
  | |- preserves _ (_send_msg _ _) => apply wf_send_msg; payload_length
  | |- preserves _ _send_heartbeat => apply wf_send_heartbeat
  | |- preserves _ (if ?c then _ else _) => destruct c
  | |- preserves _ (match ?x with _ => _ end) => destruct x
  | |- PreOrder _ => exact _
  end).

Lemma wf_check a b c d : preserves emits_well_formed (_check_election_timeout a b c d).
Proof. unfold _check_election_timeout. frame_wf. Qed.

Lemma wf_heartbeat now sender payload :
  preserves emits_well_formed (_handle_heartbeat now sender payload).
Proof. unfold _handle_heartbeat. frame_wf. Qed.

Lemma wf_acclaim now sender : preserves emits_well_formed (_handle_election_acclaim now sender).
Proof. unfold _handle_election_acclaim. frame_wf. Qed.

Lemma wf_coordinator now sender : preserves emits_well_formed (_handle_coordinator now sender).
Proof. unfold _handle_coordinator. frame_wf. Qed.

Lemma wf_task_claim sender payload :
  preserves emits_well_formed (_handle_task_claim sender payload).
Proof. unfold _handle_task_claim. frame_wf. Qed.

Lemma wf_task_conflict sender payload :
  preserves emits_well_formed (_handle_task_conflict sender payload).
Proof. unfold _handle_task_conflict. frame_wf. Qed.

Lemma wf_calculate_utility t : preserves emits_well_formed (_calculate_utility t).
Proof. unfold _calculate_utility. frame_wf. Qed.

Lemma wf_process_tasks_loop items :
  forall i, preserves emits_well_formed (_process_tasks_loop items i).
Proof.
  induction items as [|[task_id task] rest IH]; intros i; cbn [_process_tasks_loop].
  - apply preserves_ret; exact _.
  - apply preserves_bind; [exact _| |intros _; apply IH].
    apply preserves_when; [exact _|].
    apply preserves_bind; [exact _|apply wf_calculate_utility|].
    frame_wf.
Qed.

Lemma wf_process_logic a b c d : preserves emits_well_formed (_process_logic a b c d).
Proof.
  unfold _process_logic.
  apply preserves_bind; [exact _|apply wf_check|intros _].
  apply preserves_bind; [exact _|apply preserves_get; exact _|intros s].
  apply preserves_bind; [exact _| |intros _].
  - apply preserves_when; [exact _|apply wf_send_heartbeat].
  - unfold _process_tasks. apply preserves_bind; [exact _|apply preserves_get; exact _|].
    intros s'. apply wf_process_tasks_loop.
Qed.

Lemma wf_update_physics dt : preserves emits_well_formed (_update_physics dt).
Proof. unfold _update_physics. frame_wf. Qed.

Lemma wf_iterations period rs :
  preserves emits_well_formed (update_loop_iterations period rs).
Proof.
  induction rs as [|r rs IH]; cbn [update_loop_iterations].
  - apply preserves_ret; exact _.
  - apply preserves_bind; [exact _| |intros _; exact IH].
    unfold update_loop_iteration.
    apply preserves_bind; [exact _|apply preserves_modify; silent|intros _].
    apply preserves_bind; [exact _|apply wf_process_logic|intros _].
    apply wf_update_physics.
Qed.

Lemma wf_received now data : preserves emits_well_formed (on_message_received now data).
Proof.
  intros s.
  destruct (received_cases now data s)
    as [E|(t & sd & k3 & k2 & k1 & k0 & payload & -> & [[T E]|[[T E]|[[T E]|[[T E]|[T E]]]]])];
    unfold run in E; rewrite E; clear E; cbn [snd].
  - reflexivity.
  - apply wf_heartbeat.
  - apply wf_acclaim.
  - apply wf_coordinator.
  - apply wf_task_claim.
  - apply wf_task_conflict.
Qed.

(** X24. A node only hands over well-formed frames.  Whatever it receives
    and however long its loop runs, the outbox only grows, and every packet
    added to it has a six-byte header with one of the five type codes and a
    payload of exactly the size declared for that code (8 bytes for
    HEARTBEAT and TASK_CLAIM, 1 for ELECTION_ACCLAIM, 0 for COORDINATOR, 5
    for TASK_CONFLICT); the motion step hands over nothing. *)
Theorem only_well_formed_frames_go_out :
  (forall now data, preserves emits_well_formed (on_message_received now data))
  /\ (forall t_hb t_enter t_wait jitter,
        preserves emits_well_formed (_process_logic t_hb t_enter t_wait jitter))
  /\ (forall rs, preserves emits_well_formed (update_loop rs))
  /\ (forall dt, preserves (unchanged sent) (_update_physics dt)).
Proof.
  split; [|split; [|split]].
  - apply wf_received.
  - apply wf_process_logic.
  - intros rs. unfold update_loop. cbv zeta.
    apply preserves_bind; [exact _|apply preserves_lift; exact _|intros period].
    apply wf_iterations.
  - intros dt. unfold _update_physics. frame by_fields.
Qed.

(** ** Rounding lands on a canonical mantissa *)

Lemma Zdigits2_mono x y : 0 <= x <= y -> Zdigits2 x <= Zdigits2 y.
Proof.
  intros H. pose proof (Zdigits2_upper y ltac:(lia)). pose proof (Zdigits2_nonneg y).
  apply Zdigits2_le; lia.
Qed.

Lemma Zdigits2_lower x : 0 < x -> 2 ^ (Zdigits2 x - 1) <= x.
Proof.
  destruct x as [|p|p]; try lia. intros _. cbn [Zdigits2]. apply digits2_pos_bounds.
Qed.

Lemma Zdigits2_shiftr_ge x n : 0 <= x -> 0 <= n -> Zdigits2 x - n <= Zdigits2 (Z.shiftr x n).
Proof.
  intros Hx Hn. pose proof (Zdigits2_nonneg (Z.shiftr x n)) as N.
  destruct (Z.le_gt_cases (Zdigits2 x) n) as [L|G]; [lia|].
  assert (Px : 0 < x) by (destruct x; cbn in *; lia).
  pose proof (Zdigits2_lower x Px) as Lo.
  rewrite Z.shiftr_div_pow2 in * by lia.
  assert (P : 0 < 2 ^ n) by (apply Z.pow_pos_nonneg; lia).
  assert (Q : 2 ^ (Zdigits2 x - 1 - n) <= x / 2 ^ n).
  { apply Z.div_le_lower_bound; [lia|]. rewrite <- Z.pow_add_r by lia.
    replace (n + (Zdigits2 x - 1 - n)) with (Zdigits2 x - 1) by lia. exact Lo. }
  assert (Py : 0 <= x / 2 ^ n) by (apply Z.div_pos; lia).
  pose proof (Zdigits2_upper _ Py) as U.
  assert (2 ^ (Zdigits2 x - 1 - n) < 2 ^ Zdigits2 (x / 2 ^ n)) by lia.
  apply Z.pow_lt_mono_r_iff in H; lia.
Qed.

Section RoundCanonical.
Variables prec emax : Z.

Lemma shr_fexp_canonical m e l :
  0 <= m -> e <= fexp prec emax (Zdigits2 m + e) ->
  let r := shr_fexp prec emax m e l in
  0 <= shr_m (fst r)
  /\ snd r = fexp prec emax (Zdigits2 m + e)
  /\ Zdigits2 m + e - snd r <= Zdigits2 (shr_m (fst r))
  /\ (0 < shr_m (fst r) -> fexp prec emax (Zdigits2 (shr_m (fst r)) + snd r) = snd r).
Proof.
  intros Hm He. unfold shr_fexp, shr.
  assert (Hr : shr_m (shr_record_of_loc m l) = m) by (destruct l as [|[]]; reflexivity).
  destruct (fexp prec emax (Zdigits2 m + e) - e) as [|n|n] eqn:En; cbn [fst snd]; rewrite ?Hr.
  - assert (E : fexp prec emax (Zdigits2 m + e) = e) by lia.
    repeat split; lia.
  - rewrite iter_shr_1_m by (rewrite Hr; exact Hm). rewrite Hr.
    pose proof (Zdigits2_shiftr m (Z.pos n) Hm ltac:(lia)) as U.
    pose proof (Zdigits2_shiftr_ge m (Z.pos n) Hm ltac:(lia)) as L.
    assert (P : 0 <= Z.shiftr m (Z.pos n)) by (apply Z.shiftr_nonneg; exact Hm).
    split; [exact P|]. split; [lia|]. split; [lia|].
    intros Q. assert (1 <= Zdigits2 (Z.shiftr m (Z.pos n))).
    { destruct (Z.shiftr m (Z.pos n)); cbn; lia. }
    replace (Zdigits2 (Z.shiftr m (Z.pos n)) + (e + Z.pos n)) with (Zdigits2 m + e) by lia.
    lia.
  - lia.
Qed.

Lemma binary_round_aux_canonical s m e l m' e' :
  0 <= m -> e <= fexp prec emax (Zdigits2 m + e) ->
  binary_round_aux prec emax s m e l = S754_finite s m' e' ->
  bounded prec emax m' e' = true.
Proof.
  intros Hm He. unfold binary_round_aux.
  pose proof (shr_fexp_canonical m e l Hm He) as (A1 & A2 & A3 & _). cbn zeta in *.
  destruct (shr_fexp prec emax m e l) as [mrs' e1]. cbn [fst snd] in *.
  set (mr := round_nearest_even (shr_m mrs') (loc_of_shr_record mrs')).
  assert (Hr : shr_m mrs' <= mr).
  { unfold mr, round_nearest_even.
    destruct (loc_of_shr_record mrs') as [|[]]; try lia.
    destruct (Z.even _); lia. }
  pose proof (Zdigits2_mono (shr_m mrs') mr ltac:(lia)) as M.
  pose proof (Zdigits2_nonneg (shr_m mrs')) as N.
  assert (He1 : e1 <= fexp prec emax (Zdigits2 mr + e1)).
  { unfold fexp in *. lia. }
  pose proof (shr_fexp_canonical mr e1 loc_Exact ltac:(lia) He1) as (B1 & B2 & B3 & B4).
  cbn zeta in *.
  destruct (shr_fexp prec emax mr e1 loc_Exact) as [mrs'' e2]. cbn [fst snd] in *.
  destruct (shr_m mrs'') as [|p|p]; try discriminate.
  destruct (Z.leb_spec e2 (emax - prec)); [|discriminate].
  intros [= <- <-]. unfold bounded, canonical_mantissa.
  cbn [Zdigits2] in B4. rewrite (B4 ltac:(lia)), Z.eqb_refl. cbn [andb].
  apply Z.leb_le. assumption.
Qed.

Lemma binary_round_canonical s m e m' e' :
  binary_round prec emax s m e = S754_finite s m' e' ->
  bounded prec emax m' e' = true.
Proof.
  unfold binary_round, shl_align.
  destruct (fexp prec emax (Z.pos (digits2_pos m) + e) - e) as [|d|d] eqn:Ed;
    apply binary_round_aux_canonical; try lia; cbn [Zdigits2]; try lia.
  rewrite digits2_pos_iter_xO.
  replace (Z.pos (digits2_pos m) + Z.pos d + fexp prec emax (Z.pos (digits2_pos m) + e))
    with (Z.pos (digits2_pos m) + e) by lia.
  lia.
Qed.

Lemma binary_round_sign s m e s' m' e' :
  binary_round prec emax s m e = S754_finite s' m' e' -> s' = s.
Proof.
  unfold binary_round. destruct (shl_align _ _ _) as [mz ez]. unfold binary_round_aux.
  destruct (shr_fexp prec emax (Z.pos mz) ez loc_Exact) as [mrs' e1].
  destruct (shr_fexp prec emax _ e1 loc_Exact) as [mrs'' e2].
  destruct (shr_m mrs''); try discriminate.
  destruct (_ <=? _); [|discriminate]. now intros [= <- _ _].
Qed.

End RoundCanonical.

(** ** The binary32 fields *)

Lemma f32_fields sg ex fr :
  0 <= ex < 256 -> 0 <= fr < 8388608 ->
  let w := f32_sign sg + ex * 8388608 + fr in
  0 <= w < 4294967296
  /\ Z.testbit w 31 = sg
  /\ Z.land (Z.shiftr w 23) 0xff = ex
  /\ Z.land w 0x7fffff = fr.
Proof.
  intros Hex Hfr w.
  assert (Hs : f32_sign sg = if sg then 2147483648 else 0) by (destruct sg; reflexivity).
  assert (Hw : 0 <= w < 4294967296) by (unfold w; rewrite Hs; destruct sg; lia).
  split; [exact Hw|]. split; [|split].
  - rewrite Z.testbit_odd, Z.shiftr_div_pow2 by lia.
    change (2 ^ 31) with 2147483648.
    assert (E : w / 2147483648 = if sg then 1 else 0).
    { unfold w. rewrite Hs. destruct sg; Z.div_mod_to_equations; lia. }
    rewrite E. destruct sg; reflexivity.
  - rewrite Z.shiftr_div_pow2 by lia. change 0xff with (Z.ones 8).
    rewrite Z.land_ones by lia. change (2 ^ 23) with 8388608. change (2 ^ 8) with 256.
    unfold w. rewrite Hs. destruct sg; Z.div_mod_to_equations; lia.
  - change 0x7fffff with (Z.ones 23). rewrite Z.land_ones by lia.
    change (2 ^ 23) with 8388608.
    unfold w. rewrite Hs. destruct sg; Z.div_mod_to_equations; lia.
Qed.

Lemma bounded_f32 m e :
  bounded f32_prec f32_emax m e = true ->
  -149 <= e <= 104 /\ Z.pos m < 16777216 /\ (Z.pos m < 8388608 -> e = -149).
Proof.
  unfold bounded, canonical_mantissa, fexp, SpecFloat.emin, f32_prec, f32_emax.
  intros H. apply andb_prop in H as [Hc He].
  apply Z.eqb_eq in Hc. apply Z.leb_le in He.
  pose proof (digits2_pos_bounds m) as [Lo Hi].
  assert (D : Z.pos (digits2_pos m) <= 24) by lia.
  split; [lia|]. split.
  - assert (2 ^ Z.pos (digits2_pos m) <= 2 ^ 24) by (apply Z.pow_le_mono_r; lia).
    change (2 ^ 24) with 16777216 in *. lia.
  - intros S. destruct (Z.eq_dec e (-149)) as [|N]; [assumption|exfalso].
    assert (Z.pos (digits2_pos m) = 24) by lia.
    rewrite H in Lo. change (2 ^ (24 - 1)) with 8388608 in Lo. lia.
Qed.

Lemma f32_of_bits_finite s m e :
  bounded f32_prec f32_emax m e = true ->
  let w := f32_sign s + (if 0x800000 <=? Z.pos m
                         then (e + 150) * 0x800000 + (Z.pos m - 0x800000)
                         else Z.pos m) in
  0 <= w < 4294967296 /\ f32_of_bits w = SF2Prim (S754_finite s m e).
Proof.
  intros Hb. destruct (bounded_f32 m e Hb) as (He & Hm & Hsub). cbn zeta.
  destruct (Z.leb_spec 0x800000 (Z.pos m)) as [L|L].
  - pose proof (f32_fields s (e + 150) (Z.pos m - 8388608) ltac:(lia) ltac:(lia))
      as (W & F1 & F2 & F3). cbn zeta in *.
    rewrite Z.add_assoc. split; [exact W|].
    unfold f32_of_bits. cbv zeta. rewrite F1, F2, F3.
    destruct (Z.eqb_spec (e + 150) 255); [lia|].
    destruct (Z.eqb_spec (e + 150) 0); [lia|].
    replace (8388608 + (Z.pos m - 8388608)) with (Z.pos m) by lia.
    replace (e + 150 - 150) with e by lia. reflexivity.
  - pose proof (f32_fields s 0 (Z.pos m) ltac:(lia) ltac:(lia)) as (W & F1 & F2 & F3).
    cbn zeta in *. rewrite Z.add_0_r in *. split; [exact W|].
    unfold f32_of_bits. cbv zeta. rewrite F1, F2, F3. cbn [Z.eqb].
    rewrite (Hsub L). reflexivity.
Qed.

(** the format [f] there and back: the word fits 32 bits and decodes to
    the binary32 value nearest to the double *)
Lemma f32_round_trip x w :
  f32_bits x = Some w -> 0 <= w < 4294967296 /\ f32_of_bits w = as_f32 x.
Proof.
  unfold f32_bits, as_f32. destruct (Prim2SF x) as [s|s| |s m e] eqn:Ex.
  - intros [= <-]. split; [destruct s; cbn; lia|destruct s; reflexivity].
  - intros [= <-]. split; [destruct s; cbn; lia|destruct s; reflexivity].
  - intros [= <-]. split; [lia|reflexivity].
  - destruct (binary_round f32_prec f32_emax s m e) as [s'|s'| |s' m' e'] eqn:Er;
      try discriminate.
    + intros [= <-]. split; [destruct s'; cbn; lia|destruct s'; reflexivity].
    + intros [= <-].
      pose proof (binary_round_sign _ _ _ _ _ _ _ _ Er) as ->.
      apply f32_of_bits_finite.
      exact (binary_round_canonical f32_prec f32_emax _ _ _ _ _ Er).
Qed.

(** ** Floats on the wire *)

Lemma unpack_f_f32_be x w :
  f32_bits x = Some w ->
  exists b3 b2 b1 b0, u32_be w = [b3; b2; b1; b0] /\ unpack_f b3 b2 b1 b0 = as_f32 x.
Proof.
  intros H. destruct (f32_round_trip x w H) as [Hw E].
  eexists _, _, _, _. split; [reflexivity|].
  unfold unpack_f. rewrite unpack_I_u32_be by exact Hw. exact E.
Qed.

Lemma struct_unpack_ff_pack x y :
  f32_bits x <> None -> f32_bits y <> None ->
  struct_unpack_ff (f32_be x ++ f32_be y) = Ret (as_f32 x, as_f32 y).
Proof.
  intros Hx Hy. unfold f32_be.
  destruct (f32_bits x) as [wx|] eqn:Ex; [|contradiction].
  destruct (f32_bits y) as [wy|] eqn:Ey; [|contradiction].
  destruct (unpack_f_f32_be x wx Ex) as (a3 & a2 & a1 & a0 & -> & <-).
  destruct (unpack_f_f32_be y wy Ey) as (b3 & b2 & b1 & b0 & -> & <-).
  reflexivity.
Qed.

Lemma struct_unpack_If_pack n u :
  0 <= n < 4294967296 -> f32_bits u <> None ->
  struct_unpack_If (u32_be n ++ f32_be u) = Ret (n, as_f32 u).
Proof.
  intros Hn Hu. unfold f32_be.
  destruct (f32_bits u) as [w|] eqn:Eu; [|contradiction].
  destruct (unpack_f_f32_be u w Eu) as (b3 & b2 & b1 & b0 & -> & <-).
  unfold u32_be. cbn [app struct_unpack_If]. rewrite unpack_I_u32_be by exact Hn.
  reflexivity.
Qed.

Lemma as_f32_not_finite x :
  match Prim2SF x with S754_finite _ _ _ => False | _ => True end -> as_f32 x = x.
Proof.
  unfold as_f32. intros H. rewrite <- (SF2Prim_Prim2SF x) at 2.
  destruct (Prim2SF x); [reflexivity..|contradiction].
Qed.

(** X25. The position in a heartbeat arrives in single precision.  The
    HEARTBEAT a node hands over on a tenth tick carries its position as
    two 32-bit floats; a node that is not LEADER and receives that packet
    becomes (or stays) FOLLOWER of the sender, credits the heartbeat and
    stores as leader position the sender's coordinates, each rounded to
    the nearest binary32 value.  A coordinate that is a zero, an infinity
    or NaN arrives as it is. *)
Theorem heartbeat_carries_position (l f : SwarmAgent) (now : float) :
  header_ok l -> tick l mod 10 = 0 ->
  f32_bits (fst (position l)) <> None -> f32_bits (snd (position l)) <> None ->
  state f <> LEADER ->
  exists pkt,
    run _send_heartbeat l = (Ret tt, with_sent (sent l ++ [pkt]) l)
    /\ run (on_message_received now pkt) f
       = (Ret tt,
          with_state FOLLOWER
            (with_leader_pos (Some (as_f32 (fst (position l)), as_f32 (snd (position l))))
               (with_last_heartbeat_time now (with_leader_id (Some (agent_id l)) f))))
    /\ (forall x, is_finite x = false \/ (x =? 0)%float = true -> as_f32 x = x).
Proof.
  intros Hh Ht Hx Hy Hf.
  exists (frame HEARTBEAT (agent_id l) (tick l)
            (f32_be (fst (position l)) ++ f32_be (snd (position l)))).
  split; [|split].
  - unfold run. rewrite (_send_heartbeat_ok _ _ (struct_pack_ff_ok _ _ Hx Hy)).
    rewrite Ht. cbn [Z.eqb when]. apply _send_msg_ok, Hh.
  - rewrite frame_received by apply Hh. cbn [handler].
    unfold _handle_heartbeat. mstep.
    assert (L : length (f32_be (fst (position l)) ++ f32_be (snd (position l))) = 8%nat).
    { apply (struct_pack_ff_length (fst (position l)) (snd (position l))).
      apply struct_pack_ff_ok; assumption. }
    rewrite L. change (Z.of_nat 8 =? 8) with true. cbv iota.
    rewrite (struct_unpack_ff_pack _ _ Hx Hy).
    destruct (state f) eqn:Es; [| |exfalso; apply Hf; reflexivity];
      cbn; rewrite ?Es; cbn; try reflexivity.
    destruct f; cbn in *; subst; reflexivity.
  - intros x H. apply as_f32_not_finite.
    destruct H as [H|H].
    + unfold is_finite, is_infinity in H. rewrite is_nan_spec, FloatAxioms.eqb_spec, abs_spec in H.
      change (Prim2SF infinity) with (S754_infinity false) in H.
      destruct (Prim2SF x) as [s|s| |s m e]; try exact I. cbn in H. discriminate H.
    + rewrite eqb_zero_spec in H. destruct (Prim2SF x); try exact I. discriminate H.
Qed.

Lemma heartbeat_carries_position_witness :
  header_ok sample_leader /\ state sample_follower <> LEADER
  /\ exists pkt,
      run _send_heartbeat sample_leader = (Ret tt, with_sent [pkt] sample_leader)
      /\ leader_pos (snd (run (on_message_received 1006 pkt) sample_follower))
         = Some (0, 0)%float.
Proof.
  assert (Hh : header_ok sample_leader) by (unfold header_ok; cbn; lia).
  assert (Hf : state sample_follower <> LEADER) by discriminate.
  refine (conj Hh (conj Hf _)).
  destruct (heartbeat_carries_position sample_leader sample_follower 1006 Hh eq_refl
              ltac:(vm_compute; discriminate) ltac:(vm_compute; discriminate) Hf)
    as (pkt & H1 & H2 & _).
  exists pkt. split; [exact H1|]. rewrite H2. reflexivity.
Defined.

(** X26. The leader arbitrates on single-precision utilities.  The
    TASK_CLAIM a scan hands over for (task_id, u) reaches any node as a
    claim from the scanning node for the same task id and for u rounded to
    the nearest binary32 value; a LEADER with no entry for the task records
    exactly that sender and that rounded utility and answers with the
    TASK_CONFLICT naming the sender. *)
Theorem claim_reaches_leader (w l : SwarmAgent) (now : float) (task_id : Z) (u : float) :
  header_ok w -> 0 <= task_id < 4294967296 -> f32_bits u <> None ->
  let payload := u32_be task_id ++ f32_be u in
  struct_unpack_If payload = Ret (task_id, as_f32 u)
  /\ run (on_message_received now (claim_frame w task_id u)) l
     = run (_handle_task_claim (agent_id w) payload) l
  /\ (state l = LEADER -> header_ok l -> task_claims l !! task_id = None ->
      run (on_message_received now (claim_frame w task_id u)) l
      = (Ret tt, claim_awarded task_id (agent_id w) (as_f32 u) l)).
Proof.
  intros Hw Ht Hu payload.
  assert (P : struct_unpack_If payload = Ret (task_id, as_f32 u))
    by (apply struct_unpack_If_pack; assumption).
  assert (R : run (on_message_received now (claim_frame w task_id u)) l
              = run (_handle_task_claim (agent_id w) payload) l).
  { unfold claim_frame. rewrite frame_received by apply Hw. reflexivity. }
  split; [exact P|]. split; [exact R|].
  intros El Hl Hn. rewrite R.
  rewrite (task_claim_result l (agent_id w) payload task_id (as_f32 u) P Hl (proj1 Hw)).
  - rewrite El, Hn. reflexivity.
  - intros c Hc. rewrite Hn in Hc. discriminate Hc.
Qed.

Lemma claim_reaches_leader_witness :
  header_ok sample_holder
  /\ run (on_message_received 1006 (claim_frame sample_holder 101 50)) sample_leader
     = (Ret tt, claim_awarded 101 1 50 sample_leader).
Proof.
  assert (Hh : header_ok sample_holder) by (unfold header_ok; cbn; lia).
  refine (conj Hh _).
  exact (proj2 (proj2 (claim_reaches_leader sample_holder sample_leader 1006 101 50 Hh
                         ltac:(lia) ltac:(vm_compute; discriminate)))
           eq_refl ltac:(unfold header_ok; cbn; lia) eq_refl).
Defined.

End Platform.

(** * Sample runs

    The properties above hold whatever the C library returns for [pow].
    The runs below are evaluated with [libm_nearest]; where a square reaches
    the C library in one of them, it is said so. *)

Lemma utility_value_witness :
  fst (run (_calculate_utility libm_nearest task_101) sample_worker) = Ret 50%float
  /\ (50 >=? 0)%float = true.
Proof.
  assert (H : fst (run (_calculate_utility libm_nearest task_101) sample_worker)
              = Ret 50%float) by reflexivity.
  destruct (utility_value libm_nearest sample_worker task_101 50 H)
    as (d & _ & _ & _ & G & _).
  exact (conj H (G eq_refl)).
Defined.

(** C7, as stated, fails: with the required capability present the utility
    is still 0.0 once the distance is no longer finite.  The squares of the
    two offsets, 2.25 * 2^1022 each, are doubles, their sum is not. *)
Lemma utility_zero_with_capability :
  ~ utility_zero_iff_capability_missing libm_nearest sample_worker far_task.
Proof.
  unfold utility_zero_iff_capability_missing. intros H.
  destruct (H 0%float eq_refl) as [H1 _].
  specialize (H1 eq_refl). vm_compute in H1. discriminate H1.
Qed.

Lemma claim_scan_witness :
  header_ok sample_holder
  /\ Forall (claimable libm_nearest sample_holder) (tasks sample_holder)
  /\ run (_process_tasks libm_nearest) sample_holder
     = (Ret tt, with_sent [claim_frame sample_holder 101 50]
                  (with_tasks [(101, with_status TENTATIVE task_101)] sample_holder))
  /\ map (fun kt => status (snd kt))
       (tasks (snd (run (_process_tasks libm_nearest) sample_holder)))
     = [TENTATIVE].
Proof.
  assert (Hh : header_ok sample_holder) by (unfold header_ok; cbn; lia).
  assert (Hc : Forall (claimable libm_nearest sample_holder) (tasks sample_holder)).
  { repeat constructor. intros _. exists 50%float. split; [reflexivity|].
    intros _. cbn. lia. }
  refine (conj Hh (conj Hc (conj _ eq_refl))).
  exact (proj1 (proj2 (proj2 (proj2 (claim_scan libm_nearest sample_holder Hh Hc))))).
Defined.

(** C8, as stated, fails.  With the remote task ahead of task 101 in the
    map, the square of the offset 1e200 is a range error, the scan stops
    with OverflowError, and task 101, Open with utility 50.0, is neither
    claimed nor broadcast.  With task 101 held under the id 2^32 the task is
    made Tentative and struct.pack then refuses the id; on node 300 it is
    made Tentative and the header cannot be packed: in both cases no
    TASK_CLAIM goes out for the task. *)
Lemma claim_scan_stops_at_an_exception :
  ~ scan_claims_as_stated libm_nearest sample_far_sighted
  /\ ~ scan_claims_as_stated libm_nearest sample_wide_task
  /\ ~ scan_claims_as_stated libm_nearest sample_wide_holder.
Proof.
  repeat split; intros [_ S]; vm_compute in S; discriminate S.
Qed.

Lemma motion_step_coincident_neighbor_witness :
  py_pow2 libm_nearest 10 = Ret 100%float
  /\ run (_update_physics libm_nearest 0.1) sample_crowded
     = (Raise ZeroDivisionError, sample_crowded).
Proof.
  assert (H10 : py_pow2 libm_nearest 10 = Ret 100%float) by reflexivity.
  assert (Hv : py_pow2 libm_nearest 0.001 = Ret (0.001 * 0.001)%float) by reflexivity.
  exact (conj H10 (proj2 (motion_step_coincident_neighbor libm_nearest) _ H10 Hv)).
Defined.

Lemma leader_never_times_out_witness :
  state sample_leader = LEADER
  /\ state (snd (run (update_loop libm_nearest [mkReadings 2000 2000 2000 0]) sample_leader))
     = LEADER.
Proof.
  refine (conj eq_refl _).
  exact (proj1 (leader_never_times_out libm_nearest sample_leader
                  [mkReadings 2000 2000 2000 0] eq_refl)).
Defined.

Lemma idle_leader_heartbeats_witness :
  idle_leader sample_leader
  /\ run (update_loop libm_nearest (repeat sample_readings 10)) sample_leader
     = (Ret tt, with_sent [heartbeat_frame sample_leader 10] (later 10 sample_leader)).
Proof.
  assert (Hl : idle_leader sample_leader) by (repeat split; constructor).
  refine (conj Hl _).
  exact (proj1 (idle_leader_heartbeats libm_nearest sample_leader (repeat sample_readings 10)
                  Hl ltac:(cbn; lia) ltac:(cbn; lia) ltac:(cbn; lia)
                  ltac:(split; [reflexivity|vm_compute; discriminate])
                  ltac:(split; [reflexivity|vm_compute; discriminate]))).
Defined.

Lemma leader_beyond_f32_range_witness :
  state sample_astray = LEADER
  /\ f32_bits (fst (position sample_astray)) = None
  /\ tick (next_tick sample_astray) mod 10 <> 0
  /\ run (_process_logic libm_nearest 1001 1001 1001 0) (next_tick sample_astray)
     = (Raise OverflowError, next_tick sample_astray).
Proof.
  assert (H : f32_bits (fst (position sample_astray)) = None) by (vm_compute; reflexivity).
  refine (conj eq_refl (conj H (conj _ _))).
  - vm_compute. discriminate.
  - exact (leader_beyond_f32_range libm_nearest (next_tick sample_astray) 1001 1001 1001 0
             eq_refl (or_introl H)).
Defined.

Lemma claim_scan_settles_witness :
  header_ok sample_holder
  /\ Forall (claimable libm_nearest sample_holder) (tasks sample_holder)
  /\ run (bind (_process_tasks libm_nearest) (fun _ => _process_tasks libm_nearest))
       sample_holder
     = run (_process_tasks libm_nearest) sample_holder.
Proof.
  assert (Hh : header_ok sample_holder) by (unfold header_ok; cbn; lia).
  assert (Hc : Forall (claimable libm_nearest sample_holder) (tasks sample_holder)).
  { repeat constructor. intros _. exists 50%float. split; [reflexivity|]. intros _. cbn. lia. }
  refine (conj Hh (conj Hc _)).
  pose proof (proj2 (claim_scan_settles libm_nearest sample_holder Hh Hc)) as H.
  cbn zeta in H. unfold run, bind in *.
  destruct (_process_tasks libm_nearest sample_holder) as [[[]|e] s1] eqn:E; cbn [snd] in H;
    [exact H|reflexivity].
Defined.

Lemma formation_overrides_target_witness :
  state sample_wingman = FOLLOWER /\ leader_pos sample_wingman = Some (20, 0)%float
  /\ target sample_wingman = Some (10, 0)%float
  /\ target (snd (run (_update_physics libm_nearest 0.1) sample_wingman))
     = Some (18, -2)%float.
Proof.
  refine (conj eq_refl (conj eq_refl (conj eq_refl _))).
  destruct (formation_overrides_target libm_nearest sample_wingman 0.1 (20, 0)%float
              eq_refl eq_refl ltac:(cbn; lia)) as (r & Hr & Ht & _).
  rewrite Ht. vm_compute in Hr. injection Hr as <-. reflexivity.
Defined.

Lemma motion_step_raises_on_centred_obstacle_witness :
  In (fst (position sample_stuck_in_obstacle), snd (position sample_stuck_in_obstacle), 1%float)
     (obstacles sample_stuck_in_obstacle)
  /\ exists e, run (_update_physics libm_nearest 0.1) sample_stuck_in_obstacle
               = (Raise e, sample_stuck_in_obstacle).
Proof.
  assert (Hin : In (fst (position sample_stuck_in_obstacle),
                    snd (position sample_stuck_in_obstacle), 1%float)
                   (obstacles sample_stuck_in_obstacle)) by (left; reflexivity).
  refine (conj Hin _).
  exact (motion_step_raises_on_centred_obstacle libm_nearest sample_stuck_in_obstacle 0.1
           (10, 0)%float 1 eq_refl (or_intror eq_refl) Hin eq_refl eq_refl eq_refl).
Defined.


(** the squares of 20.0 and 3.0 reach the C library; 400.0 and 9.0 are doubles *)
Lemma distant_sensors_are_ignored_witness :
  Forall (obstacle_out_of_reach libm_nearest (position sample_clear)) (obstacles sample_clear)
  /\ Forall (neighbor_out_of_reach libm_nearest (position sample_clear))
       (neighbors sample_clear)
  /\ fst (run (_update_physics libm_nearest 0.1) sample_clear)
     = fst (run (_update_physics libm_nearest 0.1) (update_sensors [] [] sample_clear)).
Proof.
  assert (Ho : Forall (obstacle_out_of_reach libm_nearest (position sample_clear))
                 (obstacles sample_clear)).
  { constructor; [|constructor]. exists 20%float. split; reflexivity. }
  assert (Hn : Forall (neighbor_out_of_reach libm_nearest (position sample_clear))
                 (neighbors sample_clear)).
  { constructor; [|constructor]. exists 3%float. split; reflexivity. }
  refine (conj Ho (conj Hn _)).
  exact (proj1 (distant_sensors_are_ignored libm_nearest sample_clear 0.1 Ho Hn)).
Defined.
